(** * Sceptre: tag parser, value normalizer, output formatter and diff renderer

    A shallow embedding of
      - [sceptre/cli/helpers/cfn_yaml_loader.py]  (module [CfnYamlLoader]),
      - [sceptre/cli/helpers/console_writer.py]   (module [ConsoleWriter]),
      - [sceptre/diffing/diff_writer.py]          (module [DiffWriter]),
      - [sceptre/cli/helpers/__init__.py]         (module [Helpers]),
    followed by the properties proved about them.

    Conventions.  A Python [str] is a [string]: one [ascii] per character,
    so the model covers text whose code points are below 256.  A Python
    exception is a value of [exn]; code that may raise returns a [result].
    Objects that are mutated (the console, the output stream, the line
    buffer of a diff writer) are threaded explicitly as state.  Functions
    of third-party libraries (PyYAML, json, tabulate, cfn_flip, DeepDiff)
    and of modules outside these files are taken as operations of the
    interfaces [PyYAML], [Json], [Tabulate], [Builtins], [Colourer] and
    [DiffWriter.Collaborators]. *)

From Stdlib Require Import ZArith List String Ascii Bool Arith Lia.
From Stdlib Require Import Permutation Sorted DecimalString.
Import ListNotations.

#[local] Set Warnings "-register-all".

Local Open Scope list_scope.
Local Open Scope string_scope.

(** ** Python runtime fragments *)

Module Py.

(** The exception classes the modelled code raises or meets.  Every one of
    them derives from [Exception]. *)
Inductive exn_class : Type :=
| ValueError
| AttributeError
| TypeError
| YAMLError
| JSONDecodeError
| UnboundLocalError
| RecursionError.

Record exn : Type := Raise { exn_cls : exn_class; exn_msg : string }.

Inductive result (A : Type) : Type :=
| Ok (a : A)
| Err (e : exn).

Arguments Ok {A} a.
Arguments Err {A} e.

Definition bind {A B : Type} (c : result A) (k : A -> result B) : result B :=
  match c with
  | Ok a => k a
  | Err e => Err e
  end.

(** [isinstance(e, Exception)] *)
Definition isinstance_Exception (e : exn) : bool :=
  match exn_cls e with
  | ValueError | AttributeError | TypeError | YAMLError | JSONDecodeError
  | UnboundLocalError | RecursionError => true
  end.

(** [try: c] followed by [except Exception: h] *)
Definition try_except_Exception {A : Type} (c : result A) (h : result A) : result A :=
  match c with
  | Ok a => Ok a
  | Err e => if isinstance_Exception e then h else Err e
  end.

(** Dictionary keys.  Python compares keys with [==]; a [bool] key equals
    the integer 0 or 1 and is represented as that integer. *)
Inductive pykey : Type :=
| KStr (s : string)
| KInt (n : Z)
| KNone.

(** Values built from mappings, sequences, strings, numbers, booleans and
    null: the inputs the specification gives the normalizer and the
    formatter.  A float is carried as its IEEE-754 bit pattern; no modelled
    operation looks inside it.  A [dict] keeps its items in insertion
    order. *)
#[local] Unset Elimination Schemes.
Inductive pyval : Type :=
| PNone
| PBool (b : bool)
| PInt (n : Z)
| PFloat (bits : Z)
| PStr (s : string)
| PList (items : list pyval)
| PDict (items : list (pykey * pyval)).
#[local] Set Elimination Schemes.

Definition pydict : Type := list (pykey * pyval).

Definition pykey_eqb (a b : pykey) : bool :=
  match a, b with
  | KStr s, KStr t => String.eqb s t
  | KInt n, KInt m => Z.eqb n m
  | KNone, KNone => true
  | _, _ => false
  end.

(** [d[key] = value]: an existing key keeps its position, a new key goes
    last. *)
Fixpoint dict_set (d : pydict) (key : pykey) (value : pyval) : pydict :=
  match d with
  | [] => [(key, value)]
  | (k, v) :: rest =>
      if pykey_eqb k key then (k, value) :: rest
      else (k, v) :: dict_set rest key value
  end.

Definition dict_keys (d : pydict) : list pykey := map fst d.
Definition dict_values (d : pydict) : list pyval := map snd d.

Section Comprehensions.

Variable f : pyval -> result pyval.

(** [[f(item) for item in items]] for an [f] that may raise *)
Fixpoint list_comprehension (items : list pyval) : result (list pyval) :=
  match items with
  | [] => Ok []
  | item :: rest =>
      bind (f item) (fun head =>
      bind (list_comprehension rest) (fun tail =>
      Ok (head :: tail)))
  end.

(** [{key: f(val) for key, val in items}]: the items are set one after the
    other in the mapping built so far. *)
Fixpoint dict_comprehension (built : pydict) (items : list (pykey * pyval))
  : result pydict :=
  match items with
  | [] => Ok built
  | (key, val) :: rest =>
      bind (f val) (fun value =>
      dict_comprehension (dict_set built key value) rest)
  end.

End Comprehensions.

(** *** Strings *)

(** [s * n] *)
Fixpoint str_mul (s : string) (n : nat) : string :=
  match n with
  | O => EmptyString
  | S k => s ++ str_mul s k
  end.

(** [sep.join(parts)] *)
Definition join (sep : string) (parts : list string) : string :=
  String.concat sep parts.

(** [s.startswith(p)] *)
Definition startswith (p s : string) : bool := String.prefix p s.

(** [s[n:]] *)
Fixpoint slice_from (n : nat) (s : string) : string :=
  match n, s with
  | O, _ => s
  | S k, EmptyString => EmptyString
  | S k, String _ rest => slice_from k rest
  end.

(** [sub in s] *)
Fixpoint contains (sub s : string) : bool :=
  startswith sub s
  || match s with
     | EmptyString => false
     | String _ rest => contains sub rest
     end.

(** [s.replace(old, new)] for a non-empty [old]: occurrences are found
    left to right and do not overlap.  [skip] counts the characters of a
    matched occurrence that are still to be passed over. *)
Fixpoint replace_from (old new : string) (skip : nat) (s : string) : string :=
  match s with
  | EmptyString => EmptyString
  | String c rest =>
      match skip with
      | S k => replace_from old new k rest
      | O =>
          if startswith old s
          then new ++ replace_from old new (String.length old - 1) rest
          else String c (replace_from old new 0 rest)
      end
  end.

(** With an empty [old] Python puts [new] before every character and at
    the end. *)
Fixpoint interleave (new s : string) : string :=
  match s with
  | EmptyString => new
  | String c rest => new ++ String c (interleave new rest)
  end.

Definition replace (old new s : string) : string :=
  match old with
  | EmptyString => interleave new s
  | String _ _ => replace_from old new 0 s
  end.

(** The line boundaries of [str.splitlines] below code point 256. *)
Definition is_linebreak (c : ascii) : bool :=
  let n := nat_of_ascii c in
  Nat.eqb n 10 || Nat.eqb n 11 || Nat.eqb n 12 || Nat.eqb n 13
  || Nat.eqb n 28 || Nat.eqb n 29 || Nat.eqb n 30 || Nat.eqb n 133.

Definition is_cr (c : ascii) : bool := Nat.eqb (nat_of_ascii c) 13.
Definition is_lf (c : ascii) : bool := Nat.eqb (nat_of_ascii c) 10.

(** [s.splitlines()]: [cur] is the line read so far.  A carriage return
    followed by a line feed is one boundary; a text that ends with a
    boundary has no empty last line. *)
Fixpoint splitlines_from (cur s : string) : list string :=
  match s with
  | EmptyString =>
      match cur with
      | EmptyString => []
      | String _ _ => [cur]
      end
  | String c rest =>
      if is_linebreak c then
        match rest with
        | String c2 rest2 =>
            if is_cr c && is_lf c2
            then cur :: splitlines_from EmptyString rest2
            else cur :: splitlines_from EmptyString rest
        | EmptyString => [cur]
        end
      else splitlines_from (cur ++ String c EmptyString) rest
  end.

Definition splitlines (s : string) : list string := splitlines_from EmptyString s.

(** [s.split(sep, 1)] for a one-character separator: the text before the
    first separator and the text after it, or the whole text alone. *)
Fixpoint split_once_from (sep : ascii) (cur s : string) : list string :=
  match s with
  | EmptyString => [cur]
  | String c rest =>
      if Ascii.eqb c sep then [cur; rest]
      else split_once_from sep (cur ++ String c EmptyString) rest
  end.

Definition split_once (sep : ascii) (s : string) : list string :=
  split_once_from sep EmptyString s.

(** [sorted(l)] on strings: Python orders strings by code point. *)
Fixpoint insert_sorted (x : string) (l : list string) : list string :=
  match l with
  | [] => [x]
  | y :: rest => if String.leb x y then x :: l else y :: insert_sorted x rest
  end.

Definition sorted (l : list string) : list string :=
  fold_right insert_sorted [] l.

(** [max(l, key=len)]: the first element of greatest length. *)
Fixpoint max_by_len_from (best : string) (l : list string) : string :=
  match l with
  | [] => best
  | x :: rest =>
      if Nat.ltb (String.length best) (String.length x)
      then max_by_len_from x rest
      else max_by_len_from best rest
  end.

Definition max_by_len (l : list string) : result string :=
  match l with
  | [] => Err (Raise ValueError "max() arg is an empty sequence")
  | x :: rest => Ok (max_by_len_from x rest)
  end.

(** [str(n)] for an [int] *)
Definition str_of_int (n : Z) : string := NilZero.string_of_int (Z.to_int n).

(** The line feed character as a one-character text. *)
Definition LF : string := String (ascii_of_nat 10) EmptyString.

(** *** Code that mutates an object and may raise

    A computation over a state [S] returns its outcome together with the
    state it leaves behind: what was done before an exception stays done. *)
Definition M (S A : Type) : Type := S -> result A * S.

Definition ret {S A : Type} (a : A) : M S A := fun s => (Ok a, s).

Definition raise {S A : Type} (e : exn) : M S A := fun s => (Err e, s).

Definition mbind {S A B : Type} (c : M S A) (k : A -> M S B) : M S B :=
  fun s =>
    match c s with
    | (Ok a, s') => k a s'
    | (Err e, s') => (Err e, s')
    end.

Definition lift {S A : Type} (r : result A) : M S A := fun s => (r, s).

Definition get {S : Type} : M S S := fun s => (Ok s, s).

Definition modify {S : Type} (f : S -> S) : M S unit := fun s => (Ok tt, f s).

End Py.

Import Py.

Declare Scope py_scope.
Delimit Scope py_scope with py.
Notation "x <- c ;; k" := (mbind c (fun x => k))
  (at level 61, c at next level, right associativity) : py_scope.
Notation "c ;; k" := (mbind c (fun _ => k))
  (at level 61, right associativity) : py_scope.

(** ** Third-party libraries, as interfaces *)

Module Lib.

(** PyYAML. *)
Class PyYAML : Type := {
  (** [yaml.load(text, Loader=CfnYamlLoader)] *)
  yaml_load : string -> result pyval;
  (** [yaml.safe_dump(value, default_flow_style=False, explicit_start=True)] *)
  yaml_safe_dump : pyval -> string;
  (** [yaml.dump(value)] *)
  yaml_dump : pyval -> string
}.

(** The [json] module. *)
Class Json : Type := {
  (** [json.dumps(value, indent=4, sort_keys=True, default=str)]; sorting
      keys of different types raises. *)
  json_dumps_sorted : pyval -> result string;
  (** [json.dumps(value, default=json_convertor_default(...), indent=4)] *)
  json_dumps : pyval -> string;
  (** [json.loads(text)] *)
  json_loads : string -> result pyval
}.

(** [tabulate]. *)
Class Tabulate : Type := {
  (** [tabulate(rows, headers='keys')] *)
  tabulate_keys : list pyval -> string;
  (** [tabulate(pairs, headers=('key', 'value'))] *)
  tabulate_pairs : list (pykey * pyval) -> string
}.

(** The builtin [repr], used by [str] on floats and containers. *)
Class Builtins : Type := {
  repr : pyval -> string
}.

(** [StackStatusColourer]: [colour(text)]. *)
Class Colourer : Type := {
  colour : string -> string
}.

(** [str(value)] *)
Definition py_str `{Builtins} (value : pyval) : string :=
  match value with
  | PStr s => s
  | PInt n => str_of_int n
  | PBool true => "True"
  | PBool false => "False"
  | PNone => "None"
  | PFloat _ | PList _ | PDict _ => repr value
  end.

End Lib.

Import Lib.

(** ** [sceptre/cli/helpers/cfn_yaml_loader.py] *)

Module CfnYamlLoader.

Definition CFN_TAGS : list string :=
  [ "Condition";
    "Ref" ].

Definition CFN_FNS : list string :=
  [ "And";
    "Base64";
    "Cidr";
    "Equals";
    "FindInMap";
    "GetAtt";
    "GetAZs";
    "If";
    "ImportValue";
    "Join";
    "Not";
    "Or";
    "Select";
    "Split";
    "Sub";
    "Transform" ].

(** A node of PyYAML's representation graph.  The [value] of a scalar node
    is text, that of a sequence node a list of nodes, that of a mapping
    node a list of pairs of nodes.  [BareNode] is an instance of the base
    class [yaml.Node] whose value is neither text nor a list; the composer
    builds none. *)
Inductive node : Type :=
| ScalarNode (tag : string) (value : string)
| SequenceNode (tag : string) (value : list node)
| MappingNode (tag : string) (value : list (node * node))
| BareNode (tag : string).

(** The methods of a [yaml.SafeLoader] that the constructors call. *)
Record Loader : Type := {
  construct_scalar : node -> result pyval;
  construct_sequence : node -> result (list pyval);
  construct_mapping : node -> result pydict
}.

(** What the parameter [loader] of [_getatt_constructor] may be bound to:
    a loader, or a tuple of such objects. *)
Inductive pyobj : Type :=
| ObjLoader (l : Loader)
| ObjTuple (items : list pyobj).

(** [obj.construct_sequence] *)
Definition attr_construct_sequence (obj : pyobj)
  : result (node -> result (list pyval)) :=
  match obj with
  | ObjLoader l => Ok (construct_sequence l)
  | ObjTuple _ =>
      Err (Raise AttributeError
             "'tuple' object has no attribute 'construct_sequence'")
  end.

(** The loop of [_getatt_constructor] over the constructed sequence. *)
Fixpoint check_items (seq : list pyval) : result unit :=
  match seq with
  | [] => Ok tt
  | item :: rest =>
      match item with
      | PStr _ => check_items rest
      | _ =>
          Err (Raise ValueError
                 "Fn::GetAtt does not support complex datastructures")
      end
  end.

Definition _getatt_constructor (loader : pyobj) (n : node) : result pyval :=
  match n with
  | ScalarNode _ value =>
      (* isinstance(node.value, six.text_type) *)
      Ok (PList (map PStr (split_once "." value)))
  | SequenceNode _ _ | MappingNode _ _ =>
      (* isinstance(node.value, list) *)
      bind (attr_construct_sequence loader) (fun construct =>
      bind (construct n) (fun seq =>
      bind (check_items seq) (fun _ =>
      Ok (PList seq))))
  | BareNode _ =>
      Err (Raise ValueError "Fn::GetAtt only supports string or list values")
  end.

(** [x in l] on a list of strings *)
Definition mem (x : string) (l : list string) : bool :=
  existsb (String.eqb x) l.

Definition supported_tags : string :=
  join ", " (sorted (CFN_TAGS ++ CFN_FNS)%list).

Definition bad_tag_message (tag_suffix : string) : string :=
  "Bad tag: !" ++ tag_suffix ++ ". Supported tags are: " ++ supported_tags.

(** A generator function with a single [yield], as the loader drives it:
    the first [next] either raises or yields an object; resuming the
    generator then fills the yielded object in, or raises.  [Yielded r]
    carries the outcome [r] of resuming: the final content of the yielded
    object, or the exception. *)
Inductive generator (A : Type) : Type :=
| Raised (e : exn)
| Yielded (resumed : result A).

Arguments Raised {A} e.
Arguments Yielded {A} resumed.

Definition _tag_constructor (loader : Loader) (tag_suffix : string) (n : node)
  : generator pydict :=
  if negb (mem tag_suffix CFN_FNS) && negb (mem tag_suffix CFN_TAGS)
  then Raised (Raise ValueError (bad_tag_message tag_suffix))
  else
    let tag_suffix :=
      if mem tag_suffix CFN_FNS then "Fn::" ++ tag_suffix else tag_suffix in
    (* data = {}; yield data *)
    Yielded
      (let constructor : result (node -> result pyval) :=
         if String.eqb tag_suffix "Fn::GetAtt"
         then Ok (_getatt_constructor (ObjTuple [ObjLoader loader]))
         else
           match n with
           | ScalarNode _ _ => Ok (construct_scalar loader)
           | SequenceNode _ _ =>
               Ok (fun n => bind (construct_sequence loader n)
                              (fun seq => Ok (PList seq)))
           | MappingNode _ _ =>
               Ok (fun n => bind (construct_mapping loader n)
                              (fun d => Ok (PDict d)))
           | BareNode _ =>
               Err (Raise UnboundLocalError
                      "local variable 'constructor' referenced before assignment")
           end in
       bind constructor (fun construct =>
       bind (construct n) (fun value =>
       (* data[tag_suffix] = constructor(node) *)
       Ok (dict_set [] (KStr tag_suffix) value)))).

End CfnYamlLoader.

(** ** [sceptre/cli/helpers/console_writer.py] *)

Module ConsoleWriter.

(** [isinstance(value, PRIMITIVE_TYPES)] with
    [PRIMITIVE_TYPES = (str, int, float, type(None), bool)] *)
Definition is_primitive (value : pyval) : bool :=
  match value with
  | PStr _ | PInt _ | PFloat _ | PNone | PBool _ => true
  | PList _ | PDict _ => false
  end.

Definition is_list (value : pyval) : bool :=
  match value with
  | PList _ => true
  | _ => false
  end.

Definition is_dict (value : pyval) : bool :=
  match value with
  | PDict _ => true
  | _ => false
  end.

(** The items of a list (of a dict); read only under the matching
    [isinstance] test. *)
Definition list_items (value : pyval) : list pyval :=
  match value with
  | PList items => items
  | _ => []
  end.

Definition dict_items (value : pyval) : pydict :=
  match value with
  | PDict items => items
  | _ => []
  end.

Section Writer.

Context `{PyYAML} `{Json} `{Tabulate} `{Builtins}.

Definition _convert_to_json (value : pyval) : result string :=
  json_dumps_sorted value.

Definition _convert_to_yaml (value : pyval) : string :=
  yaml_safe_dump value.

Definition _convert_to_text (value : pyval) : string :=
  if is_list value && forallb is_primitive (list_items value)
  then join LF (map py_str (list_items value))
  else if is_list value && forallb is_dict (list_items value)
  then tabulate_keys (list_items value)
  else if is_dict value && forallb is_primitive (dict_values (dict_items value))
  then tabulate_pairs (dict_items value)
  else _convert_to_yaml value.

Fixpoint _prepare_value_for_serialization (value : pyval) : result pyval :=
  match value with
  | PDict items =>
      bind (dict_comprehension _prepare_value_for_serialization [] items)
           (fun prepared => Ok (PDict prepared))
  | PList items =>
      bind (list_comprehension _prepare_value_for_serialization items)
           (fun prepared => Ok (PList prepared))
  | PStr s =>
      try_except_Exception (yaml_load s) (Ok value)
  | PNone | PBool _ | PInt _ | PFloat _ => Ok value
  end.

(** The method under the interpreter's recursion limit.  [limit] is the
    number of nested calls of the method that the interpreter still allows,
    the call at hand included; a call that is not allowed raises
    [RecursionError].  The recursive calls are made in the two
    comprehensions, outside the [try]: their [RecursionError] is not
    recovered and leaves the method.  The calls the method makes to the
    decoder and to built-ins are not counted: they are taken to have the
    stack they need.  [_prepare_value_for_serialization] above is the
    method on a stack that never runs out. *)
Fixpoint _prepare_value_for_serialization_within (limit : nat) (value : pyval)
  : result pyval :=
  match limit with
  | O => Err (Raise RecursionError "maximum recursion depth exceeded")
  | S limit =>
      match value with
      | PDict items =>
          bind (dict_comprehension
                  (_prepare_value_for_serialization_within limit) [] items)
               (fun prepared => Ok (PDict prepared))
      | PList items =>
          bind (list_comprehension
                  (_prepare_value_for_serialization_within limit) items)
               (fun prepared => Ok (PList prepared))
      | PStr s =>
          try_except_Exception (yaml_load s) (Ok value)
      | PNone | PBool _ | PInt _ | PFloat _ => Ok value
      end
  end.

(** The attributes found on an instance while [__init__] runs: those of
    its class and of the classes it extends.  ([object] adds names that
    begin and end with two underscores.) *)
Inductive attribute : Type :=
| Attr__init__
| Attr_write
| Attr_convert_to_json
| Attr_convert_to_yaml
| Attr_convert_to_text
| Attr_prepare_value_for_serialization
| Attr_wrap_with_colouring.

Inductive class : Type :=
| ClsConsoleWriter
| ClsColouringConsoleWriter.

Definition class_name (cls : class) : string :=
  match cls with
  | ClsConsoleWriter => "ConsoleWriter"
  | ClsColouringConsoleWriter => "ColouringConsoleWriter"
  end.

Definition ConsoleWriter_namespace : list (string * attribute) :=
  [ ("__init__", Attr__init__);
    ("write", Attr_write);
    ("_convert_to_json", Attr_convert_to_json);
    ("_convert_to_yaml", Attr_convert_to_yaml);
    ("_convert_to_text", Attr_convert_to_text);
    ("_prepare_value_for_serialization", Attr_prepare_value_for_serialization) ].

Definition namespace (cls : class) : list (string * attribute) :=
  match cls with
  | ClsConsoleWriter => ConsoleWriter_namespace
  | ClsColouringConsoleWriter =>
      ([ ("__init__", Attr__init__);
         ("_wrap_with_colouring", Attr_wrap_with_colouring) ]
       ++ ConsoleWriter_namespace)%list
  end.

Fixpoint lookup (name : string) (ns : list (string * attribute)) : option attribute :=
  match ns with
  | [] => None
  | (n, a) :: rest => if String.eqb n name then Some a else lookup name rest
  end.

(** [getattr(self, name)] on an instance of [cls] *)
Definition getattr (cls : class) (name : string) : result attribute :=
  match lookup name (namespace cls) with
  | Some a => Ok a
  | None =>
      Err (Raise AttributeError
             ("'" ++ class_name cls ++ "' object has no attribute '" ++ name ++ "'"))
  end.

(** Calling the bound method stored in [_stringify] on one value.  Only
    the three converters are ever stored there. *)
Definition call_stringify (a : attribute) (value : pyval) : result string :=
  match a with
  | Attr_convert_to_json => _convert_to_json value
  | Attr_convert_to_yaml => Ok (_convert_to_yaml value)
  | Attr_convert_to_text => Ok (_convert_to_text value)
  | _ => Err (Raise TypeError "not a converter")
  end.

(** A writer after construction.  [_output], the output function, is the
    console: [echo] below. *)
Record writer : Type := {
  _stringify : pyval -> result string
}.

(** The console: the texts handed to [click.echo], oldest first. *)
Definition console : Type := list string.

Definition echo (text : string) : M console unit :=
  modify (fun out => (out ++ [text])%list).

(** [ConsoleWriter.__init__], run on an instance of [cls] *)
Definition ConsoleWriter__init__ (cls : class) (output_format : string)
  : result writer :=
  bind (getattr cls ("_convert_to_" ++ output_format)) (fun a =>
  Ok {| _stringify := call_stringify a |}).

Definition _wrap_with_colouring `{Colourer} (func_to_wrap : pyval -> result string)
  : pyval -> result string :=
  fun value =>
    bind (func_to_wrap value) (fun as_string =>
    Ok (colour as_string)).

Definition ColouringConsoleWriter__init__ `{Colourer} (output_format : string)
  : result writer :=
  bind (ConsoleWriter__init__ ClsColouringConsoleWriter output_format) (fun w =>
  Ok {| _stringify := _wrap_with_colouring (_stringify w) |}).

(** [ConsoleWriter.write] *)
Definition writer_write (w : writer) (value : pyval) : M console unit :=
  (prepared_value <- lift (_prepare_value_for_serialization value) ;;
   as_string <- lift (_stringify w prepared_value) ;;
   echo as_string)%py.

(** The module-level [write] *)
Definition write `{Colourer} (var : pyval) (output_format : string)
    (no_colour : bool) : M console unit :=
  (w <- lift (if no_colour
              then ConsoleWriter__init__ ClsConsoleWriter output_format
              else ColouringConsoleWriter__init__ output_format) ;;
   writer_write w var)%py.

End Writer.

End ConsoleWriter.

(** ** [sceptre/diffing/diff_writer.py] *)

Module DiffWriter.

(** What the writer is handed from outside the file: the stack
    configuration record with its [_asdict], the generated template with
    the text an f-string makes of it, and the two dumpers of [cfn_flip]. *)
Class Collaborators : Type := {
  StackConfiguration : Type;
  Template : Type;
  _asdict : StackConfiguration -> pydict;
  template_text : Template -> string;
  cfn_flip_dump_json : pydict -> string;
  cfn_flip_dump_yaml : pydict -> string
}.

(** Modelled from the spec: the StackDiff record of
    [sceptre/diffing/stack_differ.py], which is not among the files at
    hand; these are the fields the writer reads. *)
Record StackDiff `{Collaborators} (DiffType : Type) : Type := {
  stack_name : string;
  template_diff : DiffType;
  config_diff : DiffType;
  is_deployed : bool;
  generated_config : StackConfiguration;
  generated_template : Template
}.

Arguments stack_name {_ DiffType} s.
Arguments template_diff {_ DiffType} s.
Arguments config_diff {_ DiffType} s.
Arguments is_deployed {_ DiffType} s.
Arguments generated_config {_ DiffType} s.
Arguments generated_template {_ DiffType} s.

Definition STAR_BAR : string := str_mul "*" 80.
Definition LINE_BAR : string := str_mul "-" 80.

(** A writer: the diff and format it was built with, its line buffer, and
    the output stream as the texts written to it, oldest first. *)
Record DiffWriter `{Collaborators} (DiffType : Type) : Type := {
  stack_diff : StackDiff DiffType;
  output_format : string;
  collected_lines : list string;
  output_stream : list string
}.

Arguments stack_diff {_ DiffType} d.
Arguments output_format {_ DiffType} d.
Arguments collected_lines {_ DiffType} d.
Arguments output_stream {_ DiffType} d.

(** The abstract members of [DiffWriter]: two predicates on the diff the
    writer was built with, and the dump of one diff value in the writer's
    output format. *)
Class Strategy `{Collaborators} (DiffType : Type) : Type := {
  has_config_difference : StackDiff DiffType -> bool;
  has_template_difference : StackDiff DiffType -> bool;
  dump_diff : string -> DiffType -> result string
}.

Section Base.

Context `{Collaborators} {DiffType : Type} `{!Strategy DiffType}.

Definition __init__ (stack_diff : StackDiff DiffType)
    (output_stream : list string) (output_format : string)
  : DiffWriter DiffType :=
  {| stack_diff := stack_diff;
     output_format := output_format;
     collected_lines := [];
     output_stream := output_stream |}.

Definition has_difference (self : DiffWriter DiffType) : bool :=
  has_config_difference (stack_diff self)
  || has_template_difference (stack_diff self).

Definition _output (lines : list string) : M (DiffWriter DiffType) unit :=
  modify (fun self =>
    let lines_with_breaks := map (fun line => line ++ LF) lines in
    {| stack_diff := stack_diff self;
       output_format := output_format self;
       collected_lines := (collected_lines self ++ lines_with_breaks)%list;
       output_stream := output_stream self |}).

(** [self.output_stream.write(line)] *)
Definition stream_write (line : string) : M (DiffWriter DiffType) unit :=
  modify (fun self =>
    {| stack_diff := stack_diff self;
       output_format := output_format self;
       collected_lines := collected_lines self;
       output_stream := (output_stream self ++ [line])%list |}).

Definition compute_max_line_length (self : DiffWriter DiffType) : result nat :=
  bind (max_by_len (flat_map splitlines (collected_lines self)))
       (fun longest => Ok (String.length longest)).

Definition _dump_dict (self : DiffWriter DiffType) (dict_to_dump : pydict) : string :=
  let dumper :=
    if String.eqb (output_format self) "json"
    then cfn_flip_dump_json
    else cfn_flip_dump_yaml in
  dumper dict_to_dump.

Definition _dump_stack_config (self : DiffWriter DiffType)
    (stack_config : StackConfiguration) : string :=
  let stack_config_dict := _asdict stack_config in
  _dump_dict self stack_config_dict.

Definition _write_new_stack_details : M (DiffWriter DiffType) unit :=
  (self <- get ;;
   let stack_config_text :=
     _dump_stack_config self (generated_config (stack_diff self)) in
   _output
     [ "This stack is not deployed yet!";
       LINE_BAR;
       "New Config:";
       EmptyString;
       stack_config_text;
       LINE_BAR;
       "New Template:";
       EmptyString;
       template_text (generated_template (stack_diff self)) ])%py.

Definition _write_config_difference : M (DiffWriter DiffType) unit :=
  (self <- get ;;
   if negb (has_config_difference (stack_diff self))
   then _output [ "No stack config difference" ]
   else
     diff_text <- lift (dump_diff (output_format self)
                          (config_diff (stack_diff self))) ;;
     _output [ "Config difference:"; EmptyString; diff_text ])%py.

Definition _write_template_difference : M (DiffWriter DiffType) unit :=
  (self <- get ;;
   if negb (has_template_difference (stack_diff self))
   then _output [ "No template difference" ]
   else
     diff_text <- lift (dump_diff (output_format self)
                          (template_diff (stack_diff self))) ;;
     _output [ "Template difference:"; EmptyString; diff_text ])%py.

(** The body of the loop of [_output_to_stream] on one line. *)
Definition lengthen (max_line_length : nat) (line : string) : string :=
  let full_length_star_bar := str_mul "*" max_line_length in
  let full_length_line_bar := str_mul "-" max_line_length in
  if contains STAR_BAR line
  then replace STAR_BAR full_length_star_bar line
  else if contains LINE_BAR line
  then replace LINE_BAR full_length_line_bar line
  else line.

Fixpoint write_lines (max_line_length : nat) (lines : list string)
  : M (DiffWriter DiffType) unit :=
  match lines with
  | [] => ret tt
  | line :: rest =>
      (stream_write (lengthen max_line_length line) ;;
       write_lines max_line_length rest)%py
  end.

Definition _output_to_stream : M (DiffWriter DiffType) unit :=
  (self <- get ;;
   max_line_length <- lift (compute_max_line_length self) ;;
   write_lines max_line_length (collected_lines self))%py.

Definition write : M (DiffWriter DiffType) unit :=
  (_output [ STAR_BAR ] ;;
   self <- get ;;
   if negb (has_difference self)
   then _output [ "No difference to deployed stack " ++ stack_name (stack_diff self) ]
   else
     _output [ "--> Difference detected for stack "
               ++ stack_name (stack_diff self) ++ "!" ] ;;
     if negb (is_deployed (stack_diff self))
     then _write_new_stack_details
     else
       _output [ LINE_BAR ] ;;
       _write_config_difference ;;
       _output [ LINE_BAR ] ;;
       _write_template_difference ;;
       _output_to_stream)%py.

End Base.

(** *** [DeepDiffWriter] *)

(** A [DeepDiff] result is a [dict]; it is modelled by the mapping its
    [to_dict()] returns, and [len] counts its entries. *)
Definition DeepDiff : Type := pydict.

Definition to_dict (diff : DeepDiff) : pydict := diff.

(** The new key of one item in [_remove_root_key_prefixes_recursively]. *)
Definition new_key_of (key : pykey) : pykey :=
  match key with
  | KStr s => if startswith "root" s then KStr (slice_from 4 s) else key
  | KInt _ | KNone => key
  end.

Section Loop.

Variable recurse : pyval -> pyval.

(** The loop over [obj.items()], from the [result] built so far. *)
Fixpoint remove_loop (result : pydict) (items : list (pykey * pyval)) : pydict :=
  match items with
  | [] => result
  | (key, value) :: rest =>
      let new_key := new_key_of key in
      let new_value := recurse value in
      remove_loop (dict_set result new_key new_value) rest
  end.

End Loop.

Fixpoint _remove_root_key_prefixes_recursively (obj : pyval) : pyval :=
  match obj with
  | PDict items =>
      PDict (remove_loop _remove_root_key_prefixes_recursively [] items)
  | PList items => PList (map _remove_root_key_prefixes_recursively items)
  | PNone | PBool _ | PInt _ | PFloat _ | PStr _ => obj
  end.

Section Concrete.

Context `{Collaborators} `{Json} `{PyYAML}.

Definition DeepDiffWriter_dump_diff (output_format : string) (diff : DeepDiff)
  : result string :=
  let diff_as_dict := to_dict diff in
  let diff_with_root_keys_removed :=
    _remove_root_key_prefixes_recursively (PDict diff_as_dict) in
  let jsonified := json_dumps diff_with_root_keys_removed in
  if String.eqb output_format "json"
  then Ok jsonified
  else
    bind (json_loads jsonified) (fun loaded =>
    Ok (yaml_dump loaded)).

#[local] Instance DeepDiffWriter : Strategy DeepDiff := {
  has_config_difference diff := Nat.ltb 0 (List.length (config_diff diff));
  has_template_difference diff := Nat.ltb 0 (List.length (template_diff diff));
  dump_diff := DeepDiffWriter_dump_diff
}.

(** *** [DiffLibWriter] *)

#[local] Instance DiffLibWriter : Strategy (list string) := {
  has_config_difference diff := Nat.ltb 0 (List.length (config_diff diff));
  has_template_difference diff := Nat.ltb 0 (List.length (template_diff diff));
  dump_diff _ diff := Ok (join LF diff)
}.

End Concrete.

End DiffWriter.

(** ** The properties as the specification words them *)

Module Spec.

(** A mapping has each key once, at every depth. *)
Fixpoint nodup_keys (keys : list pykey) : bool :=
  match keys with
  | [] => true
  | k :: rest => negb (existsb (pykey_eqb k) rest) && nodup_keys rest
  end.

Fixpoint well_formed (v : pyval) : bool :=
  match v with
  | PList items => forallb well_formed items
  | PDict items =>
      nodup_keys (dict_keys items)
      && forallb (fun '(_, value) => well_formed value) items
  | PNone | PBool _ | PInt _ | PFloat _ | PStr _ => true
  end.

(** The normal form of a value: a string that decodes is replaced by what
    it decodes to, a string that does not is kept, any other primitive is
    kept, a sequence is normalized element by element and a mapping value
    by value under the same keys. *)
#[local] Unset Elimination Schemes.
#[local] Set Elimination Schemes.

(** A mapping or sequence whose elements are primitives. *)
Definition container_of_primitives (v : pyval) : bool :=
  match v with
  | PList items => forallb ConsoleWriter.is_primitive items
  | PDict items => forallb ConsoleWriter.is_primitive (dict_values items)
  | PNone | PBool _ | PInt _ | PFloat _ | PStr _ => false
  end.

(** The elements of a container. *)
Definition elements (v : pyval) : list pyval :=
  match v with
  | PList items => items
  | PDict items => dict_values items
  | PNone | PBool _ | PInt _ | PFloat _ | PStr _ => []
  end.

(** Every mapping key of a tree, through nested mappings and sequences. *)
Fixpoint all_keys (v : pyval) : list pykey :=
  match v with
  | PDict items =>
      flat_map (fun '(key, value) => key :: all_keys value) items
  | PList items => flat_map all_keys items
  | PNone | PBool _ | PInt _ | PFloat _ | PStr _ => []
  end.

Definition has_root_prefix (key : pykey) : bool :=
  match key with
  | KStr s => startswith "root" s
  | KInt _ | KNone => false
  end.

Definition has_doubled_root_prefix (key : pykey) : bool :=
  match key with
  | KStr s => startswith "rootroot" s
  | KInt _ | KNone => false
  end.

Definition no_key_retains_prefix (v : pyval) : bool :=
  forallb (fun key => negb (has_root_prefix key)) (all_keys v).

(** The JSON text of a tree parses back to that tree. *)
Definition parses_back `{Json} (tree : pyval) : Prop :=
  json_loads (json_dumps tree) = Ok tree.

(** How the JSON serializer writes a mapping key: a text key as itself,
    any other key (a number, a boolean, null) as a text that does not
    begin with the prefix. *)
Definition key_rendering (render : pykey -> string) : Prop :=
  (forall s, render (KStr s) = s)
  /\ (forall key, (forall s, key <> KStr s) -> startswith "root" (render key) = false).

(** The rendering of the keys of the model: the digits of a number and
    [null]. *)
Definition json_key (key : pykey) : string :=
  match key with
  | KStr s => s
  | KInt n => str_of_int n
  | KNone => "null"
  end.

Section ParsedBack.

Variable render : pykey -> string.

Section Object.

Variable recurse : pyval -> pyval.

(** The mapping a JSON parser builds from the members of an object, one
    after the other: of two members with the same key the later value is
    kept. *)
Fixpoint json_object (parsed : pydict) (items : list (pykey * pyval)) : pydict :=
  match items with
  | [] => parsed
  | (key, value) :: rest =>
      json_object (dict_set parsed (KStr (render key)) (recurse value)) rest
  end.

End Object.

(** What parsing the JSON text of a tree yields: the tree with every
    mapping key rendered as text. *)
Fixpoint json_image (v : pyval) : pyval :=
  match v with
  | PDict items => PDict (json_object json_image [] items)
  | PList items => PList (map json_image items)
  | PNone | PBool _ | PInt _ | PFloat _ | PStr _ => v
  end.

End ParsedBack.

(** The JSON text of a tree parses back to the tree with its keys
    rendered as text. *)
Definition reads_back `{Json} (render : pykey -> string) (tree : pyval) : Prop :=
  json_loads (json_dumps tree) = Ok (json_image render tree).

(** The number of nested calls the normalizer makes on a value: one for
    the value and, below a sequence or a mapping, those of its deepest
    element. *)
Fixpoint call_depth (v : pyval) : nat :=
  match v with
  | PList items => S (list_max (map call_depth items))
  | PDict items => S (list_max (map (fun '(_, value) => call_depth value) items))
  | PNone | PBool _ | PInt _ | PFloat _ | PStr _ => 1
  end.

(** Width normalization as the specification words it: every occurrence
    of either marker is replaced. *)
Definition replace_all_markers (max_line_length : nat) (line : string) : string :=
  replace DiffWriter.LINE_BAR (str_mul "-" max_line_length)
    (replace DiffWriter.STAR_BAR (str_mul "*" max_line_length) line).

(** A text that holds no line boundary. *)
Definition no_linebreak (sub : string) : Prop :=
  forall c, In c (list_ascii_of_string sub) -> is_linebreak c = false.

(** The headers of the two difference sections. *)
Definition difference_headers : list string :=
  [ "Config difference:";
    "Template difference:";
    "No stack config difference";
    "No template difference" ].

(** Ascending order of strings, by code point. *)
Definition str_le (a b : string) : Prop := String.leb a b = true.

(** The formats the output formatter supports. *)
Definition supported_formats : list string := [ "text"; "json"; "yaml" ].

End Spec.

(** ** Stand-ins for the collaborators

    The writers are run on concrete inputs below.  The stand-ins here
    take the place of the third-party libraries in those runs only; the
    theorems hold for every implementation of the interfaces. *)

Module Samples.

Definition DQ : string := String (ascii_of_nat 34) EmptyString.

(** A decoder that agrees with PyYAML on the listed texts and rejects every
    other text. *)
Definition yaml_table : list (string * pyval) :=
  [ ("5", PInt 5);
    ("'5'", PStr "5");
    ("true", PBool true);
    ("[1, 2]", PList [PInt 1; PInt 2]);
    ("{a: 1}", PDict [(KStr "a", PInt 1)]);
    ("CREATE_COMPLETE", PStr "CREATE_COMPLETE") ].

Fixpoint table_lookup {A : Type} (key : string) (table : list (string * A))
  : option A :=
  match table with
  | [] => None
  | (k, a) :: rest => if String.eqb k key then Some a else table_lookup key rest
  end.

Definition yaml : PyYAML := {|
  yaml_load s :=
    match table_lookup s yaml_table with
    | Some v => Ok v
    | None => Err (Raise YAMLError "could not be decoded")
    end;
  yaml_safe_dump _ := "--- (yaml document)";
  yaml_dump _ := "(yaml document)"
|}.

(** The JSON text of the tree [{"['Mappings']": {"Key": "v"}}] with an
    indentation of four, and a parser that knows this one text. *)
Definition json_tree : pyval :=
  PDict [(KStr "['Mappings']", PDict [(KStr "Key", PStr "v")])].

Definition json_text : string :=
  "{" ++ LF
  ++ "    " ++ DQ ++ "['Mappings']" ++ DQ ++ ": {" ++ LF
  ++ "        " ++ DQ ++ "Key" ++ DQ ++ ": " ++ DQ ++ "v" ++ DQ ++ LF
  ++ "    }" ++ LF
  ++ "}".

Definition json : Json := {|
  json_dumps_sorted _ := Ok json_text;
  json_dumps _ := json_text;
  json_loads s :=
    if String.eqb s json_text then Ok json_tree
    else Err (Raise JSONDecodeError "Expecting value")
|}.

Definition tabulate : Tabulate := {|
  tabulate_keys _ := "(table with the keys as headers)";
  tabulate_pairs _ := "(table with the headers key and value)"
|}.

Definition builtins : Builtins := {|
  repr _ := "(repr)"
|}.

Definition colourer : Colourer := {|
  colour s := s
|}.

(** A stack configuration given by its mapping, a template given by its
    text, and dumpers that name the format they stand for. *)
Definition collaborators : DiffWriter.Collaborators := {|
  DiffWriter.StackConfiguration := pydict;
  DiffWriter.Template := string;
  DiffWriter._asdict d := d;
  DiffWriter.template_text t := t;
  DiffWriter.cfn_flip_dump_json _ := "(json dump of the config)";
  DiffWriter.cfn_flip_dump_yaml _ := "(yaml dump of the config)"
|}.

(** A loader that constructs a scalar node as its text, a sequence node
    element by element (a nested collection as the empty list it is before
    the loader fills it in) and a mapping node as an empty mapping. *)
Definition loader : CfnYamlLoader.Loader := {|
  CfnYamlLoader.construct_scalar n :=
    match n with
    | CfnYamlLoader.ScalarNode _ value => Ok (PStr value)
    | _ => Err (Raise YAMLError "expected a scalar node")
    end;
  CfnYamlLoader.construct_sequence n :=
    match n with
    | CfnYamlLoader.SequenceNode _ items =>
        Ok (map (fun item =>
                   match item with
                   | CfnYamlLoader.ScalarNode _ value => PStr value
                   | _ => PList []
                   end) items)
    | _ => Err (Raise YAMLError "expected a sequence node")
    end;
  CfnYamlLoader.construct_mapping n :=
    match n with
    | CfnYamlLoader.MappingNode _ _ => Ok []
    | _ => Err (Raise YAMLError "expected a mapping node")
    end
|}.

(** Stack diffs for the line-diff writer. *)
Definition config : pydict := [(KStr "stack_name", PStr "my-stack")].

Definition no_difference : @DiffWriter.StackDiff collaborators (list string) :=
  @DiffWriter.Build_StackDiff collaborators (list string)
    "my-stack"            (* stack_name *)
    []   (* template_diff *)
    []   (* config_diff *)
    true   (* is_deployed *)
    config   (* generated_config *)
    "Resources: {}"   (* generated_template *).

Definition new_stack : @DiffWriter.StackDiff collaborators (list string) :=
  @DiffWriter.Build_StackDiff collaborators (list string)
    "my-stack"            (* stack_name *)
    ["+ Resources: {}"]   (* template_diff *)
    ["+ stack_name: my-stack"]   (* config_diff *)
    false   (* is_deployed *)
    config   (* generated_config *)
    "Resources: {}"   (* generated_template *).

(** A deployed stack whose config diff reports three added lines: 80
    stars, 80 dashes and a text that makes a line of 86 characters. *)
Definition banner_diff : @DiffWriter.StackDiff collaborators (list string) :=
  @DiffWriter.Build_StackDiff collaborators (list string)
    "my-stack"            (* stack_name *)
    []   (* template_diff *)
    [ "+ " ++ DiffWriter.STAR_BAR;
      "+ " ++ DiffWriter.LINE_BAR;
      "+ " ++ str_mul "x" 84 ]   (* config_diff *)
    true   (* is_deployed *)
    config   (* generated_config *)
    "Resources: {}"   (* generated_template *).

(** A writer whose buffer holds both bars and a line of 90 characters. *)
Definition buffered : @DiffWriter.DiffWriter collaborators (list string) :=
  @DiffWriter.Build_DiffWriter collaborators (list string)
    banner_diff           (* stack_diff *)
    "yaml"                (* output_format *)
    [ DiffWriter.STAR_BAR ++ LF;
      "Config difference:" ++ LF;
      ("+ " ++ str_mul "x" 88) ++ LF;
      DiffWriter.LINE_BAR ++ LF ]   (* collected_lines *)
    []                    (* output_stream *).

(** A tree diff that reports an added mapping whose own key begins with
    the prefix twice. *)
Definition doubled_prefix_diff : DiffWriter.DeepDiff :=
  [ (KStr "dictionary_item_added",
     PDict [ (KStr "root['Mappings']",
              PDict [ (KStr "rootrootKey", PStr "v") ]) ]) ].

Definition added_mapping_diff : DiffWriter.DeepDiff :=
  [ (KStr "root['Mappings']", PDict [ (KStr "rootKey", PStr "v") ]) ].


End Samples.

(** ** [sceptre/cli/helpers/__init__.py] *)

Module Helpers.

(** These functions index lists and unpack sequences, so they meet
    exception classes beyond those of [Py.exn]: an exception is given here
    by the name of its class and its message.  They change their arguments
    in place: a function is modelled by the final state of the object it
    changes, on values that are trees (no object is held at two places). *)
Inductive outcome (A : Type) : Type :=
| Returns (a : A)
| Raises (cls msg : string).

Arguments Returns {A} a.
Arguments Raises {A} cls msg.

Definition obind {A B : Type} (c : outcome A) (k : A -> outcome B) : outcome B :=
  match c with
  | Returns a => k a
  | Raises cls msg => Raises cls msg
  end.

(** [type(value).__name__] *)
Definition type_name (value : pyval) : string :=
  match value with
  | PNone => "NoneType"
  | PBool _ => "bool"
  | PInt _ => "int"
  | PFloat _ => "float"
  | PStr _ => "str"
  | PList _ => "list"
  | PDict _ => "dict"
  end.

(** [d.get(key)] *)
Fixpoint dict_get (d : pydict) (key : pykey) : option pyval :=
  match d with
  | [] => None
  | (k, v) :: rest => if pykey_eqb k key then Some v else dict_get rest key
  end.

(** [destination.setdefault(key, {})]: the value the destination holds
    under the key afterwards. *)
Definition setdefault (destination : pyval) (key : pykey) : outcome pyval :=
  match destination with
  | PDict d =>
      Returns (match dict_get d key with
               | Some node => node
               | None => PDict []
               end)
  | _ =>
      Raises "AttributeError"
        ("'" ++ type_name destination ++ "' object has no attribute 'setdefault'")
  end.

(** [l[i] = value] within the bounds of [l] *)
Fixpoint list_assign (l : list pyval) (i : nat) (value : pyval) : list pyval :=
  match l, i with
  | [], _ => []
  | _ :: rest, O => value :: rest
  | x :: rest, S j => x :: list_assign rest j value
  end.

(** [destination[key] = value] *)
Definition setitem (destination : pyval) (key : pykey) (value : pyval)
  : outcome pyval :=
  match destination with
  | PDict d => Returns (PDict (dict_set d key value))
  | PList l =>
      match key with
      | KInt n =>
          let len := Z.of_nat (List.length l) in
          let i := if Z.ltb n 0 then Z.add n len else n in
          if Z.leb 0 i && Z.ltb i len
          then Returns (PList (list_assign l (Z.to_nat i) value))
          else Raises "IndexError" "list assignment index out of range"
      | KStr _ =>
          Raises "TypeError" "list indices must be integers or slices, not str"
      | KNone =>
          Raises "TypeError" "list indices must be integers or slices, not NoneType"
      end
  | _ =>
      Raises "TypeError"
        ("'" ++ type_name destination ++ "' object does not support item assignment")
  end.

(** The destination after the object that [setdefault] returned for the
    key has been changed in place to [node]. *)
Definition with_node (destination : pyval) (key : pykey) (node : pyval) : pyval :=
  match destination with
  | PDict d => PDict (dict_set d key node)
  | _ => destination
  end.

Section MergeLoop.

Variable recurse : pyval -> pyval -> outcome pyval.

(** The loop of [_deep_merge] over [source.items()]. *)
Fixpoint merge_items (items : list (pykey * pyval)) (destination : pyval)
  : outcome pyval :=
  match items with
  | [] => Returns destination
  | (key, value) :: rest =>
      match value with
      | PDict _ =>
          obind (setdefault destination key) (fun node =>
          obind (recurse value node) (fun merged =>
          merge_items rest (with_node destination key merged)))
      | _ =>
          obind (setitem destination key value) (fun destination =>
          merge_items rest destination)
      end
  end.

End MergeLoop.

(** [_deep_merge(source, destination)]: the destination is changed in
    place and returned; the model returns its final state.  The function
    calls itself once per level of nested mappings of the source: [limit]
    is the number of nested calls the interpreter still allows, the call at
    hand included, and a call that is not allowed raises
    [RecursionError]. *)
Fixpoint _deep_merge (limit : nat) (source destination : pyval) : outcome pyval :=
  match limit with
  | O => Raises "RecursionError" "maximum recursion depth exceeded"
  | S limit =>
      match source with
      | PDict items => merge_items (_deep_merge limit) items destination
      | _ =>
          Raises "AttributeError"
            ("'" ++ type_name source ++ "' object has no attribute 'items'")
      end
  end.

(** [s.split(sep)] for a one-character separator *)
Fixpoint split_from (sep : ascii) (cur s : string) : list string :=
  match s with
  | EmptyString => [cur]
  | String c rest =>
      if Ascii.eqb c sep then cur :: split_from sep EmptyString rest
      else split_from sep (cur ++ String c EmptyString) rest
  end.

Definition split (sep : ascii) (s : string) : list string :=
  split_from sep EmptyString s.

(** [_nested_set(dic, keys, value)], the inner function of
    [_update_dict]; the model returns the final state of [dic]. *)
Fixpoint _nested_set (dic : pyval) (keys : list string) (value : pyval)
  : outcome pyval :=
  match keys with
  | [] => Raises "IndexError" "list index out of range"
  | [ last ] => setitem dic (KStr last) value
  | key :: rest =>
      obind (setdefault dic (KStr key)) (fun node =>
      obind (_nested_set node rest value) (fun node =>
      Returns (with_node dic (KStr key) node)))
  end.

(** [_update_dict(variable)], the inner function of [setup_vars], on the
    [return_value] it closes over. *)
Definition _update_dict (return_value : pyval) (variable : pyval) : outcome pyval :=
  match variable with
  | PStr s =>
      match split "=" s with
      | [ variable_key; variable_value ] =>
          let keys := split "." variable_key in
          _nested_set return_value keys (PStr variable_value)
      | [] | [ _ ] =>
          Raises "ValueError" "not enough values to unpack (expected 2, got 1)"
      | _ :: _ :: _ :: _ =>
          Raises "ValueError" "too many values to unpack (expected 2)"
      end
  | _ =>
      Raises "AttributeError"
        ("'" ++ type_name variable ++ "' object has no attribute 'split'")
  end.

(** The loop of [setup_vars] over the [--var] options, with [limit]
    nested calls allowed to each merge. *)
Fixpoint apply_vars (limit : nat) (merge_vars : bool) (var : list pyval)
    (return_value : pyval) : outcome pyval :=
  match var with
  | [] => Returns return_value
  | variable :: rest =>
      obind (if ConsoleWriter.is_dict variable && merge_vars
             then _deep_merge limit variable return_value
             else _update_dict return_value variable)
            (fun return_value => apply_vars limit merge_vars rest return_value)
  end.

(** *** [simplify_change_set_description] *)

Definition desired_response_items : list string :=
  [ "ChangeSetName";
    "CreationTime";
    "ExecutionStatus";
    "StackName";
    "Status";
    "StatusReason" ].

Definition desired_resource_changes : list string :=
  [ "Action";
    "LogicalResourceId";
    "PhysicalResourceId";
    "Replacement";
    "ResourceType";
    "Scope" ].

(** [k in names] for a key and a list of texts *)
Definition key_in (names : list string) (k : pykey) : bool :=
  match k with
  | KStr s => existsb (String.eqb s) names
  | KInt _ | KNone => false
  end.

(** [{k: v for k, v in items if k in names}], from the mapping built so
    far. *)
Fixpoint select (names : list string) (built : pydict)
    (items : list (pykey * pyval)) : pydict :=
  match items with
  | [] => built
  | (k, v) :: rest =>
      select names (if key_in names k then dict_set built k v else built) rest
  end.

(** [value.items()] *)
Definition items_of (value : pyval) : outcome pydict :=
  match value with
  | PDict d => Returns d
  | _ =>
      Raises "AttributeError"
        ("'" ++ type_name value ++ "' object has no attribute 'items'")
  end.

(** [value[key]] for a text key.  The messages are worded as CPython 3.8
    to 3.10 word them. *)
Definition getitem (value : pyval) (key : string) : outcome pyval :=
  match value with
  | PDict d =>
      match dict_get d (KStr key) with
      | Some found => Returns found
      | None => Raises "KeyError" ("'" ++ key ++ "'")
      end
  | PList _ =>
      Raises "TypeError" "list indices must be integers or slices, not str"
  | PStr _ =>
      Raises "TypeError" "string indices must be integers"
  | _ =>
      Raises "TypeError" ("'" ++ type_name value ++ "' object is not subscriptable")
  end.

(** A key as a value. *)
Definition key_value (k : pykey) : pyval :=
  match k with
  | KStr s => PStr s
  | KInt n => PInt n
  | KNone => PNone
  end.

(** The elements a [for] clause goes through: those of a list, the keys of
    a mapping, the characters of a text. *)
Definition elements_of (value : pyval) : outcome (list pyval) :=
  match value with
  | PList l => Returns l
  | PDict d => Returns (map key_value (dict_keys d))
  | PStr s =>
      Returns (map (fun c => PStr (String c EmptyString)) (list_ascii_of_string s))
  | _ =>
      Raises "TypeError" ("'" ++ type_name value ++ "' object is not iterable")
  end.

(** The list comprehension over [response["Changes"]]. *)
Fixpoint simplify_changes (changes : list pyval) : outcome (list pyval) :=
  match changes with
  | [] => Returns []
  | change :: rest =>
      obind (getitem change "ResourceChange") (fun resource_change =>
      obind (items_of resource_change) (fun items =>
      obind (simplify_changes rest) (fun tail =>
      Returns (PDict [ (KStr "ResourceChange",
                        PDict (select desired_resource_changes [] items)) ]
               :: tail))))
  end.

Definition simplify_change_set_description (response : pyval) : outcome pyval :=
  obind (items_of response) (fun items =>
  let formatted_response := select desired_response_items [] items in
  obind (getitem response "Changes") (fun changes =>
  obind (elements_of changes) (fun changes =>
  obind (simplify_changes changes) (fun simplified =>
  Returns (PDict (dict_set formatted_response (KStr "Changes")
                    (PList simplified))))))).

End Helpers.

(** ** Further notions used in the statements *)

Module Props.

(** A writer state that comes from another by appending to the line
    buffer and to the output stream. *)
Definition extends `{DiffWriter.Collaborators} {DiffType : Type}
    (before after : DiffWriter.DiffWriter DiffType) : Prop :=
  DiffWriter.stack_diff after = DiffWriter.stack_diff before
  /\ DiffWriter.output_format after = DiffWriter.output_format before
  /\ (exists added,
        DiffWriter.collected_lines after
        = (DiffWriter.collected_lines before ++ added)%list)
  /\ (exists written,
        DiffWriter.output_stream after
        = (DiffWriter.output_stream before ++ written)%list).

(** A step of a writer that only appends, whatever its outcome. *)
Definition appends `{DiffWriter.Collaborators} {DiffType A : Type}
    (step : M (DiffWriter.DiffWriter DiffType) A) : Prop :=
  forall self, extends self (snd (step self)).




(** A value that holds no string, at any depth (keys apart). *)
Fixpoint string_free (v : pyval) : bool :=
  match v with
  | PStr _ => false
  | PList items => forallb string_free items
  | PDict items => forallb (fun '(_, value) => string_free value) items
  | PNone | PBool _ | PInt _ | PFloat _ => true
  end.

(** The value found by following a path of keys through nested mappings. *)
Fixpoint nested_get (v : pyval) (keys : list string) : option pyval :=
  match keys with
  | [] => Some v
  | key :: rest =>
      match v with
      | PDict d =>
          match Helpers.dict_get d (KStr key) with
          | Some node => nested_get node rest
          | None => None
          end
      | _ => None
      end
  end.

(** The number of nested calls a merge makes on a source: one for the
    source and, when it is a mapping, those of its deepest value that is a
    mapping. *)
Fixpoint merge_depth (v : pyval) : nat :=
  match v with
  | PDict items =>
      S (list_max (map (fun '(_, value) =>
                          if ConsoleWriter.is_dict value then merge_depth value else 0)
                       items))
  | PNone | PBool _ | PInt _ | PFloat _ | PStr _ | PList _ => 1
  end.

(** How often a character occurs in a text. *)
Fixpoint count_char (c : ascii) (s : string) : nat :=
  match s with
  | EmptyString => 0
  | String a rest => (if Ascii.eqb a c then 1 else 0) + count_char c rest
  end.

End Props.

(** ** Further stand-ins *)

Module MoreSamples.

(** A strategy whose dump always raises. *)
Definition failing_dump : @DiffWriter.Strategy Samples.collaborators (list string) :=
  @DiffWriter.Build_Strategy Samples.collaborators (list string)
    (fun diff => Nat.ltb 0 (List.length (DiffWriter.config_diff diff)))
    (fun diff => Nat.ltb 0 (List.length (DiffWriter.template_diff diff)))
    (fun _ _ => Err (Raise TypeError "the diff cannot be dumped")).

End MoreSamples.

(** * Properties *)

(** ** Basic facts about the runtime fragments *)

Section PyvalInduction.

Variable P : pyval -> Prop.
Hypothesis H_none : P PNone.
Hypothesis H_bool : forall b, P (PBool b).
Hypothesis H_int : forall n, P (PInt n).
Hypothesis H_float : forall bits, P (PFloat bits).
Hypothesis H_str : forall s, P (PStr s).
Hypothesis H_list : forall items, Forall P items -> P (PList items).
Hypothesis H_dict :
  forall items, Forall (fun kv => P (snd kv)) items -> P (PDict items).

(** Induction on a value, with the induction hypothesis on every element
    of a sequence and every value of a mapping. *)
Lemma pyval_ind : forall v, P v.
Proof.
  fix IH 1.
  intros [ | b | n | bits | s | items | items ].
  - exact H_none.
  - apply H_bool.
  - apply H_int.
  - apply H_float.
  - apply H_str.
  - apply H_list.
    induction items as [ | x rest IHrest ]; constructor; [ apply IH | exact IHrest ].
  - apply H_dict.
    induction items as [ | [k x] rest IHrest ]; constructor;
      [ apply IH | exact IHrest ].
Qed.

End PyvalInduction.

Lemma str_mul_char_length (c : ascii) (n : nat) :
  String.length (str_mul (String c EmptyString) n) = n.
Proof.
  induction n as [ | n IHn ]; simpl; [ reflexivity | now rewrite IHn ].
Qed.

Lemma append_length (s t : string) :
  String.length (s ++ t) = String.length s + String.length t.
Proof.
  induction s as [ | c s IHs ]; simpl; [ reflexivity | now rewrite IHs ].
Qed.

Lemma append_empty_r (s : string) : s ++ EmptyString = s.
Proof.
  induction s as [ | c s IHs ]; simpl; [ reflexivity | now rewrite IHs ].
Qed.

Lemma append_assoc (s t u : string) : (s ++ t) ++ u = s ++ (t ++ u).
Proof.
  induction s as [ | c s IHs ]; simpl; [ reflexivity | now rewrite IHs ].
Qed.

Lemma pykey_eqb_eq (a b : pykey) : pykey_eqb a b = true <-> a = b.
Proof.
  destruct a as [ s | n | ], b as [ t | m | ]; simpl;
    try (split; [ discriminate | intro E; discriminate E ]).
  - rewrite String.eqb_eq. split; [ now intros -> | now intros [= ->] ].
  - rewrite Z.eqb_eq. split; [ now intros -> | now intros [= ->] ].
  - split; reflexivity.
Qed.

Lemma pykey_eqb_refl (a : pykey) : pykey_eqb a a = true.
Proof. now apply pykey_eqb_eq. Qed.

Lemma pykey_eqb_neq (a b : pykey) : pykey_eqb a b = false <-> a <> b.
Proof.
  split.
  - intros E Heq. apply pykey_eqb_eq in Heq. congruence.
  - intros Hne. destruct (pykey_eqb a b) eqn:E; [ | reflexivity ].
    apply pykey_eqb_eq in E. contradiction.
Qed.

(** ** The output formatter: construction (C10) *)

Section Construction.

Import ConsoleWriter.
Context `{PyYAML} `{Json} `{Tabulate} `{Builtins} `{Colourer}.

(** Looking a converter name up in the namespace of either class compares
    the format with the three names that follow [_convert_to_]. *)
Lemma lookup_converter (cls : class) (output_format : string) :
  lookup ("_convert_to_" ++ output_format) (namespace cls) =
  if String.eqb "json" output_format then Some Attr_convert_to_json
  else if String.eqb "yaml" output_format then Some Attr_convert_to_yaml
  else if String.eqb "text" output_format then Some Attr_convert_to_text
  else None.
Proof.
  destruct cls; cbn;
    destruct (String.eqb "json" output_format);
    destruct (String.eqb "yaml" output_format);
    destruct (String.eqb "text" output_format); reflexivity.
Qed.

Lemma lookup_converter_unsupported (cls : class) (output_format : string) :
  ~ In output_format Spec.supported_formats ->
  lookup ("_convert_to_" ++ output_format) (namespace cls) = None.
Proof.
  intros Hnot. rewrite lookup_converter.
  destruct (String.eqb_spec "json" output_format) as [ E | _ ];
    [ exfalso; apply Hnot; subst; simpl; tauto | ].
  destruct (String.eqb_spec "yaml" output_format) as [ E | _ ];
    [ exfalso; apply Hnot; subst; simpl; tauto | ].
  destruct (String.eqb_spec "text" output_format) as [ E | _ ];
    [ exfalso; apply Hnot; subst; simpl; tauto | ].
  reflexivity.
Qed.

Lemma lookup_converter_supported (cls : class) (output_format : string) :
  In output_format Spec.supported_formats ->
  exists a, lookup ("_convert_to_" ++ output_format) (namespace cls) = Some a.
Proof.
  intros Hin. rewrite lookup_converter.
  destruct Hin as [ <- | [ <- | [ <- | [] ] ] ]; cbn; eauto.
Qed.

(** C10.  For an output format other than text, json and yaml,
    constructing a writer of either class raises AttributeError, and the
    module-level write raises it with the console left as it was: nothing
    is prepared, converted or echoed.  For the three supported formats
    construction succeeds. *)
Theorem unsupported_format_fails_at_construction (output_format : string) :
  (~ In output_format Spec.supported_formats ->
   (forall cls,
      ConsoleWriter__init__ cls output_format =
      Err (Raise AttributeError
             ("'" ++ class_name cls ++ "' object has no attribute '_convert_to_"
              ++ output_format ++ "'")))
   /\ (forall var no_colour out,
         write var output_format no_colour out
         = (Err (Raise AttributeError
                   ("'" ++ class_name (if no_colour then ClsConsoleWriter
                                       else ClsColouringConsoleWriter)
                    ++ "' object has no attribute '_convert_to_"
                    ++ output_format ++ "'")), out)))
  /\ (In output_format Spec.supported_formats ->
      (exists w, ConsoleWriter__init__ ClsConsoleWriter output_format = Ok w)
      /\ (exists w, ColouringConsoleWriter__init__ output_format = Ok w)).
Proof.
  split.
  - intros Hnot.
    assert (Hinit : forall cls,
      ConsoleWriter__init__ cls output_format =
      Err (Raise AttributeError
             ("'" ++ class_name cls ++ "' object has no attribute '_convert_to_"
              ++ output_format ++ "'"))).
    { intros cls. unfold ConsoleWriter__init__, getattr.
      rewrite (lookup_converter_unsupported cls _ Hnot).
      destruct cls; reflexivity. }
    split; [ exact Hinit | ].
    intros var no_colour out. unfold write, mbind, lift.
    destruct no_colour.
    + rewrite Hinit. reflexivity.
    + unfold ColouringConsoleWriter__init__. rewrite Hinit. reflexivity.
  - intros Hin. split.
    + unfold ConsoleWriter__init__, getattr.
      destruct (lookup_converter_supported ClsConsoleWriter _ Hin) as [a ->].
      cbn. eauto.
    + unfold ColouringConsoleWriter__init__, ConsoleWriter__init__, getattr.
      destruct (lookup_converter_supported ClsColouringConsoleWriter _ Hin) as [a ->].
      cbn. eauto.
Qed.

End Construction.

(** The format xml is refused; the format json is accepted. *)
Lemma unsupported_format_witness :
  (~ In "xml" Spec.supported_formats
   /\ ConsoleWriter.write (H := Samples.yaml) (H0 := Samples.json)
        (H1 := Samples.tabulate) (H2 := Samples.builtins)
        (H3 := Samples.colourer) (PList [PStr "5"]) "xml" true []
      = (Err (Raise AttributeError
                "'ConsoleWriter' object has no attribute '_convert_to_xml'"), []))
  /\ (In "json" Spec.supported_formats
      /\ exists w,
           ConsoleWriter.ConsoleWriter__init__ (H := Samples.yaml)
             (H0 := Samples.json) (H1 := Samples.tabulate)
             (H2 := Samples.builtins) ConsoleWriter.ClsConsoleWriter "json" = Ok w).
Proof.
  assert (Hxml : ~ In "xml" Spec.supported_formats).
  { simpl. intros [ E | [ E | [ E | [] ] ] ]; discriminate E. }
  assert (Hjson : In "json" Spec.supported_formats) by (simpl; tauto).
  pose proof (@unsupported_format_fails_at_construction
                Samples.yaml Samples.json Samples.tabulate Samples.builtins
                Samples.colourer "xml") as [Hbad _].
  pose proof (@unsupported_format_fails_at_construction
                Samples.yaml Samples.json Samples.tabulate Samples.builtins
                Samples.colourer "json") as [_ Hgood].
  split.
  - split; [ exact Hxml | ].
    destruct (Hbad Hxml) as [_ Hwrite].
    exact (Hwrite (PList [PStr "5"]) true []).
  - split; [ exact Hjson | ]. exact (proj1 (Hgood Hjson)).
Defined.

(** ** The tag parser (C4, C8) *)

Section TagParser.

Import CfnYamlLoader.

Lemma mem_In (x : string) (l : list string) : mem x l = true <-> In x l.
Proof.
  unfold mem. rewrite existsb_exists. split.
  - intros [y [Hy E]]. apply String.eqb_eq in E. now subst.
  - intros Hx. exists x. split; [ exact Hx | apply String.eqb_refl ].
Qed.

Lemma mem_not_In (x : string) (l : list string) : mem x l = false <-> ~ In x l.
Proof.
  rewrite <- mem_In. destruct (mem x l); split; congruence.
Qed.

Lemma insert_sorted_perm (x : string) (l : list string) :
  Permutation (insert_sorted x l) (x :: l).
Proof.
  induction l as [ | y l IHl ]; simpl.
  - apply Permutation_refl.
  - destruct (String.leb x y).
    + apply Permutation_refl.
    + eapply perm_trans; [ apply perm_skip, IHl | apply perm_swap ].
Qed.

Lemma sorted_perm (l : list string) : Permutation (sorted l) l.
Proof.
  induction l as [ | x l IHl ]; simpl.
  - apply perm_nil.
  - eapply perm_trans; [ apply insert_sorted_perm | apply perm_skip, IHl ].
Qed.

Lemma insert_sorted_hd (x a : string) (l : list string) :
  Spec.str_le a x -> HdRel Spec.str_le a l -> HdRel Spec.str_le a (insert_sorted x l).
Proof.
  intros Hax Hal. destruct l as [ | y l ]; simpl.
  - now constructor.
  - destruct (String.leb x y); constructor; [ exact Hax | now inversion Hal ].
Qed.

Lemma insert_sorted_sorted (x : string) (l : list string) :
  Sorted Spec.str_le l -> Sorted Spec.str_le (insert_sorted x l).
Proof.
  induction 1 as [ | y l Hs IHs Hhd ]; simpl.
  - repeat constructor.
  - destruct (String.leb x y) eqn:E.
    + constructor; [ now constructor | now constructor ].
    + constructor; [ exact IHs | ].
      apply insert_sorted_hd; [ | exact Hhd ].
      destruct (String.leb_total x y) as [ Hxy | Hyx ]; [ congruence | exact Hyx ].
Qed.

(** [sorted] returns its argument in ascending order. *)
Lemma sorted_sorted (l : list string) : Sorted Spec.str_le (sorted l).
Proof.
  induction l as [ | x l IHl ]; simpl.
  - constructor.
  - now apply insert_sorted_sorted.
Qed.

(** The supported tags as the message lists them. *)
Lemma supported_tags_text :
  supported_tags =
  "And, Base64, Cidr, Condition, Equals, FindInMap, GetAZs, GetAtt, If, ImportValue, Join, Not, Or, Ref, Select, Split, Sub, Transform".
Proof. reflexivity. Qed.

(** C8.  A tag name in neither list makes the tag constructor raise, before
    it yields anything, a ValueError whose message ends with the names of
    both lists joined in ascending order; that enumeration is sorted and
    holds every supported name exactly once.  A tag name of either list
    passes this test: the constructor yields. *)
Theorem unsupported_tag_lists_supported_tags
    (loader : Loader) (tag_suffix : string) (n : node) :
  (~ In tag_suffix CFN_TAGS -> ~ In tag_suffix CFN_FNS ->
   _tag_constructor loader tag_suffix n =
   Raised (Raise ValueError
             ("Bad tag: !" ++ tag_suffix ++ ". Supported tags are: "
              ++ join ", " (sorted (CFN_TAGS ++ CFN_FNS)%list))))
  /\ Sorted Spec.str_le (sorted (CFN_TAGS ++ CFN_FNS)%list)
  /\ Permutation (sorted (CFN_TAGS ++ CFN_FNS)%list) (CFN_TAGS ++ CFN_FNS)%list
  /\ (In tag_suffix (CFN_TAGS ++ CFN_FNS)%list ->
      exists resumed, _tag_constructor loader tag_suffix n = Yielded resumed).
Proof.
  repeat split.
  - intros Htags Hfns. unfold _tag_constructor.
    apply mem_not_In in Htags. apply mem_not_In in Hfns.
    rewrite Htags, Hfns. reflexivity.
  - apply sorted_sorted.
  - apply sorted_perm.
  - intros Hin. unfold _tag_constructor.
    apply in_app_or in Hin. destruct Hin as [ Htag | Hfn ].
    + apply mem_In in Htag. rewrite Htag, andb_false_r. eauto.
    + apply mem_In in Hfn. rewrite Hfn. simpl. eauto.
Qed.

(** The tag Foo is refused with the full enumeration; the tag Ref is
    accepted. *)
Lemma unsupported_tag_witness :
  (~ In "Foo" CFN_TAGS /\ ~ In "Foo" CFN_FNS
   /\ _tag_constructor Samples.loader "Foo" (ScalarNode "!Foo" "x") =
      Raised (Raise ValueError
        "Bad tag: !Foo. Supported tags are: And, Base64, Cidr, Condition, Equals, FindInMap, GetAZs, GetAtt, If, ImportValue, Join, Not, Or, Ref, Select, Split, Sub, Transform"))
  /\ (In "Ref" (CFN_TAGS ++ CFN_FNS)%list
      /\ exists resumed,
           _tag_constructor Samples.loader "Ref" (ScalarNode "!Ref" "x")
           = Yielded resumed).
Proof.
  assert (Htags : ~ In "Foo" CFN_TAGS).
  { intros Hin. apply mem_In in Hin. discriminate Hin. }
  assert (Hfns : ~ In "Foo" CFN_FNS).
  { intros Hin. apply mem_In in Hin. discriminate Hin. }
  assert (Href : In "Ref" (CFN_TAGS ++ CFN_FNS)%list) by (simpl; tauto).
  split.
  - split; [ exact Htags | split; [ exact Hfns | ] ].
    exact (proj1 (unsupported_tag_lists_supported_tags
                    Samples.loader "Foo" (ScalarNode "!Foo" "x")) Htags Hfns).
  - split; [ exact Href | ].
    exact (proj2 (proj2 (proj2 (unsupported_tag_lists_supported_tags
                    Samples.loader "Ref" (ScalarNode "!Ref" "x")))) Href).
Defined.

(** *** GetAtt *)

Lemma split_once_from_separator (sep : ascii) (before after cur : string) :
  ~ In sep (list_ascii_of_string before) ->
  split_once_from sep cur (before ++ String sep after) = [cur ++ before; after].
Proof.
  revert cur. induction before as [ | c before IH ]; intros cur Hnot; simpl.
  - rewrite Ascii.eqb_refl. now rewrite append_empty_r.
  - simpl in Hnot.
    destruct (Ascii.eqb_spec c sep) as [ -> | Hne ]; [ exfalso; apply Hnot; now left | ].
    rewrite IH by (intros Hin; apply Hnot; now right).
    now rewrite append_assoc.
Qed.

Lemma split_once_from_no_separator (sep : ascii) (s cur : string) :
  ~ In sep (list_ascii_of_string s) ->
  split_once_from sep cur s = [cur ++ s].
Proof.
  revert cur. induction s as [ | c s IH ]; intros cur Hnot; simpl.
  - now rewrite append_empty_r.
  - simpl in Hnot.
    destruct (Ascii.eqb_spec c sep) as [ -> | Hne ]; [ exfalso; apply Hnot; now left | ].
    rewrite IH by (intros Hin; apply Hnot; now right).
    now rewrite append_assoc.
Qed.

(** A text with a separator is split at the first one into two parts. *)
Lemma split_once_separator (before after : string) :
  ~ In "."%char (list_ascii_of_string before) ->
  split_once "." (before ++ "." ++ after) = [before; after].
Proof.
  intros Hnot. unfold split_once.
  change (before ++ "." ++ after) with (before ++ String "." after).
  now rewrite split_once_from_separator.
Qed.

(** GetAtt on a text value, through the tag constructor: the two parts. *)
Lemma getatt_text_value (loader : Loader) (tag resource attribute : string) :
  ~ In "."%char (list_ascii_of_string resource) ->
  _tag_constructor loader "GetAtt" (ScalarNode tag (resource ++ "." ++ attribute))
  = Yielded (Ok [(KStr "Fn::GetAtt", PList [PStr resource; PStr attribute])]).
Proof.
  intros Hnot. unfold _tag_constructor.
  change ("Fn::" ++ "GetAtt") with "Fn::GetAtt".
  cbn -[split_once append].
  now rewrite split_once_separator.
Qed.

Lemma check_items_texts (seq : list pyval) :
  Forall (fun item => exists s, item = PStr s) seq -> check_items seq = Ok tt.
Proof.
  induction 1 as [ | item seq [s ->] _ IH ]; simpl; [ reflexivity | exact IH ].
Qed.

Lemma check_items_other (seq : list pyval) :
  Exists (fun item => forall s, item <> PStr s) seq ->
  check_items seq =
  Err (Raise ValueError "Fn::GetAtt does not support complex datastructures").
Proof.
  induction seq as [ | item seq IH ]; intros Hex.
  - inversion Hex.
  - simpl. destruct item as [ | b | z | bits | s | items | items ];
      try reflexivity.
    apply IH. inversion Hex as [ ? ? Hhd | ? ? Htl ]; subst;
      [ exfalso; now apply (Hhd s) | exact Htl ].
Qed.

(** X12.  [_getatt_constructor] called with a loader: a sequence of texts is
    returned as it is, a sequence with another element is refused, and a
    value that is neither text nor list is refused. *)
Lemma getatt_constructor_with_loader (l : Loader) (tag : string) (items : list node)
    (seq : list pyval) :
  construct_sequence l (SequenceNode tag items) = Ok seq ->
  (Forall (fun item => exists s, item = PStr s) seq ->
   _getatt_constructor (ObjLoader l) (SequenceNode tag items) = Ok (PList seq))
  /\ (Exists (fun item => forall s, item <> PStr s) seq ->
      _getatt_constructor (ObjLoader l) (SequenceNode tag items) =
      Err (Raise ValueError "Fn::GetAtt does not support complex datastructures"))
  /\ _getatt_constructor (ObjLoader l) (BareNode tag) =
     Err (Raise ValueError "Fn::GetAtt only supports string or list values").
Proof.
  intros Hseq. repeat split.
  - intros Hall. simpl. rewrite Hseq. simpl.
    now rewrite (check_items_texts _ Hall).
  - intros Hex. simpl. rewrite Hseq. simpl.
    now rewrite (check_items_other _ Hex).
Qed.

(** C4.  Through the tag constructor, GetAtt on a sequence value, whatever
    its elements, ends in an AttributeError: the constructor is bound to a
    one-element tuple where [_getatt_constructor] expects the loader, and
    the tuple has no [construct_sequence]. *)
Theorem getatt_sequence_value_raises_attribute_error
    (loader : Loader) (tag : string) (items : list node) :
  _tag_constructor loader "GetAtt" (SequenceNode tag items)
  = Yielded (Err (Raise AttributeError
                    "'tuple' object has no attribute 'construct_sequence'")).
Proof. reflexivity. Qed.

End TagParser.

(** ** The output formatter: text mode (C9) *)

Section TextMode.

Import ConsoleWriter.
Context `{PyYAML} `{Json} `{Tabulate} `{Builtins}.

(** C9.  Text mode tries its shapes in order.  A sequence of primitives is
    rendered as the texts of its elements joined by line feeds, one element
    per line; otherwise a sequence of mappings is rendered by tabulate with
    the keys as headers; a mapping of primitive values is rendered by
    tabulate as pairs under the headers key and value; every other value
    is rendered as YAML mode renders it. *)
Theorem text_mode_heuristics_in_priority_order :
  (forall items,
     forallb is_primitive items = true ->
     _convert_to_text (PList items) = join LF (map py_str items))
  /\ (forall items,
        forallb is_primitive items = false ->
        forallb is_dict items = true ->
        _convert_to_text (PList items) = tabulate_keys items)
  /\ (forall items,
        forallb is_primitive (dict_values items) = true ->
        _convert_to_text (PDict items) = tabulate_pairs items)
  /\ (forall value,
        (forall items, value = PList items ->
           forallb is_primitive items = false /\ forallb is_dict items = false) ->
        (forall items, value = PDict items ->
           forallb is_primitive (dict_values items) = false) ->
        _convert_to_text value = _convert_to_yaml value).
Proof.
  repeat split.
  - intros items Hprim. unfold _convert_to_text. simpl. now rewrite Hprim.
  - intros items Hprim Hdict. unfold _convert_to_text. simpl.
    now rewrite Hprim, Hdict.
  - intros items Hprim. unfold _convert_to_text. simpl. now rewrite Hprim.
  - intros value Hlist Hdict. unfold _convert_to_text.
    destruct value as [ | b | n | bits | s | items | items ]; try reflexivity.
    + destruct (Hlist items eq_refl) as [Hp Hd]. simpl. now rewrite Hp, Hd.
    + simpl. now rewrite (Hdict items eq_refl).
Qed.

End TextMode.

(** One input for each of the four shapes. *)
Lemma text_mode_witness :
  let convert :=
    ConsoleWriter._convert_to_text (H := Samples.yaml) (H1 := Samples.tabulate)
      (H2 := Samples.builtins) in
  convert (PList [PStr "a"; PInt 7; PNone; PBool true])
  = "a" ++ LF ++ "7" ++ LF ++ "None" ++ LF ++ "True"
  /\ convert (PList [PDict [(KStr "a", PInt 1)]; PDict [(KStr "a", PInt 2)]])
     = "(table with the keys as headers)"
  /\ convert (PDict [(KStr "a", PInt 1); (KStr "b", PStr "x")])
     = "(table with the headers key and value)"
  /\ convert (PDict [(KStr "a", PList [PInt 1])]) = "--- (yaml document)"
  /\ convert (PList [PInt 1; PDict []]) = "--- (yaml document)"
  /\ convert (PStr "a") = "--- (yaml document)".
Proof.
  pose proof (@text_mode_heuristics_in_priority_order
                Samples.yaml Samples.tabulate Samples.builtins)
    as [Hprims [Htable [Hpairs Hyaml]]].
  cbv zeta.
  refine (conj _ (conj _ (conj _ (conj _ (conj _ _))))).
  - now rewrite Hprims.
  - now rewrite Htable.
  - now rewrite Hpairs.
  - rewrite Hyaml; [ reflexivity | discriminate | ].
    intros items [= <-]. reflexivity.
  - rewrite Hyaml; [ reflexivity | | discriminate ].
    intros items [= <-]. split; reflexivity.
  - rewrite Hyaml; [ reflexivity | discriminate | discriminate ].
Defined.

(** ** The diff renderer: the two early returns (C1, C3) *)

Section EarlyReturns.

Import DiffWriter.
Context `{Collaborators} {DiffType : Type} `{!Strategy DiffType}.

(** C1.  With neither a config nor a template difference, write leaves
    two lines in the line buffer, the star bar and the line that names
    the stack, and returns there: the output stream is as it was before
    the call, and no line has been written to it. *)
Theorem no_difference_report_stays_in_buffer
    (sd : StackDiff DiffType) (stream : list string) (fmt : string) :
  has_config_difference sd = false ->
  has_template_difference sd = false ->
  write (__init__ sd stream fmt) =
  (Ok tt,
   {| stack_diff := sd;
      output_format := fmt;
      collected_lines :=
        [ STAR_BAR ++ LF;
          ("No difference to deployed stack " ++ stack_name sd) ++ LF ];
      output_stream := stream |}).
Proof.
  intros Hconfig Htemplate.
  unfold write, mbind, _output, modify, get, has_difference, __init__. simpl.
  rewrite Hconfig, Htemplate. reflexivity.
Qed.

Lemma append_char_inj (s t : string) (c : ascii) :
  s ++ String c EmptyString = t ++ String c EmptyString -> s = t.
Proof.
  revert t. induction s as [ | a s IH ]; intros [ | b t ] E; simpl in E.
  - reflexivity.
  - injection E as _ E. destruct t; discriminate E.
  - injection E as _ E. destruct s; discriminate E.
  - injection E as -> E. f_equal. now apply IH.
Qed.

(** C3, as amended.  For a stack that is not deployed and has a
    difference, write succeeds and leaves in the line buffer: the star bar,
    the line announcing a difference, the notice that the stack is not
    deployed, then under the label New Config the dump of the generated
    config, made by the JSON dumper when the output format is json and by
    the YAML dumper otherwise, then under the label New Template the text
    of the generated template as it was given.  No line of the buffer is a
    header of a difference section, unless a dump itself is that text. *)
Theorem new_stack_report_in_buffer
    (sd : StackDiff DiffType) (stream : list string) (fmt : string) :
  is_deployed sd = false ->
  has_config_difference sd || has_template_difference sd = true ->
  let config_dump :=
    (if String.eqb fmt "json" then cfn_flip_dump_json else cfn_flip_dump_yaml)
      (_asdict (generated_config sd)) in
  let template := template_text (generated_template sd) in
  let result := write (__init__ sd stream fmt) in
  fst result = Ok tt
  /\ collected_lines (snd result) =
     [ STAR_BAR ++ LF;
       ("--> Difference detected for stack " ++ stack_name sd ++ "!") ++ LF;
       "This stack is not deployed yet!" ++ LF;
       LINE_BAR ++ LF;
       "New Config:" ++ LF;
       EmptyString ++ LF;
       config_dump ++ LF;
       LINE_BAR ++ LF;
       "New Template:" ++ LF;
       EmptyString ++ LF;
       template ++ LF ]
  /\ (forall header,
        In header Spec.difference_headers ->
        In (header ++ LF) (collected_lines (snd result)) ->
        header = config_dump \/ header = template).
Proof.
  intros Hdeployed Hdiff config_dump template result.
  assert (Hresult : result =
    (Ok tt,
     {| stack_diff := sd;
        output_format := fmt;
        collected_lines :=
          [ STAR_BAR ++ LF;
            ("--> Difference detected for stack " ++ stack_name sd ++ "!") ++ LF;
            "This stack is not deployed yet!" ++ LF;
            LINE_BAR ++ LF;
            "New Config:" ++ LF;
            EmptyString ++ LF;
            config_dump ++ LF;
            LINE_BAR ++ LF;
            "New Template:" ++ LF;
            EmptyString ++ LF;
            template ++ LF ];
        output_stream := stream |})).
  { subst result config_dump template.
    unfold write, mbind, _output, modify, get, has_difference, __init__. simpl.
    rewrite Hdiff. simpl. rewrite Hdeployed. simpl.
    unfold _write_new_stack_details, mbind, _output, modify, get. simpl.
    unfold _dump_stack_config, _dump_dict. simpl. reflexivity. }
  rewrite Hresult. simpl fst. simpl snd. cbv beta iota delta [collected_lines].
  split; [ reflexivity | split; [ reflexivity | ] ].
  intros header Hheader Hin.
  destruct Hheader as [ <- | [ <- | [ <- | [ <- | [] ] ] ] ];
    repeat (destruct Hin as [ E | Hin ];
            [ first [ discriminate E
                    | left; symmetry; exact (append_char_inj _ _ _ E)
                    | right; symmetry; exact (append_char_inj _ _ _ E) ] | ]);
    destruct Hin.
Qed.

End EarlyReturns.

(** A deployed stack with two empty line diffs: the two lines stay in the
    buffer and the stream that was empty is still empty. *)
Lemma no_difference_witness :
  DiffWriter.has_config_difference (Strategy := DiffWriter.DiffLibWriter)
    Samples.no_difference = false
  /\ DiffWriter.has_template_difference (Strategy := DiffWriter.DiffLibWriter)
       Samples.no_difference = false
  /\ DiffWriter.output_stream
       (snd (DiffWriter.write (Strategy0 := DiffWriter.DiffLibWriter)
               (DiffWriter.__init__ Samples.no_difference [] "yaml"))) = []
  /\ DiffWriter.collected_lines
       (snd (DiffWriter.write (Strategy0 := DiffWriter.DiffLibWriter)
               (DiffWriter.__init__ Samples.no_difference [] "yaml")))
     = [ DiffWriter.STAR_BAR ++ LF;
         "No difference to deployed stack my-stack" ++ LF ].
Proof.
  assert (Hc : DiffWriter.has_config_difference
                 (Strategy := DiffWriter.DiffLibWriter) Samples.no_difference
               = false) by reflexivity.
  assert (Ht : DiffWriter.has_template_difference
                 (Strategy := DiffWriter.DiffLibWriter) Samples.no_difference
               = false) by reflexivity.
  refine (conj Hc (conj Ht _)).
  rewrite (@no_difference_report_stays_in_buffer Samples.collaborators
             (list string) DiffWriter.DiffLibWriter Samples.no_difference
             [] "yaml" Hc Ht).
  split; reflexivity.
Defined.

(** A new stack in JSON format: the buffer holds the JSON dump of the
    config and the template text. *)
Lemma new_stack_witness :
  DiffWriter.is_deployed Samples.new_stack = false
  /\ In ("(json dump of the config)" ++ LF)
        (DiffWriter.collected_lines
           (snd (DiffWriter.write (Strategy0 := DiffWriter.DiffLibWriter)
                   (DiffWriter.__init__ Samples.new_stack [] "json"))))
  /\ In ("Resources: {}" ++ LF)
        (DiffWriter.collected_lines
           (snd (DiffWriter.write (Strategy0 := DiffWriter.DiffLibWriter)
                   (DiffWriter.__init__ Samples.new_stack [] "json")))).
Proof.
  assert (Hd : DiffWriter.is_deployed Samples.new_stack = false) by reflexivity.
  refine (conj Hd _).
  destruct (@new_stack_report_in_buffer Samples.collaborators (list string)
              DiffWriter.DiffLibWriter Samples.new_stack [] "json" Hd eq_refl)
    as [_ [Hlines _]].
  rewrite Hlines. split; simpl; tauto.
Defined.

(** C3 as stated fails: for a new stack the config dump, in either format,
    is not on the output stream, which receives nothing; the template is
    in the buffer as the text it was given. *)
Lemma new_stack_report_not_delivered :
  let written fmt :=
    snd (DiffWriter.write (Strategy0 := DiffWriter.DiffLibWriter)
           (DiffWriter.__init__ Samples.new_stack [] fmt)) in
  DiffWriter.is_deployed Samples.new_stack = false
  /\ DiffWriter.has_difference (Strategy0 := DiffWriter.DiffLibWriter)
       (DiffWriter.__init__ Samples.new_stack [] "json") = true
  /\ ~ In ("(json dump of the config)" ++ LF)
          (DiffWriter.output_stream (written "json"))
  /\ ~ In ("(yaml dump of the config)" ++ LF)
          (DiffWriter.output_stream (written "yaml"))
  /\ DiffWriter.output_stream (written "json") = []
  /\ last (DiffWriter.collected_lines (written "json")) EmptyString
     = "Resources: {}" ++ LF
  /\ last (DiffWriter.collected_lines (written "yaml")) EmptyString
     = "Resources: {}" ++ LF.
Proof.
  cbv zeta.
  refine (conj eq_refl (conj eq_refl (conj _ (conj _ (conj eq_refl
            (conj eq_refl eq_refl)))))); intros Hin; exact Hin.
Qed.

(** ** The value normalizer (C5, C6) *)

Section Dictionaries.

Lemma nodup_keys_NoDup (keys : list pykey) :
  Spec.nodup_keys keys = true <-> NoDup keys.
Proof.
  induction keys as [ | k keys IH ]; simpl.
  - split; [ constructor | reflexivity ].
  - rewrite andb_true_iff, negb_true_iff, IH. split.
    + intros [Hnot Hnd]. constructor; [ | exact Hnd ].
      intros Hin. rewrite <- not_true_iff_false in Hnot. apply Hnot.
      apply existsb_exists. exists k. split; [ exact Hin | apply pykey_eqb_refl ].
    + intros Hnd. inversion Hnd as [ | ? ? Hnot Hnd' ]; subst.
      split; [ | exact Hnd' ].
      apply not_true_iff_false. intros Hex. apply existsb_exists in Hex.
      destruct Hex as [k' [Hin E]]. apply pykey_eqb_eq in E. now subst.
Qed.

(** Setting a key the mapping does not hold appends the item. *)
Lemma dict_set_fresh (d : pydict) (key : pykey) (value : pyval) :
  ~ In key (dict_keys d) -> dict_set d key value = (d ++ [(key, value)])%list.
Proof.
  induction d as [ | [k v] d IH ]; intros Hnot; simpl.
  - reflexivity.
  - simpl in Hnot. destruct (pykey_eqb k key) eqn:E.
    + apply pykey_eqb_eq in E. exfalso. apply Hnot. now left.
    + f_equal. apply IH. intros Hin. apply Hnot. now right.
Qed.

(** Setting a key adds no key but that one and keeps the keys apart. *)
Lemma dict_set_keys (d : pydict) (key : pykey) (value : pyval) :
  dict_keys (dict_set d key value) =
  if existsb (pykey_eqb key) (dict_keys d) then dict_keys d
  else (dict_keys d ++ [key])%list.
Proof.
  induction d as [ | [k v] d IH ]; simpl.
  - reflexivity.
  - destruct (pykey_eqb k key) eqn:E.
    + apply pykey_eqb_eq in E. subst. now rewrite pykey_eqb_refl.
    + assert (E' : pykey_eqb key k = false).
      { apply pykey_eqb_neq. apply pykey_eqb_neq in E. congruence. }
      rewrite E'. simpl. rewrite IH.
      now destruct (existsb (pykey_eqb key) (dict_keys d)).
Qed.

Lemma existsb_pykey_In (key : pykey) (keys : list pykey) :
  existsb (pykey_eqb key) keys = true <-> In key keys.
Proof.
  rewrite existsb_exists. split.
  - intros [k [Hin E]]. apply pykey_eqb_eq in E. now subst.
  - intros Hin. exists key. split; [ exact Hin | apply pykey_eqb_refl ].
Qed.

Lemma dict_set_NoDup (d : pydict) (key : pykey) (value : pyval) :
  NoDup (dict_keys d) -> NoDup (dict_keys (dict_set d key value)).
Proof.
  intros Hnd. rewrite dict_set_keys.
  destruct (existsb (pykey_eqb key) (dict_keys d)) eqn:E; [ exact Hnd | ].
  apply NoDup_app; [ exact Hnd | repeat constructor; intros [] | ].
  intros k Hin [ <- | [] ].
  apply existsb_pykey_In in Hin. congruence.
Qed.

Lemma dict_set_values (P : pyval -> Prop) (d : pydict) (key : pykey) (value : pyval) :
  Forall P (dict_values d) -> P value -> Forall P (dict_values (dict_set d key value)).
Proof.
  intros Hd Hv. induction d as [ | [k v] d IH ]; simpl.
  - now constructor.
  - simpl in Hd. inversion Hd as [ | ? ? Hhd Htl ]; subst.
    destruct (pykey_eqb k key); simpl; constructor; auto.
Qed.

End Dictionaries.

Section Normalizer.

Import ConsoleWriter.
Context `{PyYAML}.

#[local] Abbreviation prepare := _prepare_value_for_serialization.

Lemma prepare_text (s : string) :
  prepare (PStr s) =
  match yaml_load s with
  | Ok decoded => Ok decoded
  | Err _ => Ok (PStr s)
  end.
Proof.
  simpl. unfold try_except_Exception.
  destruct (yaml_load s) as [ decoded | [ [ | | | | | | ] msg ] ]; reflexivity.
Qed.

Lemma list_comprehension_total (f : pyval -> result pyval) (items : list pyval) :
  Forall (fun item => exists r, f item = Ok r) items ->
  exists prepared, list_comprehension f items = Ok prepared.
Proof.
  induction 1 as [ | item items [r Hr] _ [tail Htail] ]; simpl.
  - eauto.
  - rewrite Hr. simpl. rewrite Htail. simpl. eauto.
Qed.

Lemma list_comprehension_inv (f : pyval -> result pyval)
    (items prepared : list pyval) :
  list_comprehension f items = Ok prepared ->
  Forall2 (fun item r => f item = Ok r) items prepared.
Proof.
  revert prepared. induction items as [ | item items IH ]; intros prepared E;
    simpl in E.
  - injection E as <-. constructor.
  - destruct (f item) as [ r | e ] eqn:Hr; simpl in E; [ | discriminate E ].
    destruct (list_comprehension f items) as [ tail | e ] eqn:Ht; simpl in E;
      [ | discriminate E ].
    injection E as <-. constructor; [ exact Hr | now apply IH ].
Qed.

Lemma list_comprehension_fixed (f : pyval -> result pyval) (items : list pyval) :
  Forall (fun item => f item = Ok item) items ->
  list_comprehension f items = Ok items.
Proof.
  induction 1 as [ | item items Hitem _ IH ]; simpl.
  - reflexivity.
  - rewrite Hitem. simpl. rewrite IH. reflexivity.
Qed.

Lemma dict_comprehension_total (f : pyval -> result pyval)
    (items : list (pykey * pyval)) :
  Forall (fun kv => exists r, f (snd kv) = Ok r) items ->
  forall built, exists prepared, dict_comprehension f built items = Ok prepared.
Proof.
  induction 1 as [ | [key val] items [r Hr] _ IH ]; intros built; simpl.
  - eauto.
  - simpl in Hr. rewrite Hr. simpl. apply IH.
Qed.


(** Whatever the items, the comprehension returns a mapping with distinct
    keys whose values are either values of the mapping built so far or
    results of [f]. *)
Lemma dict_comprehension_invariant (f : pyval -> result pyval) (P : pyval -> Prop)
    (items : list (pykey * pyval)) :
  Forall (fun kv => forall r, f (snd kv) = Ok r -> P r) items ->
  forall built prepared,
    NoDup (dict_keys built) ->
    Forall P (dict_values built) ->
    dict_comprehension f built items = Ok prepared ->
    NoDup (dict_keys prepared) /\ Forall P (dict_values prepared).
Proof.
  induction 1 as [ | [key val] items Hval _ IH ];
    intros built prepared Hnd Hvalues E; simpl in E.
  - injection E as <-. now split.
  - simpl in Hval.
    destruct (f val) as [ value | e ] eqn:Hf; simpl in E; [ | discriminate E ].
    apply IH in E; [ exact E | now apply dict_set_NoDup | ].
    apply dict_set_values; [ exact Hvalues | now apply Hval ].
Qed.

Lemma dict_comprehension_fixed (f : pyval -> result pyval)
    (items : list (pykey * pyval)) :
  NoDup (dict_keys items) ->
  Forall (fun value => f value = Ok value) (dict_values items) ->
  forall built,
    (forall key, In key (dict_keys items) -> ~ In key (dict_keys built)) ->
    dict_comprehension f built items = Ok (built ++ items)%list.
Proof.
  induction items as [ | [key val] items IH ]; intros Hnd Hfixed built Hfresh; simpl.
  - now rewrite app_nil_r.
  - simpl in Hnd, Hfixed.
    inversion Hnd as [ | ? ? Hnotin Hnd' ]; subst.
    inversion Hfixed as [ | ? ? Hval Hfixed' ]; subst.
    rewrite Hval. simpl.
    rewrite dict_set_fresh by (apply Hfresh; now left).
    rewrite IH; [ now rewrite <- app_assoc | exact Hnd' | exact Hfixed' | ].
    intros k Hk Hin. unfold dict_keys in Hin. rewrite map_app in Hin.
    apply in_app_or in Hin. destruct Hin as [ Hin | [ <- | [] ] ].
    + apply (Hfresh k); [ now right | exact Hin ].
    + now apply Hnotin.
Qed.

(** Normalization returns: no exception leaves it. *)
Lemma prepare_total (v : pyval) : exists r, prepare v = Ok r.
Proof.
  induction v as [ | b | n | bits | s | items IH | items IH ] using pyval_ind;
    try (simpl; eauto; fail).
  - rewrite prepare_text. destruct (yaml_load s); eauto.
  - destruct (list_comprehension_total prepare items IH) as [prepared E].
    simpl. rewrite E. simpl. eauto.
  - destruct (dict_comprehension_total prepare items IH []) as [prepared E].
    simpl. rewrite E. simpl. eauto.
Qed.




#[local] Abbreviation prepare_within := _prepare_value_for_serialization_within.

Lemma list_comprehension_ext (f g : pyval -> result pyval) (items : list pyval) :
  Forall (fun item => f item = g item) items ->
  list_comprehension f items = list_comprehension g items.
Proof.
  induction 1 as [ | item items Hitem _ IH ]; simpl.
  - reflexivity.
  - now rewrite Hitem, IH.
Qed.

Lemma dict_comprehension_ext (f g : pyval -> result pyval)
    (items : list (pykey * pyval)) :
  Forall (fun kv => f (snd kv) = g (snd kv)) items ->
  forall built, dict_comprehension f built items = dict_comprehension g built items.
Proof.
  induction 1 as [ | [key val] items Hval _ IH ]; intros built; simpl.
  - reflexivity.
  - simpl in Hval. rewrite Hval. destruct (g val); simpl; [ apply IH | reflexivity ].
Qed.

Lemma list_max_map_le (A : Type) (f : A -> nat) (items : list A) (n : nat) :
  list_max (map f items) <= n -> Forall (fun item => f item <= n) items.
Proof.
  induction items as [ | item items IH ]; simpl; intros Hmax.
  - constructor.
  - constructor; [ lia | apply IH; lia ].
Qed.


(** Within the recursion limit the method does what it does on a stack
    that never runs out. *)
Lemma prepare_within_agrees (v : pyval) :
  forall limit, Spec.call_depth v <= limit -> prepare_within limit v = prepare v.
Proof.
  induction v as [ | b | n | bits | s | items IH | items IH ] using pyval_ind;
    intros [ | limit ] Hdepth; simpl in Hdepth; try lia; try reflexivity.
  - simpl. apply le_S_n in Hdepth.
    apply list_max_map_le in Hdepth.
    rewrite (list_comprehension_ext (prepare_within limit) prepare); [ reflexivity | ].
    rewrite Forall_forall in IH, Hdepth |- *.
    intros item Hitem. apply IH; [ exact Hitem | now apply Hdepth ].
  - simpl. apply le_S_n in Hdepth.
    apply list_max_map_le in Hdepth.
    rewrite (dict_comprehension_ext (prepare_within limit) prepare); [ reflexivity | ].
    rewrite Forall_forall in IH, Hdepth |- *.
    intros [key val] Hitem. simpl.
    apply (IH (key, val) Hitem). exact (Hdepth (key, val) Hitem).
Qed.








(** A primitive is normalized to a value that normalization leaves as
    it is, provided that holds of what it decodes to when it is a string
    that decodes. *)
Lemma prepare_primitive_fixed (v : pyval) :
  is_primitive v = true ->
  (forall s decoded,
     v = PStr s -> yaml_load s = Ok decoded -> prepare decoded = Ok decoded) ->
  forall r, prepare v = Ok r -> prepare r = Ok r.
Proof.
  intros Hprim Hdecoded r E.
  destruct v as [ | b | n | bits | s | items | items ];
    try discriminate Hprim; try (now injection E as <-).
  rewrite prepare_text in E.
  destruct (yaml_load s) as [ decoded | e ] eqn:Hload; injection E as <-.
  - now apply (Hdecoded s).
  - rewrite prepare_text, Hload. reflexivity.
Qed.

(** C5, as amended.  On a mapping or sequence of primitives, normalizing
    the normalized value changes nothing, provided every string element
    that decodes decodes to a value that normalization leaves as it is
    (a number, a boolean, null, a string that does not decode or decodes
    to itself, or a container of such values). *)
Theorem normalize_idempotent_on_stable_decodings (v : pyval) :
  Spec.container_of_primitives v = true ->
  (forall s decoded,
     In (PStr s) (Spec.elements v) ->
     yaml_load s = Ok decoded ->
     prepare decoded = Ok decoded) ->
  exists r, prepare v = Ok r /\ prepare r = Ok r.
Proof.
  intros Hprims Hdecoded.
  destruct (prepare_total v) as [r E]. exists r. split; [ exact E | ].
  destruct v as [ | b | n | bits | s | items | items ]; try discriminate Hprims;
    simpl in Hprims, Hdecoded, E.
  - destruct (list_comprehension prepare items) as [ prepared | e ] eqn:Hitems;
      simpl in E; [ injection E as <- | discriminate E ].
    simpl. rewrite list_comprehension_fixed; [ reflexivity | ].
    apply list_comprehension_inv in Hitems.
    rewrite forallb_forall in Hprims.
    induction Hitems as [ | item r items prepared Hr _ IH ]; constructor.
    + apply (prepare_primitive_fixed item); [ apply Hprims; now left | | exact Hr ].
      intros s decoded ->. apply Hdecoded. now left.
    + apply IH.
      * intros x Hx. apply Hprims. now right.
      * intros s decoded Hin. apply Hdecoded. now right.
  - destruct (dict_comprehension prepare [] items) as [ prepared | e ] eqn:Hitems;
      simpl in E; [ injection E as <- | discriminate E ].
    apply (dict_comprehension_invariant prepare (fun r => prepare r = Ok r))
      in Hitems; [ | | constructor | constructor ].
    + destruct Hitems as [Hnd Hfixed]. simpl.
      rewrite dict_comprehension_fixed; [ reflexivity | exact Hnd | exact Hfixed | ].
      intros k _ [].
    + rewrite forallb_forall in Hprims. unfold dict_values in Hprims, Hdecoded.
      apply Forall_forall. intros [k val] Hin r Hr. simpl in Hr.
      apply (prepare_primitive_fixed val); [ | | exact Hr ].
      * apply Hprims. apply in_map_iff. now exists (k, val).
      * intros s decoded ->. apply Hdecoded. apply in_map_iff. now exists (k, PStr s).
Qed.

End Normalizer.



(** A sequence whose strings decode to a number and a boolean. *)
Lemma normalize_idempotent_witness :
  let v := PList [PStr "5"; PStr "true"; PInt 3; PStr "not: [closed"] in
  let r := PList [PInt 5; PBool true; PInt 3; PStr "not: [closed"] in
  Spec.container_of_primitives v = true
  /\ ConsoleWriter._prepare_value_for_serialization (H := Samples.yaml) v = Ok r
  /\ ConsoleWriter._prepare_value_for_serialization (H := Samples.yaml) r = Ok r.
Proof.
  cbv zeta.
  assert (Hprims : Spec.container_of_primitives
                     (PList [PStr "5"; PStr "true"; PInt 3; PStr "not: [closed"])
                   = true) by reflexivity.
  destruct (@normalize_idempotent_on_stable_decodings Samples.yaml
              (PList [PStr "5"; PStr "true"; PInt 3; PStr "not: [closed"]) Hprims)
    as [r [E Hfixed]].
  - intros s decoded Hin Hload. simpl in Hin.
    destruct Hin as [ [= <-] | [ [= <-] | [ Hin | [ [= <-] | [] ] ] ] ];
      try discriminate Hin; vm_compute in Hload;
      try discriminate Hload; injection Hload as <-; reflexivity.
  - vm_compute in E. injection E as <-.
    refine (conj Hprims (conj eq_refl Hfixed)).
Defined.

(** C5 as stated fails.  PyYAML decodes the text of a quoted five to the
    string five, and the string five to the number five; with any decoder
    that does so, normalizing the one-element sequence of the quoted five
    gives the sequence of the string five, and normalizing that gives the
    sequence of the number five. *)
Lemma normalize_not_idempotent :
  ~ exists Y : PyYAML,
      yaml_load "'5'" = Ok (PStr "5")
      /\ yaml_load "5" = Ok (PInt 5)
      /\ (forall v r r',
            Spec.container_of_primitives v = true ->
            ConsoleWriter._prepare_value_for_serialization v = Ok r ->
            ConsoleWriter._prepare_value_for_serialization r = Ok r' ->
            r' = r).
Proof.
  intros [Y [Hquoted [Hplain Hidem]]].
  specialize (Hidem (PList [PStr "'5'"]) (PList [PStr "5"]) (PList [PInt 5]) eq_refl).
  assert (E : PList [PInt 5] = PList [PStr "5"]); [ | discriminate E ].
  apply Hidem; simpl; unfold try_except_Exception.
  - now rewrite Hquoted.
  - now rewrite Hplain.
Qed.

(** ** The tree-diff strategy (C7) *)

Section TreeDiff.

Import DiffWriter.

#[local] Abbreviation strip := _remove_root_key_prefixes_recursively.

(** A new key begins with the prefix only when the key it comes from began
    with the prefix twice. *)
Lemma new_key_has_root_prefix (key : pykey) :
  Spec.has_root_prefix (new_key_of key) = true ->
  Spec.has_doubled_root_prefix key = true.
Proof.
  destruct key as [ s | n | ]; simpl; try discriminate.
  destruct (startswith "root" s) eqn:E; simpl; [ | congruence ].
  unfold startswith in *.
  repeat match type of E with
         | prefix (String _ _) ?t = true =>
             destruct t as [ | ? ? ]; simpl in E; [ discriminate E | ]
         | (if ?d then _ else _) = true =>
             destruct d as [ <- | ]; [ | discriminate E ]
         end.
  simpl. intros Hrest. exact Hrest.
Qed.

Lemma all_keys_dict_set (d : pydict) (key : pykey) (value : pyval) (k : pykey) :
  In k (Spec.all_keys (PDict (dict_set d key value))) ->
  In k (Spec.all_keys (PDict d)) \/ k = key \/ In k (Spec.all_keys value).
Proof.
  induction d as [ | [k0 v0] d IH ]; simpl.
  - rewrite app_nil_r. intros [ <- | Hin ]; auto.
  - destruct (pykey_eqb k0 key) eqn:E; simpl.
    + apply pykey_eqb_eq in E. subst k0.
      intros [ <- | Hin ]; [ auto | ].
      apply in_app_or in Hin. destruct Hin as [ Hin | Hin ]; [ auto | ].
      left. right. apply in_or_app. now right.
    + intros [ <- | Hin ]; [ auto | ].
      apply in_app_or in Hin. destruct Hin as [ Hin | Hin ].
      * left. right. apply in_or_app. now left.
      * destruct (IH Hin) as [ Hd | [ -> | Hv ] ]; auto.
        left. right. apply in_or_app. now right.
Qed.

Lemma all_keys_remove_loop (recurse : pyval -> pyval)
    (items : list (pykey * pyval)) :
  Forall (fun kv => forall k, In k (Spec.all_keys (recurse (snd kv))) ->
                    exists k0, In k0 (Spec.all_keys (snd kv)) /\ k = new_key_of k0)
         items ->
  forall result k,
    In k (Spec.all_keys (PDict (remove_loop recurse result items))) ->
    In k (Spec.all_keys (PDict result))
    \/ exists k0, In k0 (Spec.all_keys (PDict items)) /\ k = new_key_of k0.
Proof.
  induction 1 as [ | [key value] items Hvalue _ IH ]; intros result k Hin.
  - now left.
  - simpl in Hin, Hvalue. apply IH in Hin.
    destruct Hin as [ Hin | [k0 [Hk0 ->]] ].
    + apply all_keys_dict_set in Hin.
      destruct Hin as [ Hres | [ -> | Hval ] ].
      * now left.
      * right. exists key. split; [ simpl; now left | reflexivity ].
      * right. destruct (Hvalue k Hval) as [k0 [Hk0 ->]].
        exists k0. split; [ | reflexivity ].
        simpl. right. apply in_or_app. now left.
    + right. exists k0. split; [ | reflexivity ].
      simpl. right. apply in_or_app. now right.
Qed.

(** Every key of the stripped tree is the new key of a key of the tree. *)
Lemma all_keys_strip (v : pyval) (k : pykey) :
  In k (Spec.all_keys (strip v)) ->
  exists k0, In k0 (Spec.all_keys v) /\ k = new_key_of k0.
Proof.
  revert k.
  induction v as [ | b | n | bits | s | items IH | items IH ] using pyval_ind;
    intros k Hin; try (now destruct Hin).
  - simpl in Hin. rewrite flat_map_concat_map, map_map, <- flat_map_concat_map in Hin.
    apply in_flat_map in Hin. destruct Hin as [item [Hitem Hk]].
    rewrite Forall_forall in IH.
    destruct (IH item Hitem k Hk) as [k0 [Hk0 ->]].
    exists k0. split; [ | reflexivity ].
    simpl. apply in_flat_map. now exists item.
  - simpl in Hin.
    apply (all_keys_remove_loop strip items IH []) in Hin.
    destruct Hin as [ [] | Hin ]. exact Hin.
Qed.

Lemma all_keys_json_object (render : pykey -> string) (recurse : pyval -> pyval)
    (items : list (pykey * pyval)) :
  Forall (fun kv => forall k, In k (Spec.all_keys (recurse (snd kv))) ->
                    exists k0, In k0 (Spec.all_keys (snd kv)) /\ k = KStr (render k0))
         items ->
  forall parsed k,
    In k (Spec.all_keys (PDict (Spec.json_object render recurse parsed items))) ->
    In k (Spec.all_keys (PDict parsed))
    \/ exists k0, In k0 (Spec.all_keys (PDict items)) /\ k = KStr (render k0).
Proof.
  induction 1 as [ | [key value] items Hvalue _ IH ]; intros parsed k Hin.
  - now left.
  - simpl in Hin, Hvalue. apply IH in Hin.
    destruct Hin as [ Hin | [k0 [Hk0 ->]] ].
    + apply all_keys_dict_set in Hin.
      destruct Hin as [ Hres | [ -> | Hval ] ].
      * now left.
      * right. exists key. split; [ simpl; now left | reflexivity ].
      * right. destruct (Hvalue k Hval) as [k0 [Hk0 ->]].
        exists k0. split; [ | reflexivity ].
        simpl. right. apply in_or_app. now left.
    + right. exists k0. split; [ | reflexivity ].
      simpl. right. apply in_or_app. now right.
Qed.

(** Every key of the parsed-back tree is the rendering of a key of the
    tree. *)
Lemma all_keys_json_image (render : pykey -> string) (v : pyval) (k : pykey) :
  In k (Spec.all_keys (Spec.json_image render v)) ->
  exists k0, In k0 (Spec.all_keys v) /\ k = KStr (render k0).
Proof.
  revert k.
  induction v as [ | b | n | bits | s | items IH | items IH ] using pyval_ind;
    intros k Hin; try (now destruct Hin).
  - simpl in Hin. rewrite flat_map_concat_map, map_map, <- flat_map_concat_map in Hin.
    apply in_flat_map in Hin. destruct Hin as [item [Hitem Hk]].
    rewrite Forall_forall in IH.
    destruct (IH item Hitem k Hk) as [k0 [Hk0 ->]].
    exists k0. split; [ | reflexivity ].
    simpl. apply in_flat_map. now exists item.
  - simpl in Hin.
    apply (all_keys_json_object render (Spec.json_image render) items IH []) in Hin.
    destruct Hin as [ [] | Hin ]. exact Hin.
Qed.

(** The digits of a number do not begin with the prefix. *)
Lemma str_of_int_no_root_prefix (n : Z) : startswith "root" (str_of_int n) = false.
Proof.
  unfold str_of_int, startswith.
  destruct (Z.to_int n) as [ d | d ]; destruct d; reflexivity.
Qed.

Lemma json_key_rendering : Spec.key_rendering Spec.json_key.
Proof.
  split; [ reflexivity | ].
  intros [ s | n | ] Htext; simpl.
  - now contradiction (Htext s).
  - apply str_of_int_no_root_prefix.
  - reflexivity.
Qed.

(** A rendered key begins with the prefix only when it renders a text key
    that does. *)
Lemma rendered_key_has_root_prefix (render : pykey -> string) (key : pykey) :
  Spec.key_rendering render ->
  Spec.has_root_prefix (KStr (render key)) = true ->
  Spec.has_root_prefix key = true /\ KStr (render key) = key.
Proof.
  intros [Htext Hother] Hprefix. simpl in Hprefix.
  destruct key as [ s | n | ].
  - rewrite Htext in Hprefix |- *. now split.
  - rewrite Hother in Hprefix; [ discriminate Hprefix | intros s; discriminate ].
  - rewrite Hother in Hprefix; [ discriminate Hprefix | intros s; discriminate ].
Qed.

Context `{Json} `{PyYAML}.

(** C7, as amended.  In JSON format the dump of a tree diff is the JSON
    text of the stripped tree.  Let the JSON library read that text back as
    the tree it was made from with every mapping key rendered as text: a
    text key as itself, any other key (a number, a boolean, null) as a text
    that does not begin with the prefix.  Then what parsing the produced
    text yields is a mapping, and every key of it, at any depth, renders a
    key of the diff with one leading prefix of four characters removed if
    it had one; so a parsed key begins with the prefix only where the key
    of the diff began with the prefix twice, and when no key of the diff
    does, no parsed key retains the prefix. *)
Theorem tree_diff_json_round_trip (render : pykey -> string) (diff : DeepDiff)
    (text : string) (parsed : pyval) :
  Spec.key_rendering render ->
  Spec.reads_back render (strip (PDict (to_dict diff))) ->
  DeepDiffWriter_dump_diff "json" diff = Ok text ->
  json_loads text = Ok parsed ->
  (exists items, parsed = PDict items)
  /\ (forall key,
        In key (Spec.all_keys parsed) ->
        exists key0,
          In key0 (Spec.all_keys (PDict diff))
          /\ key = KStr (render (new_key_of key0)))
  /\ (forall key,
        In key (Spec.all_keys parsed) ->
        Spec.has_root_prefix key = true ->
        exists key0,
          In key0 (Spec.all_keys (PDict diff))
          /\ Spec.has_doubled_root_prefix key0 = true
          /\ key = new_key_of key0)
  /\ (forallb (fun key => negb (Spec.has_doubled_root_prefix key))
              (Spec.all_keys (PDict diff)) = true ->
      Spec.no_key_retains_prefix parsed = true).
Proof.
  intros Hrender Hback Hdump Hparsed.
  change (DeepDiffWriter_dump_diff "json" diff)
    with (Ok (A := string) (json_dumps (strip (PDict (to_dict diff))))) in Hdump.
  injection Hdump as <-.
  unfold Spec.reads_back in Hback.
  change (PDict (remove_loop strip [] (to_dict diff)))
    with (strip (PDict (to_dict diff))) in Hparsed.
  rewrite Hback in Hparsed. injection Hparsed as <-.
  assert (Hkeys : forall key,
            In key (Spec.all_keys
                      (Spec.json_image render (strip (PDict (to_dict diff))))) ->
            exists key0,
              In key0 (Spec.all_keys (PDict diff))
              /\ key = KStr (render (new_key_of key0))).
  { intros key Hin.
    destruct (all_keys_json_image _ _ _ Hin) as [key1 [Hkey1 ->]].
    destruct (all_keys_strip _ _ Hkey1) as [key0 [Hkey0 ->]].
    now exists key0. }
  assert (Hretained : forall key,
            In key (Spec.all_keys
                      (Spec.json_image render (strip (PDict (to_dict diff))))) ->
            Spec.has_root_prefix key = true ->
            exists key0,
              In key0 (Spec.all_keys (PDict diff))
              /\ Spec.has_doubled_root_prefix key0 = true
              /\ key = new_key_of key0).
  { intros key Hin Hprefix.
    destruct (Hkeys key Hin) as [key0 [Hkey0 ->]].
    destruct (rendered_key_has_root_prefix render _ Hrender Hprefix)
      as [Hnew Hsame].
    exists key0. split; [ exact Hkey0 | split; [ | exact Hsame ] ].
    now apply new_key_has_root_prefix. }
  split; [ | split; [ exact Hkeys | split; [ exact Hretained | ] ] ].
  - simpl. eauto.
  - intros Hnone. unfold Spec.no_key_retains_prefix.
    apply forallb_forall. intros key Hin.
    destruct (Spec.has_root_prefix key) eqn:E; [ | reflexivity ].
    destruct (Hretained key Hin E) as [key0 [Hkey0 [Hdoubled _]]].
    rewrite forallb_forall in Hnone. specialize (Hnone key0 Hkey0).
    now rewrite Hdoubled in Hnone.
Qed.

End TreeDiff.

(** The diff of an added mapping, with the JSON text of its stripped tree. *)
Lemma tree_diff_witness :
  Spec.key_rendering Spec.json_key
  /\ Spec.reads_back (H := Samples.json) Spec.json_key
       (DiffWriter._remove_root_key_prefixes_recursively
          (PDict (DiffWriter.to_dict Samples.added_mapping_diff)))
  /\ DiffWriter.DeepDiffWriter_dump_diff (H0 := Samples.json) (H1 := Samples.yaml)
       "json" Samples.added_mapping_diff = Ok Samples.json_text
  /\ json_loads (Json := Samples.json) Samples.json_text = Ok Samples.json_tree
  /\ Spec.no_key_retains_prefix Samples.json_tree = true.
Proof.
  assert (Hback : Spec.reads_back (H := Samples.json) Spec.json_key
            (DiffWriter._remove_root_key_prefixes_recursively
               (PDict (DiffWriter.to_dict Samples.added_mapping_diff))))
    by reflexivity.
  assert (Hdump : DiffWriter.DeepDiffWriter_dump_diff
                    (H0 := Samples.json) (H1 := Samples.yaml)
                    "json" Samples.added_mapping_diff = Ok Samples.json_text)
    by reflexivity.
  assert (Hparsed : json_loads (Json := Samples.json) Samples.json_text
                    = Ok Samples.json_tree) by reflexivity.
  destruct (@tree_diff_json_round_trip Samples.json Samples.yaml Spec.json_key
              Samples.added_mapping_diff Samples.json_text Samples.json_tree
              json_key_rendering Hback Hdump Hparsed)
    as [_ [_ [_ Hnone]]].
  refine (conj json_key_rendering (conj Hback (conj Hdump (conj Hparsed (Hnone eq_refl))))).
Defined.

(** C7 as stated fails.  The diff reports an added mapping one of whose
    own keys begins with the prefix twice; with any JSON library whose
    text of the stripped tree parses back to that tree, the parsed mapping
    holds a key that begins with the prefix. *)
Lemma doubled_prefix_key_retains_prefix :
  ~ exists (J : Json) (Y : PyYAML),
      Spec.parses_back
        (DiffWriter._remove_root_key_prefixes_recursively
           (PDict (DiffWriter.to_dict Samples.doubled_prefix_diff)))
      /\ (forall text parsed,
            DiffWriter.DeepDiffWriter_dump_diff "json" Samples.doubled_prefix_diff
            = Ok text ->
            json_loads text = Ok parsed ->
            Spec.no_key_retains_prefix parsed = true).
Proof.
  intros [J [Y [Hback Hclaim]]].
  specialize (Hclaim _ _ eq_refl Hback).
  vm_compute in Hclaim. discriminate Hclaim.
Qed.

(** ** The diff renderer: width normalization (C2) *)

Section Lines.

Lemma max_by_len_from_spec (l : list string) :
  forall best,
    In (max_by_len_from best l) (best :: l)
    /\ Forall (fun x => String.length x <= String.length (max_by_len_from best l))
              (best :: l).
Proof.
  induction l as [ | x l IH ]; intros best; simpl.
  - split; [ now left | constructor; [ apply le_n | constructor ] ].
  - destruct (Nat.ltb_spec (String.length best) (String.length x)) as [ Hlt | Hge ].
    + destruct (IH x) as [Hin Hall]. split; [ now right | ].
      inversion Hall as [ | ? ? Hx Hrest ]; subst.
      constructor; [ lia | now constructor ].
    + destruct (IH best) as [Hin Hall]. split.
      * destruct Hin as [ <- | Hin ]; [ now left | now right; right ].
      * inversion Hall as [ | ? ? Hbest Hrest ]; subst.
        constructor; [ exact Hbest | constructor; [ lia | exact Hrest ] ].
Qed.

(** The length of the longest string of a list that has one. *)
Lemma max_by_len_spec (l : list string) (longest : string) :
  max_by_len l = Ok longest ->
  In longest l /\ Forall (fun x => String.length x <= String.length longest) l.
Proof.
  destruct l as [ | x l ]; simpl; intros E; [ discriminate E | ].
  injection E as <-. apply max_by_len_from_spec.
Qed.

Lemma prefix_append (s t : string) : String.prefix s (s ++ t) = true.
Proof.
  induction s as [ | c s IH ]; simpl.
  - now destruct t.
  - destruct (ascii_dec c c) as [ _ | Hne ]; [ exact IH | now contradiction Hne ].
Qed.

Lemma replace_from_skip (old new s t : string) :
  replace_from old new (String.length s) (s ++ t) = replace_from old new 0 t.
Proof.
  induction s as [ | c s IH ]; simpl; [ reflexivity | exact IH ].
Qed.

(** A text that begins with [old] is replaced from its beginning. *)
Lemma replace_prefix (c : ascii) (old' new t : string) :
  replace (String c old') new (String c old' ++ t)
  = new ++ replace (String c old') new t.
Proof.
  unfold replace.
  change (String c old' ++ t) with (String c (old' ++ t)).
  cbn [replace_from].
  change (String c (old' ++ t)) with (String c old' ++ t).
  unfold startswith. rewrite prefix_append.
  cbn [String.length]. rewrite Nat.sub_1_r. cbn [Nat.pred].
  now rewrite replace_from_skip.
Qed.

Lemma replace_absent (old new s : string) :
  contains old s = false -> replace old new s = s.
Proof.
  destruct old as [ | c old' ].
  - destruct s; discriminate.
  - unfold replace. induction s as [ | a s IH ]; intros Habs; [ reflexivity | ].
    cbn [contains] in Habs. apply orb_false_iff in Habs.
    destruct Habs as [Hpre Hrest].
    cbn [replace_from]. rewrite Hpre. f_equal. now apply IH.
Qed.

(** *** Physical lines *)

Lemma splitlines_from_plain (c : ascii) (cur rest : string) :
  is_linebreak c = false ->
  splitlines_from cur (String c rest)
  = splitlines_from (cur ++ String c EmptyString) rest.
Proof. intros Hc. simpl. now rewrite Hc. Qed.

Lemma splitlines_from_break (c : ascii) (cur rest : string) :
  is_linebreak c = true ->
  exists tail, splitlines_from cur (String c rest) = cur :: tail.
Proof.
  intros Hc. simpl. rewrite Hc.
  destruct rest as [ | c2 rest2 ]; [ eauto | ].
  destruct (is_cr c && is_lf c2); eauto.
Qed.

(** The line being read, once it has a character, ends up in a line at
    least as long. *)
Lemma line_of_current (s : string) :
  forall cur,
    cur <> EmptyString ->
    exists p, In p (splitlines_from cur s) /\ String.length cur <= String.length p.
Proof.
  induction s as [ | c rest IH ]; intros cur Hne.
  - exists cur. simpl. destruct cur; [ contradiction | ].
    split; [ now left | apply le_n ].
  - destruct (is_linebreak c) eqn:Hc.
    + destruct (splitlines_from_break c cur rest Hc) as [tail ->].
      exists cur. split; [ now left | apply le_n ].
    + rewrite splitlines_from_plain by exact Hc.
      destruct (IH (cur ++ String c EmptyString)) as [p [Hin Hlen]].
      { destruct cur; discriminate. }
      exists p. split; [ exact Hin | ].
      rewrite append_length in Hlen. lia.
Qed.

(** A text without line boundary that the rest of the input begins with
    lies in one line, after what was read of that line. *)
Lemma prefix_in_line (sub : string) :
  forall s cur,
    sub <> EmptyString ->
    Spec.no_linebreak sub ->
    startswith sub s = true ->
    exists p,
      In p (splitlines_from cur s)
      /\ String.length cur + String.length sub <= String.length p.
Proof.
  induction sub as [ | c sub' IH ]; intros s cur Hne Hnb Hpre; [ contradiction | ].
  destruct s as [ | c' s' ]; [ discriminate Hpre | ].
  unfold startswith in Hpre. simpl in Hpre.
  destruct (ascii_dec c c') as [ <- | ]; [ | discriminate Hpre ].
  assert (Hc : is_linebreak c = false) by (apply Hnb; simpl; now left).
  rewrite splitlines_from_plain by exact Hc.
  destruct sub' as [ | c2 sub'' ].
  - destruct (line_of_current s' (cur ++ String c EmptyString)) as [p [Hin Hlen]].
    { destruct cur; discriminate. }
    exists p. split; [ exact Hin | ].
    rewrite append_length in Hlen. simpl in *. lia.
  - destruct (IH s' (cur ++ String c EmptyString)) as [p [Hin Hlen]].
    + discriminate.
    + intros a Ha. apply Hnb. simpl. right. exact Ha.
    + exact Hpre.
    + exists p. split; [ exact Hin | ].
      rewrite append_length in Hlen. simpl in *. lia.
Qed.

Lemma is_lf_linebreak (c : ascii) :
  is_lf c = true -> is_linebreak c = true /\ is_cr c = false.
Proof.
  unfold is_lf, is_cr, is_linebreak. intros E. apply Nat.eqb_eq in E.
  rewrite E. now split.
Qed.

Lemma contains_empty (sub : string) :
  sub <> EmptyString -> contains sub EmptyString = false.
Proof. destruct sub; [ contradiction | reflexivity ]. Qed.

Lemma startswith_linebreak (sub rest : string) (c : ascii) :
  sub <> EmptyString -> Spec.no_linebreak sub -> is_linebreak c = true ->
  startswith sub (String c rest) = false.
Proof.
  intros Hne Hnb Hc. destruct sub as [ | a sub' ]; [ contradiction | ].
  unfold startswith. simpl.
  destruct (ascii_dec a c) as [ -> | ]; [ | reflexivity ].
  rewrite (Hnb c) in Hc by (simpl; now left). discriminate Hc.
Qed.

(** A text without line boundary that occurs in the input occurs in one
    of its lines. *)
Lemma contains_in_line (sub : string) (s : string) :
  sub <> EmptyString ->
  Spec.no_linebreak sub ->
  forall cur,
    contains sub s = true ->
    exists p,
      In p (splitlines_from cur s) /\ String.length sub <= String.length p.
Proof.
  intros Hne Hnb.
  induction s as [ | c rest IH ]; intros cur Hin.
  - rewrite contains_empty in Hin by exact Hne. discriminate Hin.
  - cbn [contains] in Hin. apply orb_true_iff in Hin.
    destruct Hin as [ Hpre | Hrest ].
    { destruct (prefix_in_line sub (String c rest) cur Hne Hnb Hpre)
        as [p [Hp Hlen]].
      exists p. split; [ exact Hp | lia ]. }
    destruct (is_linebreak c) eqn:Hc.
    + destruct rest as [ | c2 rest2 ].
      { rewrite contains_empty in Hrest by exact Hne. discriminate Hrest. }
      destruct (IH EmptyString Hrest) as [p [Hp Hlen]].
      simpl. rewrite Hc.
      destruct (is_cr c && is_lf c2) eqn:Hcrlf.
      * apply andb_true_iff in Hcrlf. destruct Hcrlf as [_ Hlf].
        destruct (is_lf_linebreak c2 Hlf) as [Hbreak Hnotcr].
        exists p. split; [ right | exact Hlen ].
        simpl in Hp. rewrite Hbreak, Hnotcr in Hp. simpl in Hp.
        assert (Hsub : 0 < String.length sub)
          by (destruct sub; [ contradiction | simpl; lia ]).
        destruct rest2 as [ | c3 rest3 ].
        -- destruct Hp as [ <- | [] ]. simpl in Hlen. lia.
        -- destruct Hp as [ <- | Hp ]; [ simpl in Hlen; lia | exact Hp ].
      * exists p. split; [ now right | exact Hlen ].
    + rewrite splitlines_from_plain by exact Hc. now apply IH.
Qed.

Lemma marker_no_linebreak :
  Spec.no_linebreak DiffWriter.STAR_BAR /\ Spec.no_linebreak DiffWriter.LINE_BAR.
Proof.
  split; intros c Hin;
    assert (Hall : forallb (fun c => negb (is_linebreak c))
                     (list_ascii_of_string DiffWriter.STAR_BAR
                      ++ list_ascii_of_string DiffWriter.LINE_BAR) = true)
      by (vm_compute; reflexivity);
    rewrite forallb_forall in Hall;
    apply negb_true_iff; apply Hall; apply in_or_app; auto.
Qed.

(** A line that holds a marker has a physical line of 80 characters or
    more. *)
Lemma marker_in_line (line : string) :
  contains DiffWriter.STAR_BAR line = true
  \/ contains DiffWriter.LINE_BAR line = true ->
  exists p, In p (splitlines line) /\ 80 <= String.length p.
Proof.
  destruct marker_no_linebreak as [Hstar Hdash].
  intros [ Hin | Hin ].
  - destruct (contains_in_line DiffWriter.STAR_BAR line) with (cur := EmptyString)
      as [p [Hp Hlen]]; [ discriminate | exact Hstar | exact Hin | ].
    exists p. split; [ exact Hp | exact Hlen ].
  - destruct (contains_in_line DiffWriter.LINE_BAR line) with (cur := EmptyString)
      as [p [Hp Hlen]]; [ discriminate | exact Hdash | exact Hin | ].
    exists p. split; [ exact Hp | exact Hlen ].
Qed.

End Lines.

Section WidthNormalization.

Import DiffWriter.
Context `{Collaborators} {DiffType : Type}.

Lemma write_lines_spec (max_line_length : nat) (lines : list string) :
  forall self : DiffWriter DiffType,
    write_lines max_line_length lines self =
    (Ok tt,
     {| stack_diff := stack_diff self;
        output_format := output_format self;
        collected_lines := collected_lines self;
        output_stream :=
          (output_stream self ++ map (lengthen max_line_length) lines)%list |}).
Proof.
  induction lines as [ | line lines IH ]; intros self; simpl.
  - unfold ret. rewrite app_nil_r. now destruct self.
  - unfold mbind, stream_write, modify. rewrite IH. simpl.
    now rewrite <- app_assoc.
Qed.

Lemma lengthen_star_bar (max_line_length : nat) :
  lengthen max_line_length (STAR_BAR ++ LF) = str_mul "*" max_line_length ++ LF.
Proof.
  unfold lengthen.
  replace (contains STAR_BAR (STAR_BAR ++ LF)) with true
    by (vm_compute; reflexivity).
  change STAR_BAR with (String "*" (str_mul "*" 79)).
  rewrite replace_prefix. reflexivity.
Qed.

Lemma lengthen_line_bar (max_line_length : nat) :
  lengthen max_line_length (LINE_BAR ++ LF) = str_mul "-" max_line_length ++ LF.
Proof.
  unfold lengthen.
  replace (contains STAR_BAR (LINE_BAR ++ LF)) with false
    by (vm_compute; reflexivity).
  replace (contains LINE_BAR (LINE_BAR ++ LF)) with true
    by (vm_compute; reflexivity).
  change LINE_BAR with (String "-" (str_mul "-" 79)).
  rewrite replace_prefix. reflexivity.
Qed.

(** C2, as amended.  The pass computes the greatest length M of a physical
    line of the buffer, each buffered line being split at its line
    boundaries, and writes every buffered line, in order, after this
    rewriting: in a line that holds the star marker every occurrence of the
    star marker becomes M stars; in a line that holds the dash marker but
    not the star marker every occurrence of the dash marker becomes M
    dashes; any other line is written as it is.  So each separator line the
    renderer buffered, a marker followed by a line feed, is written as a
    bar of exactly M characters.  A buffer that holds a marker has M at
    least 80; a buffer whose longest physical line is shorter, 57
    characters say, holds no marker and is written unchanged. *)
Theorem width_normalization (self : DiffWriter DiffType) (M : nat) :
  compute_max_line_length self = Ok M ->
  let physical := flat_map splitlines (collected_lines self) in
  Forall (fun p => String.length p <= M) physical
  /\ Exists (fun p => String.length p = M) physical
  /\ _output_to_stream self =
     (Ok tt,
      {| stack_diff := stack_diff self;
         output_format := output_format self;
         collected_lines := collected_lines self;
         output_stream :=
           (output_stream self ++ map (lengthen M) (collected_lines self))%list |})
  /\ (forall line,
        (contains STAR_BAR line = true ->
         lengthen M line = replace STAR_BAR (str_mul "*" M) line)
        /\ (contains STAR_BAR line = false -> contains LINE_BAR line = true ->
            lengthen M line = replace LINE_BAR (str_mul "-" M) line)
        /\ (contains STAR_BAR line = false -> contains LINE_BAR line = false ->
            lengthen M line = line))
  /\ lengthen M (STAR_BAR ++ LF) = str_mul "*" M ++ LF
  /\ lengthen M (LINE_BAR ++ LF) = str_mul "-" M ++ LF
  /\ String.length (str_mul "*" M) = M
  /\ String.length (str_mul "-" M) = M
  /\ (forall line,
        In line (collected_lines self) ->
        contains STAR_BAR line = true \/ contains LINE_BAR line = true ->
        80 <= M)
  /\ (M < 80 -> map (lengthen M) (collected_lines self) = collected_lines self).
Proof.
  intros Hmax physical.
  unfold compute_max_line_length in Hmax.
  destruct (max_by_len (flat_map splitlines (collected_lines self)))
    as [ longest | e ] eqn:Hlongest; simpl in Hmax; [ | discriminate Hmax ].
  injection Hmax as <-.
  destruct (max_by_len_spec _ _ Hlongest) as [Hin Hall].
  assert (Hmarker : forall line,
            In line (collected_lines self) ->
            contains STAR_BAR line = true \/ contains LINE_BAR line = true ->
            80 <= String.length longest).
  { intros line Hline Hcontains.
    destruct (marker_in_line line Hcontains) as [p [Hp Hlen]].
    rewrite Forall_forall in Hall.
    assert (Hphys : In p (flat_map splitlines (collected_lines self)))
      by (apply in_flat_map; now exists line).
    specialize (Hall p Hphys). lia. }
  refine (conj Hall (conj _ (conj _ (conj _ (conj (lengthen_star_bar _)
            (conj (lengthen_line_bar _) (conj (str_mul_char_length _ _)
            (conj (str_mul_char_length _ _) (conj Hmarker _))))))))).
  - apply Exists_exists. exists longest. now split.
  - unfold _output_to_stream, mbind, get, lift, compute_max_line_length.
    rewrite Hlongest. simpl. apply write_lines_spec.
  - intros line. unfold lengthen. refine (conj _ (conj _ _)).
    + now intros ->.
    + now intros -> ->.
    + now intros -> ->.
  - intros Hshort. rewrite <- (map_id (collected_lines self)) at 2.
    apply map_ext_in. intros line Hline. unfold lengthen.
    destruct (contains STAR_BAR line) eqn:Hstar.
    { specialize (Hmarker line Hline (or_introl Hstar)). lia. }
    destruct (contains LINE_BAR line) eqn:Hdash.
    { specialize (Hmarker line Hline (or_intror Hdash)). lia. }
    reflexivity.
Qed.

End WidthNormalization.

Section DeployedPath.

Import DiffWriter.
Context `{Collaborators} {DiffType : Type} `{!Strategy DiffType}.

Lemma output_to_stream_from_star_bar
    (sd : StackDiff DiffType) (fmt : string) (stream rest : list string) :
  exists M,
    80 <= M
    /\ _output_to_stream
         {| stack_diff := sd;
            output_format := fmt;
            collected_lines := (STAR_BAR ++ LF) :: rest;
            output_stream := stream |}
       = (Ok tt,
          {| stack_diff := sd;
             output_format := fmt;
             collected_lines := (STAR_BAR ++ LF) :: rest;
             output_stream :=
               (stream ++ map (lengthen M) ((STAR_BAR ++ LF)%string :: rest))%list |}).
Proof.
  unfold _output_to_stream, mbind, get, lift, compute_max_line_length.
  cbn [collected_lines flat_map].
  replace (splitlines (STAR_BAR ++ LF)) with [STAR_BAR] by (vm_compute; reflexivity).
  cbn [app max_by_len bind].
  destruct (max_by_len_from_spec (flat_map splitlines rest) STAR_BAR) as [_ Hall].
  inversion Hall as [ | ? ? Hstar _ ]; subst.
  exists (String.length (max_by_len_from STAR_BAR (flat_map splitlines rest))).
  split.
  - replace (String.length STAR_BAR) with 80 in Hstar by (vm_compute; reflexivity).
    exact Hstar.
  - apply write_lines_spec.
Qed.

(** X2.  For a deployed stack with a difference whose dumps succeed, write
    buffers the report and then writes every buffered line, in order, to
    the output stream, the bars lengthened to the longest physical line. *)
Lemma deployed_report_reaches_stream
    (sd : StackDiff DiffType) (stream : list string) (fmt : string)
    (config_text template_diff_text : string) :
  is_deployed sd = true ->
  has_config_difference sd || has_template_difference sd = true ->
  (has_config_difference sd = true ->
   dump_diff fmt (config_diff sd) = Ok config_text) ->
  (has_template_difference sd = true ->
   dump_diff fmt (template_diff sd) = Ok template_diff_text) ->
  let report :=
    map (fun line => line ++ LF)
      (List.app
         [ STAR_BAR;
           "--> Difference detected for stack " ++ stack_name sd ++ "!";
           LINE_BAR ]
      (List.app
         (if has_config_difference sd
          then [ "Config difference:"; EmptyString; config_text ]
          else [ "No stack config difference" ])
      (List.app
         [ LINE_BAR ]
         (if has_template_difference sd
          then [ "Template difference:"; EmptyString; template_diff_text ]
          else [ "No template difference" ])))) in
  exists M,
    80 <= M
    /\ write (__init__ sd stream fmt) =
       (Ok tt,
        {| stack_diff := sd;
           output_format := fmt;
           collected_lines := report;
           output_stream := (stream ++ map (lengthen M) report)%list |}).
Proof.
  intros Hdeployed Hdiff Hconfig Htemplate report. subst report.
  unfold write, _write_config_difference, _write_template_difference,
    mbind, _output, modify, get, lift, has_difference, __init__.
  destruct (has_config_difference sd) eqn:Hc;
    destruct (has_template_difference sd) eqn:Ht;
    try discriminate Hdiff;
    first [ specialize (Hconfig eq_refl) | clear Hconfig; pose proof I as Hconfig ];
    first [ specialize (Htemplate eq_refl)
          | clear Htemplate; pose proof I as Htemplate ];
    repeat (progress
              (cbn [stack_diff output_format collected_lines output_stream
                      negb orb app map];
               rewrite ?Hc, ?Ht, ?Hdeployed;
               try rewrite Hconfig; try rewrite Htemplate));
    apply output_to_stream_from_star_bar.
Qed.

End DeployedPath.

(** A buffer whose longest physical line has 90 characters: both bars are
    written 90 characters wide. *)
Lemma width_normalization_witness :
  DiffWriter.compute_max_line_length Samples.buffered = Ok 90
  /\ DiffWriter.output_stream
       (snd (DiffWriter._output_to_stream Samples.buffered))
     = [ str_mul "*" 90 ++ LF;
         "Config difference:" ++ LF;
         ("+ " ++ str_mul "x" 88) ++ LF;
         str_mul "-" 90 ++ LF ].
Proof.
  assert (Hmax : DiffWriter.compute_max_line_length Samples.buffered = Ok 90)
    by (vm_compute; reflexivity).
  destruct (@width_normalization Samples.collaborators (list string)
              Samples.buffered 90 Hmax)
    as [_ [_ [Hwritten _]]].
  rewrite Hwritten. split; [ exact Hmax | vm_compute; reflexivity ].
Defined.

(** C2 as stated fails.  The config diff of a deployed stack reports three
    added lines, 80 stars, 80 dashes and a longer text; its dump is one
    buffered line.  The longest physical line of the buffer has 86
    characters.  The stars of the dump are written 86 wide and its dashes
    stay 80 wide: the output differs from the buffer with every marker
    replaced. *)
Lemma dash_marker_beside_star_marker_not_replaced :
  let w := snd (DiffWriter.write (Strategy0 := DiffWriter.DiffLibWriter)
                  (DiffWriter.__init__ Samples.banner_diff [] "yaml")) in
  DiffWriter.compute_max_line_length w = Ok 86
  /\ DiffWriter.output_stream w
     <> map (Spec.replace_all_markers 86) (DiffWriter.collected_lines w)
  /\ In ("+ " ++ str_mul "*" 86) (flat_map splitlines (DiffWriter.output_stream w))
  /\ In ("+ " ++ str_mul "-" 80) (flat_map splitlines (DiffWriter.output_stream w)).
Proof.
  cbv zeta. refine (conj _ (conj _ (conj _ _))).
  - vm_compute. reflexivity.
  - intros E. vm_compute in E. discriminate E.
  - vm_compute. tauto.
  - vm_compute. tauto.
Qed.

(** * Further properties of the modelled code *)

(** ** The diff renderer *)

Section WriterFrame.

Import DiffWriter.
Context `{Collaborators} {DiffType : Type} `{!Strategy DiffType}.

Lemma extends_refl (self : DiffWriter DiffType) : Props.extends self self.
Proof.
  repeat split; exists []; now rewrite app_nil_r.
Qed.

Lemma extends_trans (a b c : DiffWriter DiffType) :
  Props.extends a b -> Props.extends b c -> Props.extends a c.
Proof.
  intros [Hd [Hf [[l1 Hl1] [w1 Hw1]]]] [Hd' [Hf' [[l2 Hl2] [w2 Hw2]]]].
  split; [ congruence | split; [ congruence | split ] ].
  - exists (l1 ++ l2)%list. rewrite Hl2, Hl1. now rewrite app_assoc.
  - exists (w1 ++ w2)%list. rewrite Hw2, Hw1. now rewrite app_assoc.
Qed.

Lemma appends_ret (A : Type) (a : A) :
  Props.appends (ret (S := DiffWriter DiffType) a).
Proof. intros self. apply extends_refl. Qed.

Lemma appends_lift (A : Type) (r : result A) :
  Props.appends (lift (S := DiffWriter DiffType) r).
Proof. intros self. apply extends_refl. Qed.

Lemma appends_get : Props.appends (get (S := DiffWriter DiffType)).
Proof. intros self. apply extends_refl. Qed.

Lemma appends_bind (A B : Type) (c : M (DiffWriter DiffType) A)
    (k : A -> M (DiffWriter DiffType) B) :
  Props.appends c -> (forall a, Props.appends (k a)) ->
  Props.appends (mbind c k).
Proof.
  intros Hc Hk self. unfold mbind.
  specialize (Hc self). destruct (c self) as [[a | e] self']; simpl in *.
  - eapply extends_trans; [ exact Hc | apply Hk ].
  - exact Hc.
Qed.

Lemma appends_output (lines : list string) :
  Props.appends (_output (DiffType := DiffType) lines).
Proof.
  intros self. unfold _output, modify. simpl.
  repeat split; simpl; eauto. exists []. now rewrite app_nil_r.
Qed.

Lemma appends_stream_write (line : string) :
  Props.appends (stream_write (DiffType := DiffType) line).
Proof.
  intros self. unfold stream_write, modify. simpl.
  repeat split; simpl; eauto. exists []. now rewrite app_nil_r.
Qed.

Lemma appends_write_lines (max_line_length : nat) (lines : list string) :
  Props.appends (write_lines (DiffType := DiffType) max_line_length lines).
Proof.
  induction lines as [ | line lines IH ]; simpl.
  - apply appends_ret.
  - apply appends_bind; [ apply appends_stream_write | intros _; exact IH ].
Qed.

Lemma appends_output_to_stream :
  Props.appends (_output_to_stream (DiffType := DiffType)).
Proof.
  unfold _output_to_stream.
  apply appends_bind; [ apply appends_get | intros self ].
  apply appends_bind; [ apply appends_lift | intros m ].
  apply appends_write_lines.
Qed.

Lemma appends_write_config_difference :
  Props.appends (_write_config_difference (DiffType := DiffType)).
Proof.
  unfold _write_config_difference.
  apply appends_bind; [ apply appends_get | intros self ].
  destruct (negb (has_config_difference (stack_diff self))).
  - apply appends_output.
  - apply appends_bind; [ apply appends_lift | intros text; apply appends_output ].
Qed.

Lemma appends_write_template_difference :
  Props.appends (_write_template_difference (DiffType := DiffType)).
Proof.
  unfold _write_template_difference.
  apply appends_bind; [ apply appends_get | intros self ].
  destruct (negb (has_template_difference (stack_diff self))).
  - apply appends_output.
  - apply appends_bind; [ apply appends_lift | intros text; apply appends_output ].
Qed.

(** X1.  Whatever state a writer is in and whether write succeeds or
    raises, write only appends: the diff and the output format of the
    writer stay as they were, the lines buffered before are still the
    beginning of the buffer, and what the stream held before is still the
    beginning of the stream. *)
Theorem write_only_appends (self : DiffWriter DiffType) :
  let after := snd (write self) in
  stack_diff after = stack_diff self
  /\ output_format after = output_format self
  /\ (exists added,
        collected_lines after = (collected_lines self ++ added)%list)
  /\ (exists written,
        output_stream after = (output_stream self ++ written)%list).
Proof.
  assert (Hwrite : Props.appends (write (DiffType := DiffType))).
  { unfold write.
    apply appends_bind; [ apply appends_output | intros _ ].
    apply appends_bind; [ apply appends_get | intros s ].
    destruct (negb (has_difference s)); [ apply appends_output | ].
    apply appends_bind; [ apply appends_output | intros _ ].
    destruct (negb (is_deployed (stack_diff s))).
    - unfold _write_new_stack_details.
      apply appends_bind; [ apply appends_get | intros s'; apply appends_output ].
    - apply appends_bind; [ apply appends_output | intros _ ].
      apply appends_bind; [ apply appends_write_config_difference | intros _ ].
      apply appends_bind; [ apply appends_output | intros _ ].
      apply appends_bind; [ apply appends_write_template_difference | intros _ ].
      apply appends_output_to_stream. }
  exact (Hwrite self).
Qed.

End WriterFrame.

Section WriterOutcome.

Import DiffWriter.
Context `{Collaborators} {DiffType : Type} `{!Strategy DiffType}.

(** X3.  When write on a fresh writer raises, the exception is one that
    dump_diff raised for the config diff or for the template diff of a
    deployed stack with a difference, and nothing has been written to the
    output stream. *)
Theorem write_raises_only_dump_errors
    (sd : StackDiff DiffType) (stream : list string) (fmt : string) (e : exn) :
  fst (write (__init__ sd stream fmt)) = Err e ->
  is_deployed sd = true
  /\ ((has_config_difference sd = true
       /\ dump_diff fmt (config_diff sd) = Err e)
      \/ (has_template_difference sd = true
          /\ dump_diff fmt (template_diff sd) = Err e))
  /\ output_stream (snd (write (__init__ sd stream fmt))) = stream.
Proof.
  unfold write, _write_new_stack_details, _write_config_difference,
    _write_template_difference, mbind, _output, modify, get, lift,
    has_difference, __init__.
  destruct (has_config_difference sd) eqn:Hc;
    destruct (has_template_difference sd) eqn:Ht;
    destruct (is_deployed sd) eqn:Hd;
    destruct (dump_diff fmt (config_diff sd)) as [ ctext | ce ] eqn:Hcd;
    destruct (dump_diff fmt (template_diff sd)) as [ ttext | te ] eqn:Htd;
    repeat (progress
              (cbn [stack_diff output_format collected_lines output_stream
                      negb orb app map fst snd];
               rewrite ?Hc, ?Ht, ?Hd, ?Hcd, ?Htd ));
    try (intros Hraise; discriminate Hraise);
    try (match goal with
         | |- fst (_output_to_stream
                  {| stack_diff := _; output_format := _;
                     collected_lines := _ :: ?rest; output_stream := _ |}) = _ -> _ =>
             destruct (output_to_stream_from_star_bar sd fmt stream rest)
               as [M [_ HM]];
             rewrite HM; intros Hraise; discriminate Hraise
         end);
    intros Hraise; injection Hraise as <-; auto 6.
Qed.

(** The stream a fresh line-diff writer is given, after write. *)
Lemma line_diff_write_outcome
    (sd : StackDiff (list string)) (stream : list string) (fmt : string) :
  fst (write (Strategy0 := DiffLibWriter) (__init__ sd stream fmt)) = Ok tt.
Proof.
  unfold write, _write_new_stack_details, _write_config_difference,
    _write_template_difference, mbind, _output, modify, get, lift,
    has_difference, __init__.
  cbn [has_config_difference has_template_difference dump_diff DiffLibWriter].
  destruct (Nat.ltb 0 (List.length (config_diff sd))) eqn:Hc;
    destruct (Nat.ltb 0 (List.length (template_diff sd))) eqn:Ht;
    destruct (is_deployed sd) eqn:Hd;
    repeat (progress
              (cbn [stack_diff output_format collected_lines output_stream
                      negb orb app map fst snd];
               rewrite ?Hc, ?Ht, ?Hd));
    try reflexivity;
    match goal with
    | |- fst (_output_to_stream
                {| stack_diff := _; output_format := _;
                   collected_lines := _ :: ?rest; output_stream := _ |}) = _ =>
        destruct (output_to_stream_from_star_bar sd fmt stream rest)
          as [M [_ HM]];
        rewrite HM; reflexivity
    end.
Qed.

End WriterOutcome.

(** A deployed stack whose config diff cannot be dumped. *)
Lemma write_raises_witness :
  fst (DiffWriter.write (Strategy0 := MoreSamples.failing_dump)
         (DiffWriter.__init__ Samples.banner_diff ["earlier"] "yaml"))
  = Err (Raise TypeError "the diff cannot be dumped")
  /\ DiffWriter.output_stream
       (snd (DiffWriter.write (Strategy0 := MoreSamples.failing_dump)
               (DiffWriter.__init__ Samples.banner_diff ["earlier"] "yaml")))
     = ["earlier"].
Proof.
  assert (Hraise :
    fst (DiffWriter.write (Strategy0 := MoreSamples.failing_dump)
           (DiffWriter.__init__ Samples.banner_diff ["earlier"] "yaml"))
    = Err (Raise TypeError "the diff cannot be dumped")) by reflexivity.
  refine (conj Hraise _).
  exact (proj2 (proj2 (@write_raises_only_dump_errors Samples.collaborators
                         (list string) MoreSamples.failing_dump
                         Samples.banner_diff ["earlier"] "yaml" _ Hraise))).
Defined.

(** X4.  Write on a fresh line-diff writer never raises, whatever the
    diff, the stream and the output format. *)
Theorem line_diff_write_never_raises `{DiffWriter.Collaborators}
    (sd : DiffWriter.StackDiff (list string)) (stream : list string)
    (fmt : string) :
  exists after,
    DiffWriter.write (Strategy0 := DiffWriter.DiffLibWriter)
      (DiffWriter.__init__ sd stream fmt) = (Ok tt, after).
Proof.
  pose proof (line_diff_write_outcome sd stream fmt) as Hok.
  destruct (DiffWriter.write (Strategy0 := DiffWriter.DiffLibWriter)
              (DiffWriter.__init__ sd stream fmt)) as [r after].
  simpl in Hok. subst r. now exists after.
Qed.

(** A deployed stack with a config difference, in the line-diff writer. *)
Lemma deployed_report_witness :
  DiffWriter.is_deployed Samples.banner_diff = true
  /\ exists M,
       80 <= M
       /\ DiffWriter.output_stream
            (snd (DiffWriter.write (Strategy0 := DiffWriter.DiffLibWriter)
                    (DiffWriter.__init__ Samples.banner_diff [] "yaml")))
          = map (DiffWriter.lengthen M)
              (DiffWriter.collected_lines
                 (snd (DiffWriter.write (Strategy0 := DiffWriter.DiffLibWriter)
                         (DiffWriter.__init__ Samples.banner_diff [] "yaml")))).
Proof.
  assert (Hd : DiffWriter.is_deployed Samples.banner_diff = true) by reflexivity.
  refine (conj Hd _).
  destruct (@deployed_report_reaches_stream Samples.collaborators (list string)
              DiffWriter.DiffLibWriter Samples.banner_diff [] "yaml"
              (join LF (DiffWriter.config_diff Samples.banner_diff))
              EmptyString Hd eq_refl (fun _ => eq_refl)
              (fun E : false = true => match Bool.diff_false_true E with end))
    as [M [HM Hwrite]].
  exists M. split; [ exact HM | ].
  rewrite Hwrite. reflexivity.
Defined.

Section BufferLines.

Import DiffWriter.

Lemma splitlines_from_nil (s : string) :
  forall cur, splitlines_from cur s = [] -> cur = EmptyString /\ s = EmptyString.
Proof.
  induction s as [ | c rest IH ]; intros cur E.
  - destruct cur; [ now split | discriminate E ].
  - exfalso. destruct (is_linebreak c) eqn:Hc.
    + destruct (splitlines_from_break c cur rest Hc) as [tail Htail].
      rewrite Htail in E. discriminate E.
    + rewrite splitlines_from_plain in E by exact Hc.
      apply IH in E. destruct E as [E _]. destruct cur; discriminate E.
Qed.

(** Only the empty text has no physical line. *)
Lemma splitlines_nil (s : string) : splitlines s = [] <-> s = EmptyString.
Proof.
  split.
  - intros E. now apply splitlines_from_nil in E.
  - now intros ->.
Qed.

Lemma flat_map_splitlines_nil (lines : list string) :
  flat_map splitlines lines = [] <-> Forall (fun line => line = EmptyString) lines.
Proof.
  induction lines as [ | line lines IH ]; simpl.
  - split; [ constructor | reflexivity ].
  - split.
    + intros E. apply app_eq_nil in E. destruct E as [Hline Hrest].
      constructor; [ now apply splitlines_nil | now apply IH ].
    + intros Hall. inversion Hall as [ | ? ? Hline Hrest ]; subst.
      simpl. now apply IH.
Qed.

Context `{Collaborators} {DiffType : Type}.

(** X5.  compute_max_line_length raises the ValueError of max on an empty
    sequence exactly when every buffered line is the empty text (an empty
    buffer included), and returns a length otherwise; once _output has
    buffered at least one line it returns a length. *)
Theorem compute_max_line_length_fails_on_empty_report (self : DiffWriter DiffType) :
  ((exists msg, compute_max_line_length self = Err (Raise ValueError msg))
   <-> Forall (fun line => line = EmptyString) (collected_lines self))
  /\ ((exists M, compute_max_line_length self = Ok M)
      <-> Exists (fun line => line <> EmptyString) (collected_lines self))
  /\ (forall line lines,
        exists M,
          compute_max_line_length (snd (_output (line :: lines) self)) = Ok M).
Proof.
  assert (Hfail :
    (exists msg, compute_max_line_length self = Err (Raise ValueError msg))
    <-> Forall (fun line => line = EmptyString) (collected_lines self)).
  { unfold compute_max_line_length. rewrite <- flat_map_splitlines_nil.
    destruct (flat_map splitlines (collected_lines self)) as [ | p ps ]; simpl.
    - split; [ reflexivity | eauto ].
    - split; [ intros [msg E]; discriminate E | discriminate ]. }
  assert (Hok : forall s : DiffWriter DiffType,
    (exists M, compute_max_line_length s = Ok M)
    <-> Exists (fun line => line <> EmptyString) (collected_lines s)).
  { intros s. unfold compute_max_line_length. split.
    - intros [M HM].
      destruct (flat_map splitlines (collected_lines s)) as [ | p ps ] eqn:E;
        [ discriminate HM | ].
      apply Exists_exists.
      assert (Hp : In p (flat_map splitlines (collected_lines s)))
        by (rewrite E; now left).
      apply in_flat_map in Hp. destruct Hp as [line [Hline Hp]].
      exists line. split; [ exact Hline | ].
      intros ->. destruct Hp.
    - intros Hex. apply Exists_exists in Hex. destruct Hex as [line [Hline Hne]].
      destruct (flat_map splitlines (collected_lines s)) as [ | p ps ] eqn:E.
      + apply flat_map_splitlines_nil in E. rewrite Forall_forall in E.
        exfalso. apply Hne. now apply E.
      + simpl. eauto. }
  split; [ exact Hfail | split; [ apply Hok | ] ].
  intros line lines. apply Hok. unfold _output, modify. simpl.
  apply Exists_exists. exists (line ++ LF). split.
  - apply in_or_app. right. now left.
  - destruct line; discriminate.
Qed.

Lemma replace_from_length (old new : string) :
  1 <= String.length old ->
  String.length old <= String.length new ->
  forall s skip,
    String.length s <= String.length (replace_from old new skip s) + skip.
Proof.
  intros Hold Hlen. induction s as [ | c rest IH ]; intros skip.
  - simpl. lia.
  - cbn [replace_from]. destruct skip as [ | k ].
    + destruct (startswith old (String c rest)).
      * rewrite append_length. cbn [String.length].
        specialize (IH (String.length old - 1)). lia.
      * cbn [String.length]. specialize (IH 0). lia.
    + cbn [String.length]. specialize (IH k). lia.
Qed.

Lemma replace_length (c : ascii) (old' new s : string) :
  String.length (String c old') <= String.length new ->
  String.length s <= String.length (replace (String c old') new s).
Proof.
  intros Hlen. unfold replace.
  assert (Hold : 1 <= String.length (String c old')) by (simpl; lia).
  pose proof (replace_from_length (String c old') new Hold Hlen s 0). lia.
Qed.

(** X6.  When the width is at least that of the markers, lengthening
    never shortens a line. *)
Theorem lengthen_never_shortens (max_line_length : nat) (line : string) :
  80 <= max_line_length ->
  String.length line <= String.length (lengthen max_line_length line).
Proof.
  intros Hwidth. unfold lengthen.
  destruct (contains STAR_BAR line).
  - change STAR_BAR with (String "*" (str_mul "*" 79)).
    apply replace_length. rewrite str_mul_char_length.
    change (String.length (String "*" (str_mul "*" 79))) with 80. exact Hwidth.
  - destruct (contains LINE_BAR line); [ | apply le_n ].
    change LINE_BAR with (String "-" (str_mul "-" 79)).
    apply replace_length. rewrite str_mul_char_length.
    change (String.length (String "-" (str_mul "-" 79))) with 80. exact Hwidth.
Qed.

End BufferLines.

(** A line of 82 characters that holds the star marker, lengthened to a
    width of 90. *)
Lemma lengthen_never_shortens_witness :
  80 <= 90
  /\ String.length ("+ " ++ DiffWriter.STAR_BAR)
     <= String.length (DiffWriter.lengthen 90 ("+ " ++ DiffWriter.STAR_BAR)).
Proof.
  assert (Hwidth : 80 <= 90) by lia.
  exact (conj Hwidth
           (lengthen_never_shortens 90 ("+ " ++ DiffWriter.STAR_BAR) Hwidth)).
Defined.

Section LineDiffDump.

Import DiffWriter.

Lemma splitlines_from_plain_prefix (line : string) :
  Spec.no_linebreak line ->
  forall cur rest,
    splitlines_from cur (line ++ rest) = splitlines_from (cur ++ line) rest.
Proof.
  induction line as [ | c line IH ]; intros Hnb cur rest; simpl.
  - now rewrite append_empty_r.
  - assert (Hc : is_linebreak c = false) by (apply Hnb; simpl; now left).
    rewrite Hc. rewrite IH.
    + now rewrite append_assoc.
    + intros a Ha. apply Hnb. simpl. now right.
Qed.

Lemma splitlines_join (diff : list string) :
  Forall Spec.no_linebreak diff ->
  last diff "-" <> EmptyString ->
  splitlines (join LF diff) = diff.
Proof.
  induction diff as [ | x diff IH ]; intros Hnb Hlast.
  - reflexivity.
  - inversion Hnb as [ | ? ? Hx Hrest ]; subst.
    destruct diff as [ | y ys ].
    + simpl in Hlast |- *. unfold splitlines.
      rewrite <- (append_empty_r x) at 1.
      rewrite splitlines_from_plain_prefix by exact Hx. simpl.
      destruct x; [ contradiction | reflexivity ].
    + specialize (IH Hrest Hlast).
      unfold join in *. change (String.concat LF (x :: y :: ys))
        with (x ++ LF ++ String.concat LF (y :: ys)).
      unfold splitlines.
      rewrite splitlines_from_plain_prefix by exact Hx.
      destruct (String.concat LF (y :: ys)) as [ | c2 rest2 ] eqn:E.
      * discriminate IH.
      * simpl. f_equal. exact IH.
Qed.

Context `{Collaborators}.

(** X7.  The dump of a line diff is the same in every output format, and
    when no line of the diff holds a line boundary and the last line is
    not empty, the physical lines of the dump are the lines of the diff. *)
Theorem line_diff_dump_splits_into_its_lines (fmt : string) (diff : list string) :
  Forall Spec.no_linebreak diff ->
  last diff "-" <> EmptyString ->
  exists text,
    (forall other_format,
       dump_diff (Strategy := DiffLibWriter) other_format diff = Ok text)
    /\ dump_diff (Strategy := DiffLibWriter) fmt diff = Ok text
    /\ splitlines text = diff.
Proof.
  intros Hnb Hlast. exists (join LF diff).
  split; [ reflexivity | split; [ reflexivity | ] ].
  now apply splitlines_join.
Qed.

End LineDiffDump.

(** A text whose characters pass the test holds no line boundary. *)
Lemma no_linebreak_checked (s : string) :
  forallb (fun c => negb (is_linebreak c)) (list_ascii_of_string s) = true ->
  Spec.no_linebreak s.
Proof.
  intros Hall c Hin. rewrite forallb_forall in Hall.
  apply negb_true_iff. now apply Hall.
Qed.

(** A diff of three lines, the second of them empty. *)
Lemma line_diff_dump_witness :
  Forall Spec.no_linebreak ["+ a"; EmptyString; "- b"]
  /\ last ["+ a"; EmptyString; "- b"] "-" <> EmptyString
  /\ splitlines ("+ a" ++ LF ++ LF ++ "- b") = ["+ a"; EmptyString; "- b"].
Proof.
  assert (Hnb : Forall Spec.no_linebreak ["+ a"; EmptyString; "- b"])
    by (repeat constructor; apply no_linebreak_checked; reflexivity).
  assert (Hlast : last ["+ a"; EmptyString; "- b"] "-" <> EmptyString)
    by discriminate.
  refine (conj Hnb (conj Hlast _)).
  destruct (@line_diff_dump_splits_into_its_lines Samples.collaborators "json"
              ["+ a"; EmptyString; "- b"] Hnb Hlast) as [text [_ [Hdump Hsplit]]].
  injection Hdump as <-. exact Hsplit.
Defined.

(** ** The tree-diff strategy: stripping keys *)

Section Stripping.

Import DiffWriter.

#[local] Abbreviation strip := _remove_root_key_prefixes_recursively.


Lemma forallb_pairs_Forall (p : pyval -> bool) (items : list (pykey * pyval)) :
  forallb (fun '(_, value) => p value) items = true ->
  Forall (fun kv => p (snd kv) = true) items.
Proof.
  induction items as [ | [k v] items IH ]; simpl; intros E.
  - constructor.
  - apply andb_true_iff in E. destruct E as [Hv Hrest].
    constructor; [ exact Hv | now apply IH ].
Qed.




Lemma dict_get_dict_set (d : pydict) (key : pykey) (value : pyval) (k : pykey) :
  Helpers.dict_get (dict_set d key value) k =
  if pykey_eqb key k then Some value else Helpers.dict_get d k.
Proof.
  induction d as [ | [k0 v0] d IH ]; simpl.
  - reflexivity.
  - destruct (pykey_eqb k0 key) eqn:E; simpl.
    + apply pykey_eqb_eq in E. subst k0. now destruct (pykey_eqb key k).
    + rewrite IH. destruct (pykey_eqb k0 k) eqn:E0; [ | reflexivity ].
      apply pykey_eqb_eq in E0. subst k0.
      destruct (pykey_eqb key k) eqn:E1; [ | reflexivity ].
      apply pykey_eqb_eq in E1. subst key.
      rewrite pykey_eqb_refl in E. discriminate E.
Qed.





End Stripping.



(** ** The tag parser *)

Section GetAttText.

Import CfnYamlLoader.

Lemma split_once_from_spec (sep : ascii) (s : string) :
  forall cur,
    (~ In sep (list_ascii_of_string s)
     /\ split_once_from sep cur s = [cur ++ s])
    \/ (exists before after,
          s = before ++ String sep after
          /\ ~ In sep (list_ascii_of_string before)
          /\ split_once_from sep cur s = [cur ++ before; after]).
Proof.
  induction s as [ | c s IH ]; intros cur.
  - left. split; [ intros [] | simpl; now rewrite append_empty_r ].
  - simpl. destruct (Ascii.eqb_spec c sep) as [ -> | Hne ].
    + right. exists EmptyString, s. repeat split.
      * intros [].
      * now rewrite append_empty_r.
    + destruct (IH (cur ++ String c EmptyString))
        as [ [Hnot E] | [before [after [-> [Hnot E]]]] ].
      * left. split.
        -- intros [ Hc | Hin ]; [ now apply Hne | now apply Hnot ].
        -- rewrite E. now rewrite append_assoc.
      * right. exists (String c before), after. repeat split.
        -- intros [ Hc | Hin ]; [ now apply Hne | now apply Hnot ].
        -- rewrite E. now rewrite append_assoc.
Qed.

(** X11.  GetAtt on a text value, through the tag constructor, yields the
    single key Fn::GetAtt with a list of one or two texts that, joined by
    a dot, give the value back: the whole value when it holds no dot, and
    otherwise the text before its first dot, which holds no dot, and
    everything after that dot, further dots included. *)
Theorem getatt_text_splits_at_first_dot (loader : Loader) (tag value : string) :
  exists parts,
    _tag_constructor loader "GetAtt" (ScalarNode tag value)
    = Yielded (Ok [(KStr "Fn::GetAtt", PList (map PStr parts))])
    /\ join "." parts = value
    /\ ((parts = [value] /\ ~ In "."%char (list_ascii_of_string value))
        \/ (exists resource attribute,
              parts = [resource; attribute]
              /\ ~ In "."%char (list_ascii_of_string resource))).
Proof.
  exists (split_once "." value). split; [ reflexivity | ].
  unfold split_once.
  destruct (split_once_from_spec "." value EmptyString)
    as [ [Hnot E] | [before [after [-> [Hnot E]]]] ]; rewrite E; simpl.
  - split; [ reflexivity | left; now split ].
  - split; [ reflexivity | right; now exists before, after ].
Qed.

(** X13.  When the tag constructor ends normally, the mapping it yielded
    holds exactly one item; its key is the tag itself for a tag of
    CFN_TAGS and the tag after Fn:: for a tag of CFN_FNS, and the tag is a
    supported one. *)
Theorem tag_constructor_yields_single_key
    (loader : Loader) (tag_suffix : string) (n : node) (data : pydict) :
  _tag_constructor loader tag_suffix n = Yielded (Ok data) ->
  In tag_suffix (CFN_TAGS ++ CFN_FNS)%list
  /\ exists value,
       data = [ (KStr (if mem tag_suffix CFN_FNS
                       then "Fn::" ++ tag_suffix else tag_suffix), value) ].
Proof.
  unfold _tag_constructor. intros E.
  destruct (mem tag_suffix CFN_FNS) eqn:Hfn;
    destruct (mem tag_suffix CFN_TAGS) eqn:Htag;
    cbn [negb andb] in E; try discriminate E;
    (split;
     [ apply in_or_app;
       first [ right; now apply mem_In | left; now apply mem_In ]
     | ]);
    injection E as E;
    match type of E with
    | bind ?c _ = _ => destruct c as [ construct | e ]; [ | discriminate E ]
    end;
    cbn [bind] in E;
    match type of E with
    | bind ?c _ = _ => destruct c as [ value | e ]; [ | discriminate E ]
    end;
    cbn [bind dict_set] in E; injection E as <-; now exists value.
Qed.

End GetAttText.

(** The tag Join on a sequence and the tag Ref on a scalar. *)
Lemma tag_constructor_single_key_witness :
  CfnYamlLoader._tag_constructor Samples.loader "Join"
    (CfnYamlLoader.SequenceNode "!Join"
       [CfnYamlLoader.ScalarNode "tag:yaml.org,2002:str" ",";
        CfnYamlLoader.ScalarNode "tag:yaml.org,2002:str" "a"])
  = CfnYamlLoader.Yielded (Ok [(KStr "Fn::Join", PList [PStr ","; PStr "a"])])
  /\ In "Join" (CfnYamlLoader.CFN_TAGS ++ CfnYamlLoader.CFN_FNS)%list.
Proof.
  assert (E : CfnYamlLoader._tag_constructor Samples.loader "Join"
    (CfnYamlLoader.SequenceNode "!Join"
       [CfnYamlLoader.ScalarNode "tag:yaml.org,2002:str" ",";
        CfnYamlLoader.ScalarNode "tag:yaml.org,2002:str" "a"])
    = CfnYamlLoader.Yielded (Ok [(KStr "Fn::Join", PList [PStr ","; PStr "a"])]))
    by reflexivity.
  exact (conj E (proj1 (tag_constructor_yields_single_key _ _ _ _ E))).
Defined.

(** A sequence of two scalars, constructed by a loader. *)
Lemma getatt_with_loader_witness :
  CfnYamlLoader.construct_sequence Samples.loader
    (CfnYamlLoader.SequenceNode "!GetAtt"
       [CfnYamlLoader.ScalarNode "tag:yaml.org,2002:str" "MyResource";
        CfnYamlLoader.ScalarNode "tag:yaml.org,2002:str" "Arn"])
  = Ok [PStr "MyResource"; PStr "Arn"]
  /\ CfnYamlLoader._getatt_constructor (CfnYamlLoader.ObjLoader Samples.loader)
       (CfnYamlLoader.SequenceNode "!GetAtt"
          [CfnYamlLoader.ScalarNode "tag:yaml.org,2002:str" "MyResource";
           CfnYamlLoader.ScalarNode "tag:yaml.org,2002:str" "Arn"])
     = Ok (PList [PStr "MyResource"; PStr "Arn"]).
Proof.
  assert (E : CfnYamlLoader.construct_sequence Samples.loader
    (CfnYamlLoader.SequenceNode "!GetAtt"
       [CfnYamlLoader.ScalarNode "tag:yaml.org,2002:str" "MyResource";
        CfnYamlLoader.ScalarNode "tag:yaml.org,2002:str" "Arn"])
    = Ok [PStr "MyResource"; PStr "Arn"]) by reflexivity.
  refine (conj E _).
  apply (proj1 (getatt_constructor_with_loader Samples.loader _ _ _ E)).
  repeat constructor; eauto.
Defined.

(** ** The output formatter *)

Section ConsoleWrite.

Import ConsoleWriter.
Context `{PyYAML} `{Json} `{Tabulate} `{Builtins} `{Colourer}.

(** X14.  For a supported format the module-level write echoes one text
    or, when preparing or rendering the value raises, nothing: what the
    console held stays, and with colouring the echoed text is the colouring
    of the text echoed without it. *)
Theorem write_echoes_one_text (var : pyval) (output_format : string)
    (out : console) :
  In output_format Spec.supported_formats ->
  exists rendering : result string,
    write var output_format true out =
    match rendering with
    | Ok text => (Ok tt, (out ++ [text])%list)
    | Err e => (Err e, out)
    end
    /\ write var output_format false out =
       match rendering with
       | Ok text => (Ok tt, (out ++ [colour text])%list)
       | Err e => (Err e, out)
       end.
Proof.
  intros Hin.
  destruct (_prepare_value_for_serialization var) as [ prepared | e ] eqn:Hprepared.
  - destruct Hin as [ <- | [ <- | [ <- | [] ] ] ].
    + exists (Ok (_convert_to_text prepared)).
      unfold write, writer_write, mbind, lift, echo, modify. cbn.
      rewrite Hprepared. cbn. split; reflexivity.
    + destruct (_convert_to_json prepared) as [ text | e ] eqn:Hjson.
      * exists (Ok text).
        unfold write, writer_write, mbind, lift, echo, modify. cbn.
        rewrite Hprepared. cbn. unfold _wrap_with_colouring.
        repeat (progress (cbn beta; rewrite ?Hjson; cbn)).
        split; reflexivity.
      * exists (Err e).
        unfold write, writer_write, mbind, lift, echo, modify. cbn.
        rewrite Hprepared. cbn. unfold _wrap_with_colouring.
        repeat (progress (cbn beta; rewrite ?Hjson; cbn)).
        split; reflexivity.
    + exists (Ok (_convert_to_yaml prepared)).
      unfold write, writer_write, mbind, lift, echo, modify. cbn.
      rewrite Hprepared. cbn. split; reflexivity.
  - exists (Err e).
    destruct Hin as [ <- | [ <- | [ <- | [] ] ] ];
      unfold write, writer_write, mbind, lift, echo, modify; cbn;
      rewrite Hprepared; cbn; split; reflexivity.
Qed.

End ConsoleWrite.

Section StringFree.

Import ConsoleWriter.
Context `{PyYAML}.

#[local] Abbreviation prepare := _prepare_value_for_serialization.

Lemma prepare_string_free_fixed (v : pyval) :
  Spec.well_formed v = true ->
  Props.string_free v = true ->
  prepare v = Ok v.
Proof.
  induction v as [ | b | n | bits | s | items IH | items IH ] using pyval_ind;
    intros Hwf Hfree; try reflexivity.
  - discriminate Hfree.
  - simpl in Hwf, Hfree |- *.
    rewrite forallb_forall in Hwf, Hfree.
    rewrite list_comprehension_fixed; [ reflexivity | ].
    rewrite Forall_forall in IH |- *. intros item Hitem.
    apply IH; [ exact Hitem | now apply Hwf | now apply Hfree ].
  - simpl in Hwf, Hfree |- *.
    apply andb_true_iff in Hwf. destruct Hwf as [Hkeys Hvalues].
    apply nodup_keys_NoDup in Hkeys.
    apply forallb_pairs_Forall in Hvalues.
    apply forallb_pairs_Forall in Hfree.
    rewrite dict_comprehension_fixed;
      [ reflexivity | exact Hkeys | | intros k _ [] ].
    unfold dict_values. rewrite Forall_forall in IH, Hvalues, Hfree |- *.
    intros value Hvalue. apply in_map_iff in Hvalue.
    destruct Hvalue as [[k v'] [<- Hkv]]. simpl.
    apply (IH (k, v') Hkv);
      [ exact (Hvalues (k, v') Hkv) | exact (Hfree (k, v') Hkv) ].
Qed.

(** X15.  A value that holds no string, whose mappings hold each key once
    and which is nested no deeper than the recursion limit allows, is
    returned by normalization as it is: the decoder is not consulted, and
    keys are never decoded. *)
Theorem prepare_leaves_string_free_values (limit : nat) (v : pyval) :
  Spec.call_depth v <= limit ->
  Spec.well_formed v = true ->
  Props.string_free v = true ->
  _prepare_value_for_serialization_within limit v = Ok v.
Proof.
  intros Hdepth Hwf Hfree.
  rewrite prepare_within_agrees by exact Hdepth.
  now apply prepare_string_free_fixed.
Qed.

End StringFree.

(** The three formats on one value. *)
Lemma write_echoes_witness :
  In "text" Spec.supported_formats
  /\ ConsoleWriter.write (H := Samples.yaml) (H0 := Samples.json)
       (H1 := Samples.tabulate) (H2 := Samples.builtins) (H3 := Samples.colourer)
       (PList [PStr "5"; PStr "CREATE_COMPLETE"]) "text" false ["earlier"]
     = (Ok tt, ["earlier"; "5" ++ LF ++ "CREATE_COMPLETE"]).
Proof.
  assert (Hin : In "text" Spec.supported_formats) by (simpl; tauto).
  refine (conj Hin _).
  destruct (@write_echoes_one_text Samples.yaml Samples.json Samples.tabulate
              Samples.builtins Samples.colourer
              (PList [PStr "5"; PStr "CREATE_COMPLETE"]) "text" ["earlier"] Hin)
    as [rendering [Hplain Hcoloured]].
  rewrite Hcoloured.
  destruct rendering as [ text | e ]; vm_compute in Hplain.
  - injection Hplain as <-. reflexivity.
  - discriminate Hplain.
Defined.

(** A nested value of numbers, booleans and null, with three nested calls
    allowed. *)
Lemma prepare_string_free_witness :
  let v := PDict [ (KStr "5", PList [PInt 1; PNone]); (KInt 2, PBool true) ] in
  Spec.call_depth v <= 3
  /\ Spec.well_formed v = true
  /\ Props.string_free v = true
  /\ ConsoleWriter._prepare_value_for_serialization_within (H := Samples.yaml) 3 v
     = Ok v.
Proof.
  cbv zeta.
  assert (Hdepth : Spec.call_depth
                     (PDict [ (KStr "5", PList [PInt 1; PNone]); (KInt 2, PBool true) ])
                   <= 3) by (apply Nat.leb_le; reflexivity).
  refine (conj Hdepth (conj eq_refl (conj eq_refl _))).
  apply (@prepare_leaves_string_free_values Samples.yaml);
    [ exact Hdepth | reflexivity | reflexivity ].
Defined.

(** ** User variables: [--var] assignments *)

Section UserVariables.

Import Helpers.

Lemma count_char_app (sep : ascii) (s t : string) :
  Props.count_char sep (s ++ t)
  = Props.count_char sep s + Props.count_char sep t.
Proof.
  induction s as [ | a s IH ]; simpl; [ reflexivity | rewrite IH; lia ].
Qed.

Lemma split_from_length (sep : ascii) (s : string) :
  forall cur, List.length (split_from sep cur s) = S (Props.count_char sep s).
Proof.
  induction s as [ | a s IH ]; intros cur; simpl; [ reflexivity | ].
  destruct (Ascii.eqb a sep); simpl; rewrite IH; reflexivity.
Qed.

Lemma split_from_none (sep : ascii) (s : string) :
  forall cur, Props.count_char sep s = 0 -> split_from sep cur s = [cur ++ s].
Proof.
  induction s as [ | a s IH ]; intros cur Hnone; simpl.
  - now rewrite append_empty_r.
  - simpl in Hnone. destruct (Ascii.eqb a sep); [ discriminate Hnone | ].
    rewrite IH by exact Hnone. now rewrite append_assoc.
Qed.

Lemma split_from_first (sep : ascii) (a b : string) :
  forall cur,
    Props.count_char sep a = 0 ->
    split_from sep cur (a ++ String sep b)
    = (cur ++ a) :: split_from sep EmptyString b.
Proof.
  induction a as [ | c a IH ]; intros cur Hnone; simpl.
  - rewrite Ascii.eqb_refl. now rewrite append_empty_r.
  - simpl in Hnone. destruct (Ascii.eqb c sep); [ discriminate Hnone | ].
    rewrite IH by exact Hnone. now rewrite append_assoc.
Qed.

(** The two parts of an assignment with one equals sign. *)
Lemma split_assignment (key value : string) :
  Props.count_char "=" key = 0 ->
  Props.count_char "=" value = 0 ->
  split "=" (key ++ "=" ++ value) = [key; value].
Proof.
  intros Hkey Hvalue. unfold split.
  change (key ++ "=" ++ value) with (key ++ String "=" value).
  rewrite split_from_first by exact Hkey.
  rewrite split_from_none by exact Hvalue. reflexivity.
Qed.

Lemma setitem_on_mapping (dic : pyval) (key : string) (value dic' : pyval) :
  setitem dic (KStr key) value = Returns dic' ->
  exists d, dic = PDict d /\ dic' = PDict (dict_set d (KStr key) value).
Proof.
  destruct dic as [ | b | n | bits | s | items | d ]; simpl;
    try discriminate.
  intros [= <-]. now exists d.
Qed.

Lemma setdefault_on_mapping (dic : pyval) (key : pykey) (node : pyval) :
  setdefault dic key = Returns node ->
  exists d,
    dic = PDict d
    /\ node = match dict_get d key with Some found => found | None => PDict [] end.
Proof.
  destruct dic as [ | b | n | bits | s | items | d ]; simpl;
    try discriminate.
  intros [= <-]. now exists d.
Qed.

Lemma dict_get_set_same (d : pydict) (key : pykey) (value : pyval) :
  dict_get (dict_set d key value) key = Some value.
Proof. now rewrite dict_get_dict_set, pykey_eqb_refl. Qed.

Lemma dict_get_set_other (d : pydict) (key k : pykey) (value : pyval) :
  k <> key -> dict_get (dict_set d key value) k = dict_get d k.
Proof.
  intros Hne. rewrite dict_get_dict_set.
  destruct (pykey_eqb key k) eqn:E; [ | reflexivity ].
  apply pykey_eqb_eq in E. congruence.
Qed.

Lemma nested_set_cons (dic : pyval) (key next : string) (rest : list string)
    (value : pyval) :
  _nested_set dic (key :: next :: rest) value
  = obind (setdefault dic (KStr key)) (fun node =>
    obind (_nested_set node (next :: rest) value) (fun node =>
    Returns (with_node dic (KStr key) node))).
Proof. reflexivity. Qed.

Lemma nested_set_spec (keys : list string) :
  forall (dic : pyval) (key : string) (value dic' : pyval),
    _nested_set dic (key :: keys) value = Returns dic' ->
    exists d d',
      dic = PDict d /\ dic' = PDict d'
      /\ Props.nested_get dic' (key :: keys) = Some value
      /\ forall k, k <> KStr key -> dict_get d' k = dict_get d k.
Proof.
  induction keys as [ | next rest IH ]; intros dic key value dic' Hset.
  - apply setitem_on_mapping in Hset. destruct Hset as [d [-> ->]].
    exists d, (dict_set d (KStr key) value).
    refine (conj eq_refl (conj eq_refl (conj _ _))).
    + simpl. now rewrite dict_get_set_same.
    + intros k Hne. now apply dict_get_set_other.
  - rewrite nested_set_cons in Hset.
    destruct (setdefault dic (KStr key)) as [ node | cls msg ] eqn:Hnode;
      cbn [obind] in Hset; [ | discriminate Hset ].
    apply setdefault_on_mapping in Hnode. destruct Hnode as [d [-> _]].
    destruct (_nested_set node (next :: rest) value) as [ node' | cls msg ] eqn:Hrest;
      cbn [obind with_node] in Hset; [ | discriminate Hset ].
    injection Hset as <-.
    destruct (IH _ _ _ _ Hrest) as [nd [nd' [_ [_ [Hget _]]]]].
    exists d, (dict_set d (KStr key) node').
    refine (conj eq_refl (conj eq_refl (conj _ _))).
    + change (Props.nested_get (PDict (dict_set d (KStr key) node'))
                (key :: next :: rest))
        with (match dict_get (dict_set d (KStr key) node') (KStr key) with
              | Some node => Props.nested_get node (next :: rest)
              | None => None
              end).
      rewrite dict_get_set_same. exact Hget.
    + intros k Hne. now apply dict_get_set_other.
Qed.


(** X17.  Assigning below a value that is not a mapping raises: where a
    path leads to such a value, every longer path fails with a TypeError
    (one more key) or an AttributeError (more than one). *)
Theorem nested_set_below_a_leaf_raises (path : list string) :
  forall (dic leaf value : pyval) (key : string) (more : list string),
    Props.nested_get dic path = Some leaf ->
    ConsoleWriter.is_dict leaf = false ->
    exists msg,
      _nested_set dic (path ++ key :: more) value
      = Raises (match more with [] => "TypeError" | _ :: _ => "AttributeError" end)
               msg.
Proof.
  induction path as [ | step path IH ];
    intros dic leaf value key more Hget Hleaf.
  - simpl in Hget. injection Hget as ->.
    destruct more as [ | next more ].
    + destruct leaf as [ | b | n | bits | s | items | d ];
        try discriminate Hleaf; simpl; eauto.
    + change (([] ++ key :: next :: more)%list) with (key :: next :: more).
      rewrite nested_set_cons.
      destruct leaf as [ | b | n | bits | s | items | d ];
        try discriminate Hleaf; simpl; eauto.
  - simpl in Hget.
    destruct dic as [ | b | n | bits | s | items | d ]; try discriminate Hget.
    destruct (dict_get d (KStr step)) as [ node | ] eqn:Hnode;
      [ | discriminate Hget ].
    destruct (IH node leaf value key more Hget Hleaf) as [msg Hraise].
    exists msg.
    destruct (path ++ key :: more)%list as [ | next rest ] eqn:Hpath.
    + destruct path; discriminate Hpath.
    + change (((step :: path) ++ key :: more)%list)
        with (step :: (path ++ key :: more))%list.
      rewrite Hpath, nested_set_cons.
      cbn [setdefault obind]. rewrite Hnode, Hraise. reflexivity.
Qed.

(** Unpacking the parts of a text into two names fails unless it holds
    one equals sign. *)
Lemma update_dict_unpack (return_value : pyval) (s : string) :
  Props.count_char "=" s <> 1 ->
  exists msg, _update_dict return_value (PStr s) = Raises "ValueError" msg.
Proof.
  intros Hcount. unfold _update_dict.
  pose proof (split_from_length "=" s EmptyString) as Hlen.
  fold (split "=" s) in Hlen.
  destruct (split "=" s) as [ | a [ | b [ | c rest ] ] ]; simpl in Hlen; eauto.
  exfalso. apply Hcount. lia.
Qed.

(** X18.  A [--var] text that does not hold exactly one equals sign is
    rejected with a ValueError, whatever the variables hold. *)
Theorem update_dict_needs_one_equals_sign (return_value : pyval) (s : string) :
  Props.count_char "=" s <> 1 ->
  exists msg, _update_dict return_value (PStr s) = Raises "ValueError" msg.
Proof. apply update_dict_unpack. Qed.

Lemma update_dict_assignment (return_value : pyval) (key value : string)
    (after : pyval) :
  _update_dict return_value (PStr (key ++ "=" ++ value)) = Returns after ->
  _nested_set return_value (split "." key) (PStr value) = Returns after.
Proof.
  intros Hupdate.
  assert (Hcount : Props.count_char "=" (key ++ "=" ++ value) = 1).
  { destruct (Nat.eq_dec (Props.count_char "=" (key ++ "=" ++ value)) 1)
      as [ E | Hne ]; [ exact E | ].
    destruct (update_dict_unpack return_value _ Hne) as [msg E].
    rewrite E in Hupdate. discriminate Hupdate. }
  rewrite count_char_app in Hcount.
  change ("=" ++ value) with (String "=" value) in Hcount.
  simpl in Hcount.
  unfold _update_dict in Hupdate.
  rewrite split_assignment in Hupdate by lia.
  exact Hupdate.
Qed.

Lemma split_from_nonempty (sep : ascii) (s : string) :
  forall cur, split_from sep cur s <> [].
Proof.
  intros cur E. apply (f_equal (@List.length string)) in E.
  rewrite split_from_length in E. discriminate E.
Qed.

Lemma apply_vars_app (limit : nat) (merge_vars : bool)
    (earlier later : list pyval) :
  forall return_value,
    apply_vars limit merge_vars (earlier ++ later) return_value
    = obind (apply_vars limit merge_vars earlier return_value)
            (apply_vars limit merge_vars later).
Proof.
  induction earlier as [ | variable earlier IH ]; intros return_value; simpl.
  - reflexivity.
  - destruct (if ConsoleWriter.is_dict variable && merge_vars
              then _deep_merge limit variable return_value
              else _update_dict return_value variable) as [ next | cls msg ];
      simpl; [ apply IH | reflexivity ].
Qed.

(** X19.  The last [--var] assignment wins: when the loop over the
    options returns, the value of the last assignment is found under its
    dotted path, as a text, whatever the earlier options set there. *)
Theorem last_assignment_wins (limit : nat) (merge_vars : bool)
    (earlier : list pyval) (key value : string) (return_value after : pyval) :
  apply_vars limit merge_vars (earlier ++ [PStr (key ++ "=" ++ value)]) return_value
  = Returns after ->
  Props.nested_get after (split "." key) = Some (PStr value).
Proof.
  rewrite apply_vars_app.
  destruct (apply_vars limit merge_vars earlier return_value)
    as [ before | cls msg ]; cbn [obind]; [ | discriminate ].
  cbn [apply_vars ConsoleWriter.is_dict andb].
  destruct (_update_dict before (PStr (key ++ "=" ++ value)))
    as [ updated | cls msg ] eqn:Hupdate; cbn [obind]; [ | discriminate ].
  intros [= <-].
  apply update_dict_assignment in Hupdate.
  destruct (split "." key) as [ | first rest ] eqn:Hkeys.
  - now apply split_from_nonempty in Hkeys.
  - destruct (nested_set_spec _ _ _ _ _ Hupdate) as [d [d' [_ [_ [Hget _]]]]].
    exact Hget.
Qed.

End UserVariables.


(** An assignment below a text that an earlier assignment stored. *)
Lemma nested_set_below_a_leaf_witness :
  Props.nested_get (PDict [(KStr "a", PStr "1")]) ["a"] = Some (PStr "1")
  /\ exists msg,
       Helpers._nested_set (PDict [(KStr "a", PStr "1")]) ["a"; "b"] (PStr "2")
       = Helpers.Raises "TypeError" msg.
Proof.
  assert (Hget : Props.nested_get (PDict [(KStr "a", PStr "1")]) ["a"]
                 = Some (PStr "1")) by reflexivity.
  refine (conj Hget _).
  exact (nested_set_below_a_leaf_raises ["a"] _ _ (PStr "2") "b" [] Hget eq_refl).
Defined.

(** A value that holds an equals sign. *)
Lemma update_dict_witness :
  Props.count_char "=" "a=b=c" <> 1
  /\ exists msg,
       Helpers._update_dict (PDict []) (PStr "a=b=c")
       = Helpers.Raises "ValueError" msg.
Proof.
  assert (Hcount : Props.count_char "=" "a=b=c" <> 1) by discriminate.
  refine (conj Hcount _).
  exact (update_dict_needs_one_equals_sign (PDict []) "a=b=c" Hcount).
Defined.

(** Two assignments to one path. *)
Lemma last_assignment_witness :
  Helpers.apply_vars 1 false [PStr "a.b=1"; PStr "a.b=2"] (PDict [])
  = Helpers.Returns (PDict [(KStr "a", PDict [(KStr "b", PStr "2")])])
  /\ Props.nested_get (PDict [(KStr "a", PDict [(KStr "b", PStr "2")])]) ["a"; "b"]
     = Some (PStr "2").
Proof.
  assert (Hvars :
    Helpers.apply_vars 1 false ([PStr "a.b=1"] ++ [PStr ("a.b" ++ "=" ++ "2")])%list
      (PDict [])
    = Helpers.Returns (PDict [(KStr "a", PDict [(KStr "b", PStr "2")])]))
    by reflexivity.
  refine (conj Hvars _).
  exact (last_assignment_wins 1 false [PStr "a.b=1"] "a.b" "2" _ _ Hvars).
Defined.

(** ** User variables: deep merge *)

Section DeepMerge.

Import Helpers.

Lemma deep_merge_mapping (limit : nat) (items : list (pykey * pyval))
    (destination : pyval) :
  _deep_merge (S limit) (PDict items) destination
  = merge_items (_deep_merge limit) items destination.
Proof. reflexivity. Qed.

Lemma deep_merge_returns (limit : nat) (source destination after : pyval) :
  _deep_merge limit source destination = Returns after ->
  exists limit' items,
    limit = S limit' /\ source = PDict items
    /\ merge_items (_deep_merge limit') items destination = Returns after.
Proof.
  destruct limit as [ | limit' ]; [ discriminate | ].
  destruct source as [ | b | n | bits | s | l | items ]; try discriminate.
  intros Hmerge. now exists limit', items.
Qed.

Section Loop.

Variable recurse : pyval -> pyval -> outcome pyval.

(** One turn of the loop of [_deep_merge] on a mapping. *)
Lemma merge_items_cons (key : pykey) (value : pyval)
    (rest : list (pykey * pyval)) (d : pydict) :
  merge_items recurse ((key, value) :: rest) (PDict d)
  = if ConsoleWriter.is_dict value
    then obind (recurse value
                  (match dict_get d key with
                   | Some node => node
                   | None => PDict []
                   end))
           (fun merged =>
              merge_items recurse rest (PDict (dict_set d key merged)))
    else merge_items recurse rest (PDict (dict_set d key value)).
Proof. destruct value; reflexivity. Qed.

(** One turn of the loop on a sequence. *)
Lemma merge_items_cons_list (key : pykey) (value : pyval)
    (rest : list (pykey * pyval)) (l : list pyval) :
  merge_items recurse ((key, value) :: rest) (PList l)
  = if ConsoleWriter.is_dict value
    then Raises "AttributeError" "'list' object has no attribute 'setdefault'"
    else obind (setitem (PList l) key value) (merge_items recurse rest).
Proof. destruct value; reflexivity. Qed.

(** The first step of the loop on a mapping: what is stored under the key
    of the first item. *)
Lemma merge_items_step (key : pykey) (value : pyval)
    (rest : list (pykey * pyval)) (d : pydict) (after : pyval) :
  merge_items recurse ((key, value) :: rest) (PDict d) = Returns after ->
  exists stored,
    merge_items recurse rest (PDict (dict_set d key stored)) = Returns after
    /\ if ConsoleWriter.is_dict value
       then recurse value (match dict_get d key with
                           | Some found => found
                           | None => PDict []
                           end) = Returns stored
       else stored = value.
Proof.
  rewrite merge_items_cons. destruct (ConsoleWriter.is_dict value).
  - destruct (recurse value _) as [ stored | cls msg ]; cbn [obind];
      [ | discriminate ].
    intros Hrest. now exists stored.
  - intros Hrest. now exists value.
Qed.

Lemma merge_items_lookup (items : list (pykey * pyval)) :
  forall (d : pydict) (after : pyval),
    NoDup (dict_keys items) ->
    merge_items recurse items (PDict d) = Returns after ->
    exists merged,
      after = PDict merged
      /\ forall key,
           match dict_get items key with
           | None => dict_get merged key = dict_get d key
           | Some value =>
               if ConsoleWriter.is_dict value
               then exists node,
                      dict_get merged key = Some node
                      /\ recurse value
                           (match dict_get d key with
                            | Some found => found
                            | None => PDict []
                            end) = Returns node
               else dict_get merged key = Some value
           end.
Proof.
  induction items as [ | [k v] items IH ]; intros d after Hnd Hmerge.
  - simpl in Hmerge. injection Hmerge as <-. exists d. now split.
  - inversion Hnd as [ | ? ? Hfresh Hnd' ]; subst.
    apply merge_items_step in Hmerge. destruct Hmerge as [w [Hrest Hw]].
    destruct (IH _ _ Hnd' Hrest) as [merged [-> Hlookup]].
    exists merged. split; [ reflexivity | ].
    intros key. specialize (Hlookup key). simpl.
    destruct (pykey_eqb k key) eqn:E.
    + apply pykey_eqb_eq in E. subst key.
      assert (Hnone : dict_get items k = None).
      { clear - Hfresh. induction items as [ | [k0 v0] items IH ]; simpl.
        - reflexivity.
        - simpl in Hfresh. destruct (pykey_eqb k0 k) eqn:E.
          + apply pykey_eqb_eq in E. exfalso. apply Hfresh. now left.
          + apply IH. intros Hin. apply Hfresh. now right. }
      rewrite Hnone in Hlookup. rewrite dict_get_set_same in Hlookup.
      destruct (ConsoleWriter.is_dict v); [ now exists w | now subst w ].
    + apply pykey_eqb_neq in E.
      rewrite dict_get_set_other in Hlookup by congruence.
      exact Hlookup.
Qed.

End Loop.

Lemma dict_get_absent (d : pydict) (key : pykey) :
  dict_get d key = None <-> ~ In key (dict_keys d).
Proof.
  induction d as [ | [k v] d IH ]; simpl.
  - split; [ intros _ [] | reflexivity ].
  - destruct (pykey_eqb k key) eqn:E.
    + apply pykey_eqb_eq in E. subst k.
      split; [ discriminate | intros Hnot; exfalso; apply Hnot; now left ].
    + apply pykey_eqb_neq in E. rewrite IH. split.
      * intros Hnot [ Heq | Hin ]; [ now apply E | now apply Hnot ].
      * intros Hnot Hin. apply Hnot. now right.
Qed.

Lemma merge_items_fresh (recurse : pyval -> pyval -> outcome pyval)
    (items : list (pykey * pyval)) :
  Forall (fun kv =>
            ConsoleWriter.is_dict (snd kv) = true ->
            recurse (snd kv) (PDict []) = Returns (snd kv)) items ->
  forall d,
    NoDup (dict_keys d ++ dict_keys items)%list ->
    merge_items recurse items (PDict d) = Returns (PDict (d ++ items)%list).
Proof.
  induction items as [ | [key value] items IH ]; intros Hrec d Hnd.
  - simpl. now rewrite app_nil_r.
  - inversion Hrec as [ | ? ? Hvalue Hrest ]; subst. simpl in Hvalue.
    assert (Hfresh : ~ In key (dict_keys d)).
    { intros Hin. apply NoDup_remove_2 in Hnd. apply Hnd.
      apply in_or_app. now left. }
    assert (Hnext : NoDup (dict_keys (d ++ [(key, value)]) ++ dict_keys items)%list).
    { unfold dict_keys in *. rewrite map_app, <- app_assoc. exact Hnd. }
    rewrite merge_items_cons.
    replace (d ++ (key, value) :: items)%list
      with ((d ++ [(key, value)]) ++ items)%list
      by (now rewrite <- app_assoc).
    destruct (ConsoleWriter.is_dict value) eqn:Hdict.
    + apply dict_get_absent in Hfresh as Hnone. rewrite Hnone.
      rewrite (Hvalue eq_refl). cbn [obind].
      rewrite dict_set_fresh by exact Hfresh.
      now apply IH.
    + rewrite dict_set_fresh by exact Hfresh.
      now apply IH.
Qed.

(** X20.  Merging a mapping into an empty mapping returns the mapping
    itself, with its items in their order, when its mappings hold each key
    once and it is nested no deeper than the recursion limit allows. *)
Theorem deep_merge_into_empty (source : pyval) :
  forall limit,
    Props.merge_depth source <= limit ->
    Spec.well_formed source = true ->
    ConsoleWriter.is_dict source = true ->
    _deep_merge limit source (PDict []) = Returns source.
Proof.
  induction source as [ | b | n | bits | s | items IH | items IH ]
    using pyval_ind; intros limit Hdepth Hwf Hdict; try discriminate Hdict.
  destruct limit as [ | limit ]; simpl in Hdepth; [ lia | ].
  apply le_S_n in Hdepth. apply list_max_map_le in Hdepth.
  rewrite deep_merge_mapping.
  simpl in Hwf. apply andb_true_iff in Hwf. destruct Hwf as [Hkeys Hvalues].
  apply nodup_keys_NoDup in Hkeys.
  apply forallb_pairs_Forall in Hvalues.
  rewrite (merge_items_fresh (_deep_merge limit) items); [ reflexivity | | exact Hkeys ].
  rewrite Forall_forall in IH, Hdepth, Hvalues |- *.
  intros [key value] Hitem Hvalue. simpl in Hvalue |- *.
  apply (IH (key, value) Hitem).
  - specialize (Hdepth (key, value) Hitem). simpl in Hdepth.
    now rewrite Hvalue in Hdepth.
  - exact (Hvalues (key, value) Hitem).
  - exact Hvalue.
Qed.


(** X22.  A mapping with an entry is not merged over a scalar: when the
    source holds such a mapping under a key where the destination holds a
    text, a number, a boolean or null, the merge raises. *)
Theorem deep_merge_over_scalar_raises (limit : nat) (items d : pydict)
    (key : pykey) (entry : pykey * pyval) (more : pydict) (node : pyval) :
  NoDup (dict_keys items) ->
  dict_get items key = Some (PDict (entry :: more)) ->
  dict_get d key = Some node ->
  ConsoleWriter.is_primitive node = true ->
  exists cls msg, _deep_merge limit (PDict items) (PDict d) = Raises cls msg.
Proof.
  intros Hnd Hsource Hdest Hscalar.
  destruct (_deep_merge limit (PDict items) (PDict d))
    as [ after | cls msg ] eqn:Hmerge; [ exfalso | now exists cls, msg ].
  destruct limit as [ | limit ]; [ discriminate Hmerge | ].
  rewrite deep_merge_mapping in Hmerge.
  destruct (merge_items_lookup _ _ _ _ Hnd Hmerge) as [merged [_ Hlookup]].
  specialize (Hlookup key). rewrite Hsource, Hdest in Hlookup.
  cbn [ConsoleWriter.is_dict] in Hlookup.
  destruct Hlookup as [node' [_ Hnode]].
  apply deep_merge_returns in Hnode.
  destruct Hnode as [limit' [items' [_ [[= <-] Hnode]]]].
  destruct entry as [k v].
  destruct node as [ | b | n | bits | s | l | nd ]; try discriminate Hscalar;
    destruct v; discriminate Hnode.
Qed.

(** *** Merging twice *)

Lemma dict_set_same (d : pydict) (key : pykey) (value : pyval) :
  dict_get d key = Some value -> dict_set d key value = d.
Proof.
  induction d as [ | [k v] d IH ]; simpl; [ discriminate | ].
  destruct (pykey_eqb k key) eqn:E.
  - intros [= ->]. reflexivity.
  - intros Hget. now rewrite IH.
Qed.

Section Twice.

Variable recurse : pyval -> pyval -> outcome pyval.

(** After the loop, every item finds under its key what it would store
    there. *)
Lemma merge_items_settles (items : list (pykey * pyval)) :
  Forall (fun kv => forall node node',
            recurse (snd kv) node = Returns node' ->
            recurse (snd kv) node' = Returns node') items ->
  NoDup (dict_keys items) ->
  forall d after,
    merge_items recurse items (PDict d) = Returns after ->
    exists d',
      after = PDict d'
      /\ (forall key, ~ In key (dict_keys items) -> dict_get d' key = dict_get d key)
      /\ Forall (fun kv =>
                   exists stored,
                     dict_get d' (fst kv) = Some stored
                     /\ if ConsoleWriter.is_dict (snd kv)
                        then recurse (snd kv) stored = Returns stored
                        else stored = snd kv) items.
Proof.
  induction items as [ | [k v] items IH ]; intros Hrec Hnd d after Hmerge.
  - simpl in Hmerge. injection Hmerge as <-. exists d.
    split; [ reflexivity | split; [ reflexivity | constructor ] ].
  - inversion Hrec as [ | ? ? Hv Hrest ]; subst. simpl in Hv.
    inversion Hnd as [ | ? ? Hfresh Hnd' ]; subst.
    apply merge_items_step in Hmerge. destruct Hmerge as [w [Hloop Hw]].
    destruct (IH Hrest Hnd' _ _ Hloop) as [d' [-> [Hframe Hsettled]]].
    exists d'. split; [ reflexivity | split ].
    + intros key Hnot. rewrite Hframe by (intros Hin; apply Hnot; now right).
      apply dict_get_set_other. intros ->. apply Hnot. now left.
    + constructor; [ | exact Hsettled ].
      exists w. simpl. split.
      * rewrite Hframe by exact Hfresh. apply dict_get_set_same.
      * destruct (ConsoleWriter.is_dict v); [ | exact Hw ].
        exact (Hv _ _ Hw).
Qed.

Lemma merge_items_settled (items : list (pykey * pyval)) (d : pydict) :
  Forall (fun kv =>
            exists stored,
              dict_get d (fst kv) = Some stored
              /\ if ConsoleWriter.is_dict (snd kv)
                 then recurse (snd kv) stored = Returns stored
                 else stored = snd kv) items ->
  merge_items recurse items (PDict d) = Returns (PDict d).
Proof.
  induction 1 as [ | [k v] items [stored [Hget Hstored]] _ IH ];
    [ reflexivity | ].
  simpl in Hget, Hstored. rewrite merge_items_cons.
  destruct (ConsoleWriter.is_dict v).
  - rewrite Hget, Hstored. cbn [obind].
    now rewrite (dict_set_same _ _ _ Hget).
  - subst stored. now rewrite (dict_set_same _ _ _ Hget).
Qed.

Lemma list_assign_length (l : list pyval) (i : nat) (value : pyval) :
  List.length (list_assign l i value) = List.length l.
Proof.
  revert i. induction l as [ | x l IH ]; intros [ | i ]; simpl; auto.
Qed.

Lemma nth_error_list_assign (l : list pyval) (i : nat) (value : pyval) (j : nat) :
  i < List.length l ->
  nth_error (list_assign l i value) j
  = if Nat.eqb j i then Some value else nth_error l j.
Proof.
  revert i j. induction l as [ | x l IH ]; intros i j Hi; simpl in Hi; [ lia | ].
  destruct i as [ | i ], j as [ | j ]; simpl; try reflexivity.
  apply IH. lia.
Qed.

(** On sequences of one length the loop either raises on all of them or
    returns on all of them, writing the same values at the same places. *)
Lemma merge_items_list (items : list (pykey * pyval)) (n : nat) :
  (forall l after,
     List.length l = n -> merge_items recurse items (PList l) <> Returns after)
  \/ (exists written : nat -> option pyval,
        forall l,
          List.length l = n ->
          exists l',
            merge_items recurse items (PList l) = Returns (PList l')
            /\ List.length l' = n
            /\ forall j,
                 nth_error l' j
                 = match written j with
                   | Some value => Some value
                   | None => nth_error l j
                   end).
Proof.
  induction items as [ | [k v] items IH ].
  - right. exists (fun _ => None). intros l Hl. exists l.
    split; [ reflexivity | split; [ exact Hl | reflexivity ] ].
  - destruct (ConsoleWriter.is_dict v) eqn:Hdict.
    { left. intros l after _. rewrite merge_items_cons_list, Hdict. discriminate. }
    destruct k as [ s | z | ];
      try (left; intros l after _; rewrite merge_items_cons_list, Hdict;
           discriminate).
    destruct (Z.leb 0 (if Z.ltb z 0 then Z.add z (Z.of_nat n) else z)
              && Z.ltb (if Z.ltb z 0 then Z.add z (Z.of_nat n) else z) (Z.of_nat n))
      eqn:Hrange.
    + destruct IH as [ Hraises | [written Hwritten] ].
      * left. intros l after Hl. rewrite merge_items_cons_list, Hdict.
        cbn [setitem]. rewrite Hl, Hrange. cbn [obind].
        apply Hraises. now rewrite list_assign_length.
      * right.
        exists (fun j =>
                  match written j with
                  | Some value => Some value
                  | None =>
                      if Nat.eqb j (Z.to_nat (if Z.ltb z 0
                                              then Z.add z (Z.of_nat n) else z))
                      then Some v else None
                  end).
        intros l Hl. rewrite merge_items_cons_list, Hdict.
        cbn [setitem]. rewrite Hl, Hrange. cbn [obind].
        destruct (Hwritten (list_assign l
                              (Z.to_nat (if Z.ltb z 0
                                         then Z.add z (Z.of_nat n) else z)) v))
          as [l' [Hloop [Hlen Hnth]]]; [ now rewrite list_assign_length | ].
        exists l'. split; [ exact Hloop | split; [ exact Hlen | ] ].
        intros j. rewrite Hnth.
        destruct (written j); [ reflexivity | ].
        rewrite nth_error_list_assign; [ now destruct (Nat.eqb j _) | ].
        apply andb_true_iff in Hrange. destruct Hrange as [Hlow Hhigh].
        apply Z.leb_le in Hlow. apply Z.ltb_lt in Hhigh. lia.
    + left. intros l after Hl. rewrite merge_items_cons_list, Hdict.
      cbn [setitem]. rewrite Hl, Hrange. discriminate.
Qed.

Lemma merge_items_twice (items : list (pykey * pyval)) :
  Forall (fun kv => forall node node',
            recurse (snd kv) node = Returns node' ->
            recurse (snd kv) node' = Returns node') items ->
  NoDup (dict_keys items) ->
  forall destination after,
    merge_items recurse items destination = Returns after ->
    merge_items recurse items after = Returns after.
Proof.
  intros Hrec Hnd destination after Hmerge.
  destruct destination as [ | b | n | bits | s | l | d ].
  6: { destruct (merge_items_list items (List.length l))
         as [ Hraises | [written Hwritten] ].
       - now contradiction (Hraises l after eq_refl).
       - destruct (Hwritten l eq_refl) as [l' [Hfirst [Hlen Hnth]]].
         rewrite Hfirst in Hmerge. injection Hmerge as <-.
         destruct (Hwritten l' Hlen) as [l'' [Hsecond [_ Hnth']]].
         rewrite Hsecond. do 2 f_equal.
         apply nth_error_ext. intros j. rewrite Hnth', Hnth.
         now destruct (written j). }
  6: { destruct (merge_items_settles items Hrec Hnd _ _ Hmerge)
         as [d' [-> [_ Hsettled]]].
       now apply merge_items_settled. }
  all: destruct items as [ | [k v] items ];
    [ simpl in Hmerge; injection Hmerge as <-; reflexivity
    | destruct v; discriminate Hmerge ].
Qed.

End Twice.

Lemma deep_merge_twice (limit : nat) :
  forall source destination after,
    Spec.well_formed source = true ->
    _deep_merge limit source destination = Returns after ->
    _deep_merge limit source after = Returns after.
Proof.
  induction limit as [ | limit IH ]; intros source destination after Hwf Hmerge;
    [ discriminate Hmerge | ].
  destruct source as [ | b | n | bits | s | l | items ]; try discriminate Hmerge.
  rewrite deep_merge_mapping in Hmerge |- *.
  simpl in Hwf. apply andb_true_iff in Hwf. destruct Hwf as [Hkeys Hvalues].
  apply nodup_keys_NoDup in Hkeys.
  apply forallb_pairs_Forall in Hvalues.
  apply (merge_items_twice (_deep_merge limit) items) with destination;
    [ | exact Hkeys | exact Hmerge ].
  rewrite Forall_forall in Hvalues |- *.
  intros [k v] Hitem node node'. simpl.
  apply IH. exact (Hvalues (k, v) Hitem).
Qed.

(** X23.  Merging is idempotent: when the merge of a source whose
    mappings hold each key once returns, merging the same source into the
    result returns the result unchanged. *)
Theorem deep_merge_idempotent (limit : nat) (source destination after : pyval) :
  Spec.well_formed source = true ->
  _deep_merge limit source destination = Returns after ->
  _deep_merge limit source after = Returns after.
Proof. apply deep_merge_twice. Qed.

End DeepMerge.

(** A source with a nested mapping and a sequence, two nested calls
    allowed. *)
Lemma deep_merge_into_empty_witness :
  let source := PDict [ (KStr "a", PDict [(KStr "b", PInt 1)]);
                        (KStr "c", PList [PInt 2]) ] in
  Props.merge_depth source <= 2
  /\ Spec.well_formed source = true
  /\ Helpers._deep_merge 2 source (PDict []) = Helpers.Returns source.
Proof.
  cbv zeta.
  assert (Hdepth : Props.merge_depth
                     (PDict [ (KStr "a", PDict [(KStr "b", PInt 1)]);
                              (KStr "c", PList [PInt 2]) ]) <= 2)
    by (apply Nat.leb_le; reflexivity).
  refine (conj Hdepth (conj eq_refl _)).
  exact (deep_merge_into_empty _ 2 Hdepth eq_refl eq_refl).
Defined.


(** A mapping over a text. *)
Lemma deep_merge_over_scalar_witness :
  NoDup (dict_keys [ (KStr "a", PDict [(KStr "b", PInt 1)]) ])
  /\ exists cls msg,
       Helpers._deep_merge 2
         (PDict [ (KStr "a", PDict [(KStr "b", PInt 1)]) ])
         (PDict [ (KStr "a", PStr "x") ])
       = Helpers.Raises cls msg.
Proof.
  assert (Hnd : NoDup (dict_keys [ (KStr "a", PDict [(KStr "b", PInt 1)]) ]))
    by (apply nodup_keys_NoDup; reflexivity).
  refine (conj Hnd _).
  exact (deep_merge_over_scalar_raises 2
           [ (KStr "a", PDict [(KStr "b", PInt 1)]) ] [ (KStr "a", PStr "x") ]
           (KStr "a") (KStr "b", PInt 1) [] (PStr "x")
           Hnd eq_refl eq_refl eq_refl).
Defined.

(** Merging twice into a mapping that holds a sequence. *)
Lemma deep_merge_idempotent_witness :
  let source := PDict [ (KStr "a", PDict [(KInt 0, PStr "new")]);
                        (KStr "c", PInt 3) ] in
  let destination := PDict [ (KStr "a", PList [PStr "old"; PStr "kept"]) ] in
  let after := PDict [ (KStr "a", PList [PStr "new"; PStr "kept"]);
                       (KStr "c", PInt 3) ] in
  Spec.well_formed source = true
  /\ Helpers._deep_merge 2 source destination = Helpers.Returns after
  /\ Helpers._deep_merge 2 source after = Helpers.Returns after.
Proof.
  cbv zeta.
  refine (conj eq_refl (conj eq_refl _)).
  apply (deep_merge_idempotent 2
           (PDict [ (KStr "a", PDict [(KInt 0, PStr "new")]); (KStr "c", PInt 3) ])
           (PDict [ (KStr "a", PList [PStr "old"; PStr "kept"]) ]));
    reflexivity.
Defined.

(** ** The description of a change set *)

Section ChangeSet.

Import Helpers.

Lemma dict_set_keys_In (d : pydict) (key : pykey) (value : pyval) (k : pykey) :
  In k (dict_keys (dict_set d key value)) -> In k (dict_keys d) \/ k = key.
Proof.
  rewrite dict_set_keys.
  destruct (existsb (pykey_eqb key) (dict_keys d)); [ now left | ].
  intros Hin. apply in_app_or in Hin.
  destruct Hin as [ Hin | [ <- | [] ] ]; [ now left | now right ].
Qed.

Lemma key_in_text (names : list string) (k : pykey) :
  key_in names k = true -> exists name, k = KStr name /\ In name names.
Proof.
  destruct k as [ s | n | ]; simpl; try discriminate.
  intros Hin. apply existsb_exists in Hin. destruct Hin as [name [Hname E]].
  apply String.eqb_eq in E. subst name. now exists s.
Qed.

Section Select.

Variable names : list string.

Lemma select_app (a b : list (pykey * pyval)) :
  forall built,
    select names built (a ++ b) = select names (select names built a) b.
Proof.
  induction a as [ | [k v] a IH ]; intros built; simpl; [ reflexivity | apply IH ].
Qed.

Lemma select_invariant (items : list (pykey * pyval)) :
  forall built,
    NoDup (dict_keys built) ->
    forallb (key_in names) (dict_keys built) = true ->
    NoDup (dict_keys (select names built items))
    /\ forallb (key_in names) (dict_keys (select names built items)) = true.
Proof.
  induction items as [ | [k v] items IH ]; intros built Hnd Hin; simpl.
  - now split.
  - destruct (key_in names k) eqn:Hk; [ | now apply IH ].
    apply IH; [ now apply dict_set_NoDup | ].
    apply forallb_forall. intros k' Hk'.
    apply dict_set_keys_In in Hk'. destruct Hk' as [ Hk' | -> ]; [ | exact Hk ].
    rewrite forallb_forall in Hin. now apply Hin.
Qed.

(** Selecting from items that are all selected, with new keys, appends
    them. *)
Lemma select_fixed (items : list (pykey * pyval)) :
  forall built,
    NoDup (dict_keys built ++ dict_keys items)%list ->
    forallb (key_in names) (dict_keys items) = true ->
    select names built items = (built ++ items)%list.
Proof.
  induction items as [ | [k v] items IH ]; intros built Hnd Hin; simpl.
  - now rewrite app_nil_r.
  - simpl in Hin. apply andb_true_iff in Hin. destruct Hin as [Hk Hrest].
    rewrite Hk.
    assert (Hfresh : ~ In k (dict_keys built)).
    { intros Hin. apply NoDup_remove_2 in Hnd. apply Hnd.
      apply in_or_app. now left. }
    rewrite dict_set_fresh by exact Hfresh.
    rewrite IH; [ now rewrite <- app_assoc | | exact Hrest ].
    unfold dict_keys in *. rewrite map_app, <- app_assoc. exact Hnd.
Qed.

Lemma select_twice (items : list (pykey * pyval)) :
  select names [] (select names [] items) = select names [] items.
Proof.
  destruct (select_invariant items []) as [Hnd Hin];
    [ constructor | reflexivity | ].
  now rewrite select_fixed.
Qed.

(** What is found under a key after selecting from items that hold each
    key once. *)
Lemma select_get (items : list (pykey * pyval)) (k : pykey) :
  NoDup (dict_keys items) ->
  forall built,
    dict_get (select names built items) k
    = match (if key_in names k then dict_get items k else None) with
      | Some value => Some value
      | None => dict_get built k
      end.
Proof.
  induction items as [ | [k0 v0] items IH ]; intros Hnd built; simpl.
  - now destruct (key_in names k).
  - inversion Hnd as [ | ? ? Hfresh Hnd' ]; subst.
    rewrite (IH Hnd').
    destruct (pykey_eqb k0 k) eqn:E.
    + apply pykey_eqb_eq in E. subst k0.
      assert (Hnone : dict_get items k = None).
      { clear - Hfresh. induction items as [ | [k1 v1] items IH ]; simpl.
        - reflexivity.
        - simpl in Hfresh. destruct (pykey_eqb k1 k) eqn:E.
          + apply pykey_eqb_eq in E. exfalso. apply Hfresh. now left.
          + apply IH. intros Hin. apply Hfresh. now right. }
      rewrite Hnone.
      destruct (key_in names k); [ | reflexivity ].
      apply dict_get_set_same.
    + destruct (key_in names k) eqn:Hk.
      * destruct (dict_get items k); [ reflexivity | ].
        destruct (key_in names k0); [ | reflexivity ].
        apply dict_get_set_other. intros ->.
        now rewrite pykey_eqb_refl in E.
      * destruct (key_in names k0); [ | reflexivity ].
        apply dict_get_set_other. intros ->.
        now rewrite pykey_eqb_refl in E.
Qed.

End Select.

(** A simplified change: one key, a mapping of the desired items of the
    resource change. *)
Lemma simplify_changes_shape (changes : list pyval) :
  forall simplified,
    simplify_changes changes = Returns simplified ->
    List.length simplified = List.length changes
    /\ Forall (fun change =>
                 exists resource_change,
                   change = PDict [(KStr "ResourceChange", PDict resource_change)]
                   /\ NoDup (dict_keys resource_change)
                   /\ forallb (key_in desired_resource_changes)
                        (dict_keys resource_change) = true) simplified.
Proof.
  induction changes as [ | change changes IH ]; intros simplified Hsimplify.
  - injection Hsimplify as <-. split; [ reflexivity | constructor ].
  - cbn [simplify_changes] in Hsimplify.
    destruct (getitem change "ResourceChange") as [ resource_change | cls msg ];
      cbn [obind] in Hsimplify; [ | discriminate Hsimplify ].
    destruct (items_of resource_change) as [ items | cls msg ];
      cbn [obind] in Hsimplify; [ | discriminate Hsimplify ].
    destruct (simplify_changes changes) as [ tail | cls msg ];
      cbn [obind] in Hsimplify; [ | discriminate Hsimplify ].
    injection Hsimplify as <-.
    destruct (IH tail eq_refl) as [Hlen Hall].
    split; [ simpl; now rewrite Hlen | ].
    constructor; [ | exact Hall ].
    exists (select desired_resource_changes [] items).
    split; [ reflexivity | ].
    apply select_invariant; [ constructor | reflexivity ].
Qed.

Lemma simplify_changes_fixed (simplified : list pyval) :
  Forall (fun change =>
            exists resource_change,
              change = PDict [(KStr "ResourceChange", PDict resource_change)]
              /\ NoDup (dict_keys resource_change)
              /\ forallb (key_in desired_resource_changes)
                   (dict_keys resource_change) = true) simplified ->
  simplify_changes simplified = Returns simplified.
Proof.
  induction 1 as [ | change simplified [rc [-> [Hnd Hin]]] _ IH ];
    [ reflexivity | ].
  cbn [simplify_changes].
  change (getitem (PDict [(KStr "ResourceChange", PDict rc)]) "ResourceChange")
    with (Returns (PDict rc)).
  cbn [obind items_of]. rewrite IH. cbn [obind].
  now rewrite (select_fixed desired_resource_changes rc []).
Qed.

Lemma changes_not_desired : key_in desired_response_items (KStr "Changes") = false.
Proof. reflexivity. Qed.

Lemma desired_not_changes (name : string) :
  In name desired_response_items -> KStr name <> KStr "Changes".
Proof.
  intros Hin [= ->]. simpl in Hin.
  repeat (destruct Hin as [ Hin | Hin ]; [ discriminate Hin | ]).
  exact Hin.
Qed.

(** What the function returns, when it returns. *)
Lemma simplify_returns (response simplified : pyval) :
  simplify_change_set_description response = Returns simplified ->
  exists items changes,
    response = PDict items
    /\ simplified
       = PDict (select desired_response_items [] items
                ++ [(KStr "Changes", PList changes)])%list
    /\ Forall (fun change =>
                 exists resource_change,
                   change = PDict [(KStr "ResourceChange", PDict resource_change)]
                   /\ NoDup (dict_keys resource_change)
                   /\ forallb (key_in desired_resource_changes)
                        (dict_keys resource_change) = true) changes.
Proof.
  unfold simplify_change_set_description. intros Hsimplify.
  destruct response as [ | b | n | bits | s | l | items ];
    try discriminate Hsimplify.
  cbn [items_of obind] in Hsimplify.
  destruct (getitem (PDict items) "Changes") as [ found | cls msg ];
    cbn [obind] in Hsimplify; [ | discriminate Hsimplify ].
  destruct (elements_of found) as [ elements | cls msg ];
    cbn [obind] in Hsimplify; [ | discriminate Hsimplify ].
  destruct (simplify_changes elements) as [ changes | cls msg ] eqn:Hchanges;
    cbn [obind] in Hsimplify; [ | discriminate Hsimplify ].
  injection Hsimplify as <-.
  exists items, changes. split; [ reflexivity | split ].
  - destruct (select_invariant desired_response_items items [])
      as [_ Hin]; [ constructor | reflexivity | ].
    rewrite dict_set_fresh; [ reflexivity | ].
    intros Hchangeskey. rewrite forallb_forall in Hin.
    specialize (Hin _ Hchangeskey). discriminate Hin.
  - now apply simplify_changes_shape in Hchanges.
Qed.

(** X24.  The description that is returned holds, each once, desired
    response items that the response held, and last the key Changes with a
    list of mappings, each with the one key ResourceChange over a mapping
    of desired resource-change items. *)
Theorem simplified_description_shape (response simplified : pyval) :
  simplify_change_set_description response = Returns simplified ->
  exists items kept changes,
    response = PDict items
    /\ simplified = PDict (kept ++ [(KStr "Changes", PList changes)])%list
    /\ NoDup (dict_keys kept)
    /\ (forall key,
          In key (dict_keys kept) ->
          exists name, key = KStr name /\ In name desired_response_items)
    /\ Forall (fun change =>
                 exists resource_change,
                   change = PDict [(KStr "ResourceChange", PDict resource_change)]
                   /\ forall key,
                        In key (dict_keys resource_change) ->
                        exists name,
                          key = KStr name /\ In name desired_resource_changes)
              changes.
Proof.
  intros Hsimplify.
  destruct (simplify_returns _ _ Hsimplify) as [items [changes [-> [-> Hshape]]]].
  destruct (select_invariant desired_response_items items [])
    as [Hnd Hin]; [ constructor | reflexivity | ].
  exists items, (select desired_response_items [] items), changes.
  split; [ reflexivity | split; [ reflexivity | split; [ exact Hnd | split ] ] ].
  - intros key Hkey. apply key_in_text.
    rewrite forallb_forall in Hin. now apply Hin.
  - apply Forall_forall. intros change Hchange.
    rewrite Forall_forall in Hshape.
    destruct (Hshape change Hchange) as [rc [-> [_ Hrc]]].
    exists rc. split; [ reflexivity | ].
    intros key Hkey. apply key_in_text.
    rewrite forallb_forall in Hrc. now apply Hrc.
Qed.

(** X25.  A desired response item is carried over as it is: under each
    desired name the description holds what the response, a mapping with
    each key once, held under it, or nothing when the response held
    nothing. *)
Theorem simplified_description_keeps_desired_items
    (items : pydict) (simplified : pydict) (name : string) :
  NoDup (dict_keys items) ->
  simplify_change_set_description (PDict items) = Returns (PDict simplified) ->
  In name desired_response_items ->
  dict_get simplified (KStr name) = dict_get items (KStr name).
Proof.
  intros Hnd Hsimplify Hname.
  destruct (simplify_returns _ _ Hsimplify)
    as [items' [changes [[= <-] [[= ->] _]]]].
  destruct (select_invariant desired_response_items items [])
    as [_ Hin]; [ constructor | reflexivity | ].
  rewrite <- dict_set_fresh.
  - rewrite dict_get_set_other by now apply desired_not_changes.
    rewrite (select_get desired_response_items items (KStr name) Hnd []).
    assert (Hk : key_in desired_response_items (KStr name) = true).
    { unfold key_in. apply existsb_exists. exists name.
      split; [ exact Hname | apply String.eqb_refl ]. }
    rewrite Hk. now destruct (dict_get items (KStr name)).
  - intros Hchangeskey. rewrite forallb_forall in Hin.
    specialize (Hin _ Hchangeskey). discriminate Hin.
Qed.

(** X26.  Simplifying is idempotent: the description that is returned is
    simplified to itself. *)
Theorem simplify_idempotent (response simplified : pyval) :
  simplify_change_set_description response = Returns simplified ->
  simplify_change_set_description simplified = Returns simplified.
Proof.
  intros Hsimplify.
  destruct (simplify_returns _ _ Hsimplify) as [items [changes [_ [-> Hshape]]]].
  destruct (select_invariant desired_response_items items [])
    as [Hnd Hin]; [ constructor | reflexivity | ].
  assert (Hfresh : ~ In (KStr "Changes")
                     (dict_keys (select desired_response_items [] items))).
  { intros Hchangeskey. rewrite forallb_forall in Hin.
    specialize (Hin _ Hchangeskey). discriminate Hin. }
  unfold simplify_change_set_description. cbn [items_of obind].
  rewrite select_app, select_twice.
  cbn [select]. rewrite changes_not_desired.
  cbn [getitem]. rewrite <- dict_set_fresh by exact Hfresh.
  rewrite dict_get_set_same. cbn [obind elements_of].
  rewrite (simplify_changes_fixed _ Hshape). cbn [obind].
  reflexivity.
Qed.

End ChangeSet.

(** A response with two changes and items that are not desired. *)
Lemma simplified_description_witness :
  let response :=
    PDict [ (KStr "StackName", PStr "my-stack");
            (KStr "ResponseMetadata", PDict []);
            (KStr "Changes",
             PList [ PDict [ (KStr "Type", PStr "Resource");
                             (KStr "ResourceChange",
                              PDict [ (KStr "Action", PStr "Add");
                                      (KStr "Details", PList []) ]) ] ]);
            (KStr "Status", PStr "CREATE_COMPLETE") ] in
  let simplified :=
    PDict [ (KStr "StackName", PStr "my-stack");
            (KStr "Status", PStr "CREATE_COMPLETE");
            (KStr "Changes",
             PList [ PDict [ (KStr "ResourceChange",
                              PDict [ (KStr "Action", PStr "Add") ]) ] ]) ] in
  Helpers.simplify_change_set_description response = Helpers.Returns simplified
  /\ exists items kept changes,
       response = PDict items
       /\ simplified = PDict (kept ++ [(KStr "Changes", PList changes)])%list.
Proof.
  cbv zeta.
  refine (conj eq_refl _).
  destruct (simplified_description_shape _ _
              (eq_refl :
                 Helpers.simplify_change_set_description
                   (PDict [ (KStr "StackName", PStr "my-stack");
                            (KStr "ResponseMetadata", PDict []);
                            (KStr "Changes",
                             PList [ PDict [ (KStr "Type", PStr "Resource");
                                             (KStr "ResourceChange",
                                              PDict [ (KStr "Action", PStr "Add");
                                                      (KStr "Details", PList []) ]) ] ]);
                            (KStr "Status", PStr "CREATE_COMPLETE") ])
                 = Helpers.Returns
                     (PDict [ (KStr "StackName", PStr "my-stack");
                              (KStr "Status", PStr "CREATE_COMPLETE");
                              (KStr "Changes",
                               PList [ PDict [ (KStr "ResourceChange",
                                                PDict [ (KStr "Action", PStr "Add") ]) ] ]) ])))
    as [items [kept [changes [Hresponse [Hsimplified _]]]]].
  exists items, kept, changes. now split.
Defined.

(** The stack name of a response. *)
Lemma simplified_description_keeps_witness :
  let items := [ (KStr "StackName", PStr "my-stack");
                 (KStr "ResponseMetadata", PDict []);
                 (KStr "Changes", PList []) ] in
  let simplified := [ (KStr "StackName", PStr "my-stack");
                      (KStr "Changes", PList []) ] in
  NoDup (dict_keys items)
  /\ Helpers.simplify_change_set_description (PDict items)
     = Helpers.Returns (PDict simplified)
  /\ In "StackName" Helpers.desired_response_items
  /\ Helpers.dict_get simplified (KStr "StackName")
     = Helpers.dict_get items (KStr "StackName").
Proof.
  cbv zeta.
  assert (Hnd : NoDup (dict_keys [ (KStr "StackName", PStr "my-stack");
                                   (KStr "ResponseMetadata", PDict []);
                                   (KStr "Changes", PList []) ]))
    by (apply nodup_keys_NoDup; reflexivity).
  assert (Hname : In "StackName" Helpers.desired_response_items)
    by (simpl; tauto).
  refine (conj Hnd (conj eq_refl (conj Hname _))).
  exact (simplified_description_keeps_desired_items _ _ "StackName"
           Hnd eq_refl Hname).
Defined.

(** Simplifying a description twice. *)
Lemma simplify_idempotent_witness :
  let response :=
    PDict [ (KStr "StackName", PStr "my-stack");
            (KStr "ResponseMetadata", PDict []);
            (KStr "Changes",
             PList [ PDict [ (KStr "ResourceChange",
                              PDict [ (KStr "Action", PStr "Add");
                                      (KStr "Details", PList []) ]) ] ]) ] in
  let simplified :=
    PDict [ (KStr "StackName", PStr "my-stack");
            (KStr "Changes",
             PList [ PDict [ (KStr "ResourceChange",
                              PDict [ (KStr "Action", PStr "Add") ]) ] ]) ] in
  Helpers.simplify_change_set_description response = Helpers.Returns simplified
  /\ Helpers.simplify_change_set_description simplified
     = Helpers.Returns simplified.
Proof.
  cbv zeta.
  refine (conj eq_refl _).
  apply (simplify_idempotent
           (PDict [ (KStr "StackName", PStr "my-stack");
                    (KStr "ResponseMetadata", PDict []);
                    (KStr "Changes",
                     PList [ PDict [ (KStr "ResourceChange",
                                      PDict [ (KStr "Action", PStr "Add");
                                              (KStr "Details", PList []) ]) ] ]) ])).
  reflexivity.
Defined.
